(** * Converter_Videos: the timeline auditor of [main.py]

    A shallow embedding of the diagnosis heuristic ([get_meta],
    [get_packet_first_last_pts], [verdict_for_file]) and of the repair
    pipeline ([wrap_raw], [remux_to_mkv], [mp4_faststart_timescale],
    [reencode_cfr], [process_one]) together with the properties the
    specification states about them.

    Conventions of the model.
    - Python floats are IEEE binary64 numbers: Rocq's primitive floats.
    - Text is a [string] of bytes; the literals of the source are kept in
      UTF-8.
    - The file system is a finite map from path strings to file contents;
      only regular files are modelled, and renaming replaces an existing
      destination (POSIX).
    - The external tools are oracles gathered in a [Host]: [ffprobe] reads
      the file system, [ffmpeg] leaves an exit status and decides the
      content of its output path, the last word of its command line.
    - [run] models [subprocess.run] once the tool was started and its
      output decoded. The exceptions [subprocess.run] raises otherwise
      ([FileNotFoundError] on a missing executable, which [main] rules out
      at line 267, and [UnicodeDecodeError] on an output that is not UTF-8)
      end the program and are not modelled: what is proved of a call is
      proved of a call whose tools ran.
    - Stateful code runs in a state-and-exception monad over the file system
      and a trace of the external events. *)

From Stdlib Require Import ZArith String Ascii List Floats DecimalString Lia.
From stdpp Require Import gmap strings.

#[local] Set Warnings "-inexact-float".
#[local] Open Scope Z_scope.

(* ===================================================================== *)
(** ** Python values and built-ins *)
(* ===================================================================== *)

(** [max(a, b)] keeps its first argument unless the second compares greater. *)
Definition py_max (a b : float) : float :=
  if PrimFloat.ltb a b then b else a.

(** The exceptions the modelled code can meet. *)
Inductive Exn : Type :=
  | ZeroDivisionError
  | ValueError
  | FileNotFoundError.

Inductive Res (A : Type) : Type :=
  | Ok (a : A)
  | Raise (e : Exn).
Arguments Ok {A} a.
Arguments Raise {A} e.

(** [x / y] on floats raises on a zero divisor. *)
Definition py_div (x y : float) : Res float :=
  if PrimFloat.eqb y 0%float then Raise ZeroDivisionError
  else Ok (PrimFloat.div x y).

(** [str(n)] for an [int]. *)
Definition str_int (n : Z) : string := NilZero.string_of_int (Z.to_int n).

(** [str.lower()], on the ASCII letters. On a text of ASCII characters
    this is [str.lower()]; elsewhere [str.lower()] follows Unicode (the
    Kelvin sign lowers to [k]), which this function does not. *)
Definition lower_ascii (a : ascii) : ascii :=
  let n := nat_of_ascii a in
  if ((65 <=? n) && (n <=? 90))%nat then ascii_of_nat (n + 32) else a.

Fixpoint lower (s : string) : string :=
  match s with
  | EmptyString => EmptyString
  | String a s' => String (lower_ascii a) (lower s')
  end.

(** [str.strip()], on the ASCII white space. *)
Definition is_space (a : ascii) : bool :=
  let n := nat_of_ascii a in
  (((9 <=? n) && (n <=? 13)) || ((28 <=? n) && (n <=? 32)))%nat.

Fixpoint lstrip (s : string) : string :=
  match s with
  | EmptyString => EmptyString
  | String a s' => if is_space a then lstrip s' else s
  end.

Definition strip (s : string) : string :=
  String.rev (lstrip (String.rev (lstrip s))).

(** [sub in s] for two strings. *)
Fixpoint contains (sub s : string) : bool :=
  String.prefix sub s ||
  match s with
  | EmptyString => false
  | String _ s' => contains sub s'
  end.

(** ["sep".join(parts)]. *)
Fixpoint join (sep : string) (parts : list string) : string :=
  match parts with
  | [] => ""
  | [p] => p
  | p :: rest => p +:+ sep +:+ join sep rest
  end.

(** [s.rfind(c)]: the index of the last occurrence of a character. *)
Fixpoint rfind (c : ascii) (s : string) : option nat :=
  match s with
  | EmptyString => None
  | String a s' =>
      match rfind c s' with
      | Some i => Some (S i)
      | None => if Ascii.eqb a c then Some O else None
      end
  end.

(** The values a diagnostics dictionary holds. *)
Inductive PyVal : Type :=
  | VNone
  | VStr (s : string)
  | VFloat (x : float).

Definition val_of_str (o : option string) : PyVal :=
  match o with Some s => VStr s | None => VNone end.

(** How an f-string prints an optional string. *)
Definition fmt_opt (o : option string) : string :=
  match o with Some s => s | None => "None" end.

(* ===================================================================== *)
(** ** Paths ([pathlib.PurePath]) *)
(* ===================================================================== *)

(** A path is its parent directory and its final component. The paths the
    program handles are regular files, so [name] holds no separator. *)
Record Path : Type := mkPath { parent : string; name : string }.

(** What the parent contributes to the printed path: nothing when the path
    has no directory part (its parent prints as [.]), the parent itself when
    it ends with the separator (the root), the parent and a separator
    otherwise. *)
Definition dir_prefix (d : string) : string :=
  if String.eqb d "" || String.eqb d "." then ""
  else if String.eqb (String.substring (String.length d - 1) 1 d) "/" then d
  else d +:+ "/".

Definition str (p : Path) : string := dir_prefix (parent p) +:+ name p.

(** The index at which the suffix starts, when there is one:
    [i = name.rfind('.')] with [0 < i < len(name) - 1]. *)
Definition suffix_index (n : string) : option nat :=
  match rfind "." n with
  | Some i => if ((0 <? i) && (i <? String.length n - 1))%nat then Some i else None
  | None => None
  end.

Definition suffix (p : Path) : string :=
  match suffix_index (name p) with
  | Some i => String.substring i (String.length (name p) - i) (name p)
  | None => ""
  end.

Definition stem (p : Path) : string :=
  match suffix_index (name p) with
  | Some i => String.substring 0 i (name p)
  | None => name p
  end.

(** [with_name] and [with_suffix] raise [ValueError] on a path with an empty
    name; [with_suffix] also on a suffix that is not empty and does not start
    with a dot, or that is the dot alone. *)
Definition with_name (p : Path) (n : string) : Res Path :=
  if decide (name p = "") then Raise ValueError
  else Ok (mkPath (parent p) n).

Definition valid_suffix (s : string) : bool :=
  match s with
  | EmptyString => true
  | String a rest => Ascii.eqb a "." && negb (String.eqb rest "")
  end.

Definition with_suffix (p : Path) (s : string) : Res Path :=
  if negb (valid_suffix s) then Raise ValueError
  else if decide (name p = "") then Raise ValueError
  else Ok (mkPath (parent p) (stem p +:+ s)).

(* ===================================================================== *)
(** ** General settings *)
(* ===================================================================== *)

Definition RAW_EXTS : gset string := {[ ".h264"; ".hevc"; ".dav" ]}.

Definition VIDEO_EXTS : gset string :=
  {[ ".mp4"; ".mov"; ".mkv"; ".avi"; ".ts"; ".m2ts"; ".flv"; ".webm"; ".3gp";
     ".mpg"; ".mpeg"; ".wmv"; ".asf"; ".m4v" ]} ∪ RAW_EXTS.

(* ===================================================================== *)
(** ** The world: file system, trace, external tools *)
(* ===================================================================== *)

(** What the program does to the outside, in the order it does it. Only
    operations that took effect are recorded. *)
Inductive Event : Type :=
  | EvProbe (cmd : list string)
  | EvRepair (cmd : list string) (rc : Z) (out : option string)
  | EvUnlink (p : string)
  | EvRename (src dst : string).

Record World : Type := mkWorld {
  fs : gmap string string;
  trace : list Event
}.

(** [subprocess.CompletedProcess], the two fields the program reads. *)
Record CompletedProcess : Type := mkProc { returncode : Z; stdout : string }.

(** The document [ffprobe -print_format json -show_format -show_streams]
    prints, as far as the program reads it. ffprobe prints each of these
    fields as a JSON string; a key that is missing and a key bound to [null]
    are both [None] (as [dict.get] has them). [doc_other] tells whether the
    dictionary holds anything that does not show in the two fields: another
    key, or [format] or [streams] bound to [null]. The document is the empty
    dictionary, the one [not data] holds of, when there is no format, no
    stream list and nothing else. *)
Record Format : Type := mkFormat {
  fmt_duration : option string;
  fmt_format_name : option string;
  fmt_start_time : option string
}.

Record Stream : Type := mkStream {
  codec_type : option string;
  codec_name : option string;
  st_duration : option string
}.

Record ProbeDoc : Type := mkDoc {
  doc_format : option Format;
  doc_streams : option (list Stream);
  doc_other : bool
}.

Definition empty_format : Format := mkFormat None None None.

Definition doc_is_empty (d : ProbeDoc) : bool :=
  match doc_format d, doc_streams d with
  | None, None => negb (doc_other d)
  | _, _ => false
  end.

(** The collaborators the program leans on: the two external tools and three
    library functions of Python. *)
Record Host : Type := mkHost {
  (** [ffprobe] run to completion: exit status and standard output. *)
  ffprobe_run : list string → gmap string string → CompletedProcess;
  (** [ffprobe] opened as a pipe: the lines of its output, or [None] when
      the executable cannot be started ([FileNotFoundError]). *)
  ffprobe_popen : list string → gmap string string → option (list string);
  (** [ffmpeg]: exit status, and the file it leaves at its output path
      ([None]: no file there). *)
  ffmpeg_run : list string → gmap string string → Z * option string;
  (** [json.loads], read at the type above; [None] when it raises. ffprobe's
      JSON writer prints an object; a value that is not an object is read
      as the empty dictionary when it is falsy, which [get_meta] treats
      alike, and is outside the model when it is truthy ([data.get] would
      raise [AttributeError]). *)
  json_loads : string → option ProbeDoc;
  (** [float(s)] on a string; [None] when it raises [ValueError]. *)
  py_float : string → option float;
  (** [format(x, ".nf")]. *)
  format_f : nat → float → string
}.

(** The verdict of the audit. *)
Inductive Verdict : Type := OK | WRAP | FIX.

#[global] Instance Verdict_eq_dec : EqDecision Verdict.
Proof. solve_decision. Defined.

(** *** The monad *)

Definition M (A : Type) : Type := World → Res A * World.

#[global] Instance M_ret : MRet M := λ A a w, (Ok a, w).

#[global] Instance M_bind : MBind M := λ A B f m w,
  match m w with
  | (Ok a, w') => f a w'
  | (Raise e, w') => (Raise e, w')
  end.

Definition lift {A : Type} (r : Res A) : M A := λ w, (r, w).

(** [try: m / except: pass]. *)
Definition try_pass (m : M unit) : M unit := λ w,
  match m w with
  | (Ok _, w') => (Ok tt, w')
  | (Raise _, w') => (Ok tt, w')
  end.

(** *** File operations of [pathlib.Path] *)

Definition exists_ (p : Path) : M bool := λ w,
  (Ok (bool_decide (is_Some (fs w !! str p))), w).

Definition st_size (p : Path) : M Z := λ w,
  match fs w !! str p with
  | Some c => (Ok (Z.of_nat (String.length c)), w)
  | None => (Raise FileNotFoundError, w)
  end.

Definition unlink (p : Path) : M unit := λ w,
  match fs w !! str p with
  | Some _ => (Ok tt, mkWorld (delete (str p) (fs w)) (trace w ++ [EvUnlink (str p)]))
  | None => (Raise FileNotFoundError, w)
  end.

Definition rename (src dst : Path) : M unit := λ w,
  match fs w !! str src with
  | Some c =>
      (Ok tt, mkWorld (<[str dst := c]> (delete (str src) (fs w)))
                      (trace w ++ [EvRename (str src) (str dst)]))
  | None => (Raise FileNotFoundError, w)
  end.

(** [p.parent.mkdir(parents=True, exist_ok=True)]: every destination lies
    beside its source, whose directory exists; directories are not part of
    the model. *)
Definition ensure_parent (p : Path) : M unit := mret tt.

Section Program.

Variable h : Host.

(* ===================================================================== *)
(** ** Running the tools *)
(* ===================================================================== *)

Definition is_ffmpeg (cmd : list string) : bool :=
  match cmd with
  | exe :: _ => String.eqb exe "ffmpeg"
  | [] => false
  end.

(** [run(cmd)]: [subprocess.run] to completion. *)
Definition run (cmd : list string) : M CompletedProcess := λ w,
  if is_ffmpeg cmd then
    let '(rc, out) := ffmpeg_run h cmd (fs w) in
    let dst := List.last cmd "" in
    (Ok (mkProc rc ""),
     mkWorld (match out with
              | Some c => <[dst := c]> (fs w)
              | None => delete dst (fs w)
              end)
             (trace w ++ [EvRepair cmd rc out]))
  else
    (Ok (ffprobe_run h cmd (fs w)), mkWorld (fs w) (trace w ++ [EvProbe cmd])).

(** [subprocess.Popen(cmd, stdout=PIPE, ...)] read line by line; [None] is
    [FileNotFoundError]. *)
Definition popen (cmd : list string) : M (option (list string)) := λ w,
  (Ok (ffprobe_popen h cmd (fs w)), mkWorld (fs w) (trace w ++ [EvProbe cmd])).

(* ===================================================================== *)
(** ** ffprobe helpers *)
(* ===================================================================== *)

Definition ffprobe_json_cmd (path : Path) : list string :=
  ["ffprobe"; "-v"; "error"; "-print_format"; "json"; "-show_format";
   "-show_streams"; "-analyzeduration"; "200M"; "-probesize"; "200M"; str path].

Definition ffprobe_json (path : Path) : M (option ProbeDoc) :=
  p ← run (ffprobe_json_cmd path);
  if negb (returncode p =? 0) then mret None
  else mret (json_loads h (if String.eqb (stdout p) "" then "{}" else stdout p)).

(** One turn of the loop over the streams; the state is [(vcodec, dur)].
    The inner [match dur] is line 62, [dur = sv if dur is None else
    max(dur, sv)], under the [if dur is None:] of line 57. *)
Definition stream_step (acc : option string * option float) (st : Stream)
  : option string * option float :=
  let '(vcodec, dur) := acc in
  let vcodec :=
    if decide (codec_type st = Some "video") then codec_name st else vcodec in
  let dur :=
    match dur with
    | None =>
        match st_duration st with
        | Some sd =>
            match py_float h sd with
            | Some sv =>
                if PrimFloat.ltb 0%float sv then
                  match dur with
                  | None => Some sv
                  | Some d => Some (py_max d sv)
                  end
                else dur
            | None => dur
            end
        | None => dur
        end
    | Some _ => dur
    end in
  (vcodec, dur).

(** Returns [(meta_duration_s, container, vcodec, start_time_s)]. *)
Definition get_meta (path : Path)
  : M (option float * option string * option string * option float) :=
  data ← ffprobe_json path;
  match data with
  | None => mret (None, None, None, None)
  | Some data =>
      if doc_is_empty data then mret (None, None, None, None)
      else
        let fmt := default empty_format (doc_format data) in
        let streams := default [] (doc_streams data) in
        let dur :=
          match fmt_duration fmt with
          | Some d => py_float h d
          | None => None
          end in
        let container :=
          match fmt_format_name fmt with
          | Some s => if String.eqb s "" then "" else s
          | None => ""
          end in
        let start_time :=
          match fmt_start_time fmt with
          | Some s => py_float h s
          | None => None
          end in
        let '(vcodec, dur) := fold_left stream_step streams (None, dur) in
        mret (dur, Some container, vcodec, start_time)
  end.

Definition packets_cmd (path : Path) : list string :=
  ["ffprobe"; "-v"; "error"; "-select_streams"; "v:0"; "-show_packets";
   "-show_entries"; "packet=pts_time"; "-of"; "csv=p=0"; "-read_intervals";
   "%+#999999"; "-analyzeduration"; "200M"; "-probesize"; "200M"; str path].

(** One turn of the loop over the lines; the state is [(first, last)]. *)
Definition pts_step (acc : option float * option float) (line : string)
  : option float * option float :=
  let '(first, last) := acc in
  let line := strip line in
  if String.eqb line "" then (first, last)
  else
    match py_float h line with
    | None => (first, last)
    | Some val =>
        (match first with None => Some val | Some _ => first end, Some val)
    end.

(** Returns [(first_pts, last_pts)] of the packets of the video stream. *)
Definition get_packet_first_last_pts (path : Path)
  : M (option float * option float) :=
  proc ← popen (packets_cmd path);
  match proc with
  | None => mret (None, None)
  | Some lines => mret (fold_left pts_step lines (None, None))
  end.

(* ===================================================================== *)
(** ** Verdict *)
(* ===================================================================== *)

(** [meta_dur is None or meta_dur <= 0.001] fails: the usable duration. *)
Definition usable_meta (meta_dur : option float) : option float :=
  match meta_dur with
  | None => None
  | Some m => if PrimFloat.leb m 0.001%float then None else Some m
  end.

(** [fpts is None or lpts is None or lpts <= fpts] fails: the usable
    timeline. *)
Definition usable_timeline (fpts lpts : option float) : option (float * float) :=
  match fpts, lpts with
  | Some f, Some l => if PrimFloat.leb l f then None else Some (f, l)
  | _, _ => None
  end.

Definition bad_combo (container vcodec : option string) : bool :=
  contains "mpeg" (default "" container) &&
  bool_decide (vcodec = Some "h264" ∨ vcodec = Some "hevc").

(** The decision of [verdict_for_file] once both probes have answered
    (lines 106-138): a function of the two answers and of the tolerance. *)
Definition verdict_engine (diverge_tol : float)
    (meta_dur : option float) (container vcodec : option string)
    (fpts lpts : option float) : Res (Verdict * string * gmap string PyVal) :=
  match usable_meta meta_dur with
  | None =>
      match usable_timeline fpts lpts with
      | None =>
          Ok (FIX, "Sem duração meta e sem pts_time coerente.",
              {[ "container" := val_of_str container;
                 "vcodec" := val_of_str vcodec ]})
      | Some (fpts, lpts) =>
          let pkt_dur := PrimFloat.sub lpts fpts in
          Ok (FIX,
              "Sem duração meta; pacotes sugerem ~" +:+
                format_f h 3 pkt_dur +:+ "s.",
              {[ "container" := val_of_str container;
                 "vcodec" := val_of_str vcodec;
                 "pkt_duration" := VFloat pkt_dur ]})
      end
  | Some meta_dur =>
      (* há duração meta: validar pacotes *)
      match usable_timeline fpts lpts with
      | None =>
          Ok (FIX,
              "Meta tem duração, mas pacotes sem pts_time válido (player costuma travar tempo).",
              {[ "container" := val_of_str container;
                 "vcodec" := val_of_str vcodec;
                 "meta_duration" := VFloat meta_dur ]})
      | Some (fpts, lpts) =>
          let pkt_dur := py_max 0%float (PrimFloat.sub lpts fpts) in
          match py_div (PrimFloat.abs (PrimFloat.sub pkt_dur meta_dur))
                       (py_max meta_dur 1e-6%float) with
          | Raise e => Raise e
          | Ok divergence =>
              let bad_combo := bad_combo container vcodec in
              let diverges := PrimFloat.ltb diverge_tol divergence in
              let extras : gmap string PyVal :=
                {[ "container" := val_of_str container;
                   "vcodec" := val_of_str vcodec;
                   "meta_duration" := VFloat meta_dur;
                   "pkt_duration" := VFloat pkt_dur ]} in
              if diverges || bad_combo then
                let reason :=
                  (if diverges then
                     ["divergência " +:+
                        format_f h 1 (PrimFloat.mul divergence 100%float) +:+
                        "% (meta " +:+ format_f h 3 meta_dur +:+
                        "s vs pkt " +:+ format_f h 3 pkt_dur +:+ "s)"]
                   else []) ++
                  (if bad_combo then
                     ["container '" +:+ fmt_opt container +:+ "' com " +:+
                        fmt_opt vcodec +:+ " é propenso a timeline ruim"]
                   else []) in
                Ok (FIX, join "; " reason, extras)
              else
                Ok (OK, "Metadados e pts_time coerentes.", extras)
          end
      end
  end.

(** Returns [(veredicto, motivo, extras)]. *)
Definition verdict_for_file (path : Path) (diverge_tol : float)
  : M (Verdict * string * gmap string PyVal) :=
  let ext := lower (suffix path) in
  if bool_decide (ext ∈ RAW_EXTS) then
    mret (WRAP, "Bitstream cru (" +:+ ext +:+ "); precisa contêiner + FPS.",
          {[ "ext" := VStr ext ]})
  else
    '(meta_dur, container, vcodec, start_time) ← get_meta path;
    '(fpts, lpts) ← get_packet_first_last_pts path;
    lift (verdict_engine diverge_tol meta_dur container vcodec fpts lpts).

(* ===================================================================== *)
(** ** Repair actions *)
(* ===================================================================== *)

Definition wrap_cmd (src dst : Path) (fps : Z) : list string :=
  ["ffmpeg"; "-y"; "-hide_banner"; "-loglevel"; "error"; "-fflags"; "+genpts";
   "-framerate"; str_int fps; "-i"; str src; "-c"; "copy"; str dst].

Definition wrap_raw (src dst : Path) (fps : Z) : M bool :=
  ensure_parent dst;;
  p ← run (wrap_cmd src dst fps);
  if negb (returncode p =? 0) then mret false
  else
    e ← exists_ dst;
    if negb e then mret false
    else sz ← st_size dst; mret (0 <? sz).

Definition remux_cmd (src dst : Path) : list string :=
  ["ffmpeg"; "-y"; "-hide_banner"; "-loglevel"; "error"; "-fflags"; "+genpts";
   "-analyzeduration"; "200M"; "-probesize"; "200M"; "-i"; str src;
   "-c"; "copy"; str dst].

Definition remux_to_mkv (src dst : Path) : M bool :=
  ensure_parent dst;;
  p ← run (remux_cmd src dst);
  if negb (returncode p =? 0) then mret false
  else
    e ← exists_ dst;
    if negb e then mret false
    else sz ← st_size dst; mret (0 <? sz).

Definition faststart_cmd (src dst : Path) : list string :=
  ["ffmpeg"; "-y"; "-hide_banner"; "-loglevel"; "error"; "-fflags"; "+genpts";
   "-i"; str src; "-c"; "copy"; "-movflags"; "+faststart";
   "-video_track_timescale"; "90000"; str dst].

Definition mp4_faststart_timescale (src dst : Path) : M bool :=
  ensure_parent dst;;
  p ← run (faststart_cmd src dst);
  if negb (returncode p =? 0) then mret false
  else
    e ← exists_ dst;
    if negb e then mret false
    else sz ← st_size dst; mret (0 <? sz).

(** [if fps_in:] holds for an integer other than zero. *)
Definition fps_hint (fps_in : option Z) : option Z :=
  match fps_in with
  | Some f => if f =? 0 then None else Some f
  | None => None
  end.

Definition reencode_cmd (src dst : Path) (out_mkv : bool) (fps_in : option Z)
  : list string :=
  ["ffmpeg"; "-y"; "-hide_banner"; "-loglevel"; "error"; "-fflags"; "+genpts"]
  ++ (match fps_hint fps_in with
      | Some f => ["-framerate"; str_int f]
      | None => []
      end)
  ++ ["-i"; str src;
      "-map"; "0:v:0?"; "-map"; "0:a:0?";
      "-vf"; "setpts=PTS-STARTPTS";
      "-fps_mode"; "cfr";
      "-c:v"; "libx264"; "-preset"; "veryfast"; "-crf"; "20";
      "-pix_fmt"; "yuv420p";
      "-c:a"; "aac"; "-b:a"; "128k"]
  ++ (if negb out_mkv then ["-movflags"; "+faststart"] else [])
  ++ [str dst].

Definition reencode_cfr (src dst : Path) (out_mkv : bool) (fps_in : option Z)
  : M bool :=
  ensure_parent dst;;
  p ← run (reencode_cmd src dst out_mkv fps_in);
  if negb (returncode p =? 0) then mret false
  else
    e ← exists_ dst;
    if negb e then mret false
    else sz ← st_size dst; mret (0 <? sz).

(* ===================================================================== *)
(** ** Pipeline per file *)
(* ===================================================================== *)

(** The in-place promotion, which the source writes out once per strategy
    (lines 202-206, 217-221, 230-234 and 245-249): drop an old backup, move
    the original to the backup name, move the result to its final name.
    [target] is the final path as the call site computes it. *)
Definition swap_inplace (path tmp : Path) (target : Res Path) : M Path :=
  bak ← lift (with_suffix path (suffix path +:+ ".bak"));
  try_pass (unlink bak);;
  rename path bak;;
  final ← lift target;
  rename tmp final;;
  mret final.

Definition Outcome : Type := Verdict * string * string * option string.

(** [for fps in try_fps:] of the WRAP branch. *)
Fixpoint wrap_loop (verdict : Verdict) (path : Path) (inplace : bool)
    (ext_out : string) (try_fps : list Z) : M Outcome :=
  match try_fps with
  | [] =>
      mret (verdict, "wrap_failed", "",
            Some "Falha ao embrulhar RAW com FPS tentados.")
  | fps :: rest =>
      dst ← (if inplace then mret path
             else lift (with_name path
                          (stem path +:+ "_wrapped" +:+ str_int fps +:+ ext_out)));
      tmp ← (if negb inplace then mret dst
             else lift (with_name path (stem path +:+ "_wrapped_tmp" +:+ ext_out)));
      ok ← wrap_raw path tmp fps;
      if (ok : bool) then
        if inplace then
          final ← swap_inplace path tmp (with_suffix path ext_out);
          mret (verdict, "wrap(" +:+ str_int fps +:+ ") inplace", str final, None)
        else mret (verdict, "wrap(" +:+ str_int fps +:+ ")", str tmp, None)
      else wrap_loop verdict path inplace ext_out rest
  end.

(** [fps_in or 'auto'] inside the f-string. *)
Definition fps_label (fps_in : option Z) : string :=
  match fps_hint fps_in with
  | Some f => str_int f
  | None => "auto"
  end.

(** [for fps_in in [None, *try_fps]:] of the FIX branch, and the line after
    it. *)
Fixpoint reencode_loop (verdict : Verdict) (path : Path)
    (inplace prefer_mkv : bool) (ext_out : string) (fpss : list (option Z))
  : M Outcome :=
  match fpss with
  | [] =>
      mret (verdict, "reencode_failed", "",
            Some "Re-encode CFR falhou com todos os FPS.")
  | fps_in :: rest =>
      dst ← (if inplace then mret path
             else lift (with_name path (stem path +:+ "_reenc" +:+ ext_out)));
      tmp ← (if negb inplace then mret dst
             else lift (with_name path (stem path +:+ "_reenc_tmp" +:+ ext_out)));
      ok ← reencode_cfr path tmp prefer_mkv fps_in;
      if (ok : bool) then
        if inplace then
          final ← swap_inplace path tmp (with_suffix path ext_out);
          mret (verdict, "reencode_cfr(" +:+ fps_label fps_in +:+ ") inplace",
                str final, None)
        else
          mret (verdict, "reencode_cfr(" +:+ fps_label fps_in +:+ ")",
                str tmp, None)
      else reencode_loop verdict path inplace prefer_mkv ext_out rest
  end.

(** Returns [(veredito, acao_aplicada, saida, detalhe_erro)]. [main] rebinds
    the global [verdict_for_file] to the tolerance of the command line before
    it calls [process_one]; the tolerance is a parameter here,
    [diverge_tol]. *)
Definition process_one (path : Path) (try_fps : list Z)
    (dry_run inplace prefer_mkv : bool) (diverge_tol : float) : M Outcome :=
  '(verdict, reason, extra) ← verdict_for_file path diverge_tol;
  (* Preparar nomes de saída *)
  let ext_out := if prefer_mkv then ".mkv" else ".mp4" in
  if decide (verdict = OK) then mret (verdict, "none", "", None)
  else if dry_run then mret (verdict, "planned", "", None)
  else if decide (verdict = WRAP) then
    (* RAW -> embrulhar sem re-encode, tentando FPSs *)
    wrap_loop verdict path inplace ext_out try_fps
  else
    (* 1) Remux para MKV *)
    mkv_dst ← (if inplace then mret path
               else lift (with_name path (stem path +:+ "_fixed.mkv")));
    mkv_tmp ← (if negb inplace then mret mkv_dst
               else lift (with_name path (stem path +:+ "_fixed_tmp.mkv")));
    ok ← remux_to_mkv path mkv_tmp;
    if (ok : bool) then
      if inplace then
        final ← swap_inplace path mkv_tmp (with_suffix path ".mkv");
        mret (verdict, "remux_mkv inplace", str final, None)
      else mret (verdict, "remux_mkv", str mkv_tmp, None)
    else
      (* 2) Tentar MP4 com faststart & timescale *)
      mp4_dst ← (if inplace then mret path
                 else lift (with_name path (stem path +:+ "_fixed.mp4")));
      mp4_tmp ← (if negb inplace then mret mp4_dst
                 else lift (with_name path (stem path +:+ "_fixed_tmp.mp4")));
      ok ← mp4_faststart_timescale path mp4_tmp;
      if (ok : bool) then
        if inplace then
          final ← swap_inplace path mp4_tmp (Ok path);
          mret (verdict, "mp4_faststart_timescale inplace", str final, None)
        else mret (verdict, "mp4_faststart_timescale", str mp4_tmp, None)
      else
        (* 3) Fallback: re-encode CFR *)
        reencode_loop verdict path inplace prefer_mkv ext_out
          (None :: map Some try_fps).

(** One row of the report: [arquivo, veredito, motivo, acao, saida, erro]. *)
Record Row : Type := mkRow {
  arquivo : string;
  veredito : Verdict;
  motivo : string;
  acao : string;
  saida : string;
  erro : string
}.

(** One turn of the loop of [main] over the targets (the printing and the
    counters left out). *)
Definition main_loop_body (p : Path) (tol : float) (try_fps : list Z)
    (dry_run inplace prefer_mkv : bool) : M Row :=
  '(verdict, reason, _) ← verdict_for_file p tol;
  if bool_decide (verdict = WRAP ∨ verdict = FIX) && negb dry_run then
    '(verdict2, action, outpath, err) ←
      process_one p try_fps dry_run inplace prefer_mkv tol;
    mret (mkRow (str p) verdict reason action outpath (default "" err))
  else mret (mkRow (str p) verdict reason "none" "" "").

End Program.

(* ===================================================================== *)
(** ** Vocabulary of the properties *)
(* ===================================================================== *)

Definition is_probe (e : Event) : bool :=
  match e with EvProbe _ => true | _ => false end.

Definition is_repair (e : Event) : bool :=
  match e with EvRepair _ _ _ => true | _ => false end.

Definition event_cmd (e : Event) : list string :=
  match e with
  | EvProbe cmd | EvRepair cmd _ _ => cmd
  | EvUnlink _ | EvRename _ _ => []
  end.

(** The success criterion, on what a run of [ffmpeg] left behind: exit status
    zero, and an output file that exists and is not empty. *)
Definition success_criterion (rc : Z) (files : gmap string string) (dst : Path)
  : Prop :=
  rc = 0 ∧ ∃ c, files !! str dst = Some c ∧ (0 < String.length c)%nat.

(** The same, read off the event of the run. *)
Definition event_ok (e : Event) : bool :=
  match e with
  | EvRepair _ rc (Some c) => (rc =? 0) && (0 <? Z.of_nat (String.length c))
  | _ => false
  end.

(** The timestamp a line of the packet listing carries, if any. *)
Definition line_pts (h : Host) (line : string) : option float :=
  if String.eqb (strip line) "" then None else py_float h (strip line).

(** The file system after [ffmpeg] left [out] at [dst]. *)
Definition written (dst : string) (out : option string)
    (files : gmap string string) : gmap string string :=
  match out with
  | Some c => <[dst := c]> files
  | None => delete dst files
  end.

(** The raw-bitstream flag of a file: its lower-cased extension is in
    [RAW_EXTS]. *)
Definition is_raw (path : Path) : bool :=
  bool_decide (lower (suffix path) ∈ RAW_EXTS).

(** The world once the metadata probe ran, and once both probes did. *)
Definition after_meta (path : Path) (w : World) : World :=
  mkWorld (fs w) (trace w ++ [EvProbe (ffprobe_json_cmd path)]).

Definition after_probes (path : Path) (w : World) : World :=
  mkWorld (fs w)
          (trace w ++ [EvProbe (ffprobe_json_cmd path); EvProbe (packets_cmd path)]).

(** The positive durations the streams report, in stream order. *)
Definition stream_durations (h : Host) (streams : list Stream) : list float :=
  omap (λ st, sd ← st_duration st;
              sv ← py_float h sd;
              if PrimFloat.ltb 0%float sv then Some sv else None) streams.

(* ===================================================================== *)
(** ** A sample host *)
(* ===================================================================== *)

(** [float] on the few literals the examples print. *)
Definition sample_float (s : string) : option float :=
  if String.eqb s "0.0" then Some 0%float
  else if String.eqb s "5.0" then Some 5%float
  else if String.eqb s "10.0" then Some 10%float
  else if String.eqb s "12.5" then Some 12.5%float
  else None.

(** A host whose [ffprobe] prints one document and one packet listing
    whatever the file, and whose [ffmpeg] is [mux]. *)
Definition sample_host (doc : option ProbeDoc) (lines : option (list string))
    (mux : list string → gmap string string → Z * option string) : Host :=
  mkHost (λ _ _, mkProc 0 "doc") (λ _ _, lines) mux (λ _, doc)
         sample_float (λ _ _, "?").

(** An [ffmpeg] that always fails and writes nothing. *)
Definition mux_fails (cmd : list string) (files : gmap string string)
  : Z * option string := (1, files !! List.last cmd "").

(** An [ffmpeg] that always succeeds. *)
Definition mux_works (cmd : list string) (files : gmap string string)
  : Z * option string := (0, Some "VIDEO").


(** A transport stream whose metadata and packets agree on ten seconds. *)
Definition doc_mpegts : ProbeDoc :=
  mkDoc (Some (mkFormat (Some "10.0") (Some "mpegts") (Some "0.0")))
        (Some [mkStream (Some "video") (Some "h264") None])
        false.

(** A file with no container duration and two streams of five and of ten
    seconds. *)
Definition doc_two_streams : ProbeDoc :=
  mkDoc (Some (mkFormat None (Some "avi") None))
        (Some [mkStream (Some "video") (Some "h264") (Some "5.0");
               mkStream (Some "audio") (Some "aac") (Some "10.0")])
        false.

Definition sample_world : World := mkWorld {[ "d/a.avi" := "ORIGINAL" ]} [].

(* ===================================================================== *)
(** ** The repair chain, as the specification words it *)
(* ===================================================================== *)

(** A strategy ready to run: the command line, the path it writes, and what
    follows its success (promotion of the result and the outcome). *)
Record Step : Type := mkStep {
  step_cmd : list string;
  step_dst : Path;
  step_promote : M Outcome
}.

(** One external invocation judged by the success criterion. *)
Definition attempt (h : Host) (cmd : list string) (dst : Path) : M bool :=
  ensure_parent dst;;
  p ← run h cmd;
  if negb (returncode p =? 0) then mret false
  else
    e ← exists_ dst;
    if negb e then mret false
    else sz ← st_size dst; mret (0 <? sz).

(** An ordered list of strategies, tried in order, the first success
    winning; [failed] is the outcome when none succeeds. *)
Fixpoint run_chain (h : Host) (failed : Outcome) (plan : list Step) : M Outcome :=
  match plan with
  | [] => mret failed
  | s :: rest =>
      ok ← attempt h (step_cmd s) (step_dst s);
      if (ok : bool) then step_promote s else run_chain h failed rest
  end.

(** The event of running [cmd] in a world, and the world it leaves. *)
Definition repair_event (h : Host) (cmd : list string) (w : World) : Event :=
  EvRepair cmd (ffmpeg_run h cmd (fs w)).1 (ffmpeg_run h cmd (fs w)).2.

Definition attempted (h : Host) (cmd : list string) (w : World) : World :=
  mkWorld (written (List.last cmd "") (ffmpeg_run h cmd (fs w)).2 (fs w))
          (trace w ++ [repair_event h cmd w]).

(** Every step of [plan] was run from [w] and failed, leaving [w']. *)
Inductive all_failed (h : Host) : list Step → World → World → Prop :=
  | all_failed_nil (w : World) : all_failed h [] w w
  | all_failed_cons (s : Step) (rest : list Step) (w w' : World) :
      event_ok (repair_event h (step_cmd s) w) = false →
      all_failed h rest (attempted h (step_cmd s) w) w' →
      all_failed h (s :: rest) w w'.

(** A step is well formed when it runs [ffmpeg] on its destination. *)
Definition step_wf (s : Step) : Prop :=
  is_ffmpeg (step_cmd s) = true ∧ List.last (step_cmd s) "" = str (step_dst s).

(** A file beside [path]. *)
Definition sibling (path : Path) (n : string) : Path := mkPath (parent path) n.

(** What follows a success: in place, the swap and the in-place label; side
    by side, the output stays where it was written. *)
Definition promote (verdict : Verdict) (path tmp : Path) (inplace : bool)
    (target : Res Path) (label_inplace label : string) : M Outcome :=
  if inplace then
    final ← swap_inplace path tmp target;
    mret (verdict, label_inplace, str final, None)
  else mret (verdict, label, str tmp, None).

Definition ext_out_of (prefer_mkv : bool) : string :=
  if prefer_mkv then ".mkv" else ".mp4".

Definition mkv_tmp_of (path : Path) (inplace : bool) : Path :=
  sibling path
    (if inplace then stem path +:+ "_fixed_tmp.mkv"
     else stem path +:+ "_fixed.mkv").

Definition mp4_tmp_of (path : Path) (inplace : bool) : Path :=
  sibling path
    (if inplace then stem path +:+ "_fixed_tmp.mp4"
     else stem path +:+ "_fixed.mp4").

Definition reenc_tmp_of (path : Path) (inplace prefer_mkv : bool) : Path :=
  sibling path
    (if inplace then stem path +:+ "_reenc_tmp" +:+ ext_out_of prefer_mkv
     else stem path +:+ "_reenc" +:+ ext_out_of prefer_mkv).

Definition wrap_tmp_of (path : Path) (inplace prefer_mkv : bool) (fps : Z) : Path :=
  sibling path
    (if inplace then stem path +:+ "_wrapped_tmp" +:+ ext_out_of prefer_mkv
     else stem path +:+ "_wrapped" +:+ str_int fps +:+ ext_out_of prefer_mkv).

Definition reencode_step (verdict : Verdict) (path : Path)
    (inplace prefer_mkv : bool) (fps_in : option Z) : Step :=
  mkStep (reencode_cmd path (reenc_tmp_of path inplace prefer_mkv) prefer_mkv fps_in)
         (reenc_tmp_of path inplace prefer_mkv)
         (promote verdict path (reenc_tmp_of path inplace prefer_mkv) inplace
                  (with_suffix path (ext_out_of prefer_mkv))
                  ("reencode_cfr(" +:+ fps_label fps_in +:+ ") inplace")
                  ("reencode_cfr(" +:+ fps_label fps_in +:+ ")")).

(** The FIX chain: remux, then faststart/timescale copy, then the re-encode
    without a frame-rate hint and once per candidate frame rate. *)
Definition fix_chain (verdict : Verdict) (path : Path)
    (inplace prefer_mkv : bool) (try_fps : list Z) : list Step :=
  mkStep (remux_cmd path (mkv_tmp_of path inplace)) (mkv_tmp_of path inplace)
         (promote verdict path (mkv_tmp_of path inplace) inplace
                  (with_suffix path ".mkv") "remux_mkv inplace" "remux_mkv")
  :: mkStep (faststart_cmd path (mp4_tmp_of path inplace)) (mp4_tmp_of path inplace)
            (promote verdict path (mp4_tmp_of path inplace) inplace
                     (Ok path) "mp4_faststart_timescale inplace"
                     "mp4_faststart_timescale")
  :: map (reencode_step verdict path inplace prefer_mkv) (None :: map Some try_fps).

Definition wrap_step (verdict : Verdict) (path : Path)
    (inplace prefer_mkv : bool) (fps : Z) : Step :=
  mkStep (wrap_cmd path (wrap_tmp_of path inplace prefer_mkv fps) fps)
         (wrap_tmp_of path inplace prefer_mkv fps)
         (promote verdict path (wrap_tmp_of path inplace prefer_mkv fps) inplace
                  (with_suffix path (ext_out_of prefer_mkv))
                  ("wrap(" +:+ str_int fps +:+ ") inplace")
                  ("wrap(" +:+ str_int fps +:+ ")")).

Definition reencode_failed (verdict : Verdict) : Outcome :=
  (verdict, "reencode_failed", "", Some "Re-encode CFR falhou com todos os FPS.").

Definition wrap_failed (verdict : Verdict) : Outcome :=
  (verdict, "wrap_failed", "", Some "Falha ao embrulhar RAW com FPS tentados.").

(** The input frame-rate hint a candidate puts on the command line of the
    re-encode: [-framerate] and the candidate in decimal. The candidate 0
    puts none: [if fps_in:] (line 165) takes it as absent, so its attempt is
    the attempt without a hint once more. *)
Definition framerate_hint (fps : Z) : list string :=
  if fps =? 0 then [] else ["-framerate"; str_int fps].

(** The command line of the constant-frame-rate re-encode, word by word:
    timestamps regenerated, the hint before the input, the first video and
    audio streams, presentation timestamps from zero, uniform frame spacing,
    x264 and AAC, the streaming layout unless the target is MKV. *)
Definition reencode_line (src dst : string) (prefer_mkv : bool)
    (hint : list string) : list string :=
  ["ffmpeg"; "-y"; "-hide_banner"; "-loglevel"; "error"; "-fflags"; "+genpts"]
  ++ hint
  ++ ["-i"; src;
      "-map"; "0:v:0?"; "-map"; "0:a:0?";
      "-vf"; "setpts=PTS-STARTPTS";
      "-fps_mode"; "cfr";
      "-c:v"; "libx264"; "-preset"; "veryfast"; "-crf"; "20";
      "-pix_fmt"; "yuv420p";
      "-c:a"; "aac"; "-b:a"; "128k"]
  ++ (if prefer_mkv then [] else ["-movflags"; "+faststart"])
  ++ [dst].

(** The command lines of the FIX chain, word by word and in the order the
    specification gives: the remux into MKV with the analysis bounds, the
    stream copy with the streaming layout and the 90000 timescale, the
    re-encode without a hint, the re-encode once per candidate frame rate
    with the hint of that candidate. *)
Definition fix_cmds (path : Path) (inplace prefer_mkv : bool)
    (try_fps : list Z) : list (list string) :=
  ["ffmpeg"; "-y"; "-hide_banner"; "-loglevel"; "error"; "-fflags"; "+genpts";
   "-analyzeduration"; "200M"; "-probesize"; "200M";
   "-i"; str path; "-c"; "copy"; str (mkv_tmp_of path inplace)]
  :: ["ffmpeg"; "-y"; "-hide_banner"; "-loglevel"; "error"; "-fflags"; "+genpts";
      "-i"; str path; "-c"; "copy"; "-movflags"; "+faststart";
      "-video_track_timescale"; "90000"; str (mp4_tmp_of path inplace)]
  :: reencode_line (str path) (str (reenc_tmp_of path inplace prefer_mkv))
                   prefer_mkv []
  :: map (λ fps, reencode_line (str path)
                   (str (reenc_tmp_of path inplace prefer_mkv))
                   prefer_mkv (framerate_hint fps))
         try_fps.

(** An outcome that reports a failure carries an error detail. *)
Definition outcome_failed (r : Res Outcome) : bool :=
  match r with
  | Ok (_, _, _, Some _) => true
  | _ => false
  end.

(** A computation that runs no external tool: whatever it adds to the trace
    is no repair. *)
Definition quiet {A : Type} (m : M A) : Prop :=
  ∀ w, ∃ evs,
    trace (m w).2 = trace w ++ evs
    ∧ forallb (λ e, negb (is_repair e)) evs = true.

(** The backup of a file: its full name followed by [.bak]. *)
Definition backup_of (path : Path) : Path := sibling path (name path +:+ ".bak").

(** The final names an in-place promotion can give: the original name, or
    the stem with the extension of the target container. *)
Definition final_name_of (path final : Path) : Prop :=
  final = path ∨ ∃ prefer_mkv,
    final = sibling path (stem path +:+ ext_out_of prefer_mkv).

(** A step of an in-place chain: it writes beside the original under a name
    made of the stem and a tail that starts with an underscore, and promotes
    by the swap. *)
Definition inplace_step (verdict : Verdict) (path : Path) (s : Step) : Prop :=
  ∃ t target li l,
    step_dst s = sibling path (stem path +:+ String "_" t)
    ∧ (target = Ok path ∨ ∃ b, target = with_suffix path (ext_out_of b))
    ∧ step_promote s = promote verdict path (step_dst s) true target li l.

(** The streams flagged as video. *)
Definition video_streams (streams : list Stream) : list Stream :=
  filter (λ st, codec_type st = Some "video") streams.

(** An event that is a probe or a repair: no file was renamed or unlinked. *)
Definition is_tool_run (e : Event) : bool := is_probe e || is_repair e.

(** The command lines of the WRAP chain, one per candidate frame rate. *)
Definition wrap_cmds (path : Path) (inplace prefer_mkv : bool)
    (try_fps : list Z) : list (list string) :=
  map (λ fps, wrap_cmd path (wrap_tmp_of path inplace prefer_mkv fps) fps) try_fps.

(** An [ffmpeg] that fails on the frame rate 25 and works otherwise. *)
Definition mux_rejects_25 (cmd : list string) (files : gmap string string)
  : Z * option string :=
  if bool_decide ("25" ∈ cmd) then (1, None) else (0, Some "VIDEO").

(** A file with two video streams, h264 then hevc. *)
Definition doc_two_videos : ProbeDoc :=
  mkDoc (Some (mkFormat (Some "10.0") (Some "matroska,webm") None))
        (Some [mkStream (Some "video") (Some "h264") None;
               mkStream (Some "audio") (Some "aac") None;
               mkStream (Some "video") (Some "hevc") None])
        false.

(* ===================================================================== *)
(** ** The loop of [main] over the targets *)
(* ===================================================================== *)

(** The string a verdict is in the source. *)
Definition verdict_name (v : Verdict) : string :=
  match v with OK => "OK" | WRAP => "WRAP" | FIX => "FIX" end.

(** [counts = {"OK":0,"WRAP":0,"FIX":0}]. *)
Definition counts_init : gmap string nat :=
  {[ "OK" := 0%nat; "WRAP" := 0%nat; "FIX" := 0%nat ]}.

(** [counts[verdict] = counts.get(verdict, 0) + 1]. *)
Definition count_verdict (counts : gmap string nat) (v : Verdict)
  : gmap string nat :=
  <[verdict_name v := (default 0%nat (counts !! verdict_name v) + 1)%nat]> counts.

(** [for p in targets:] of [main] (lines 287-304), from the rows and the
    counters gathered so far. The source counts the verdict before it
    repairs; an exception in the repair ends the run, counters included, so
    counting after the turn gives the same result. *)
Fixpoint main_loop (h : Host) (targets : list Path) (tol : float)
    (try_fps : list Z) (dry_run inplace prefer_mkv : bool)
    (rows : list Row) (counts : gmap string nat)
  : M (list Row * gmap string nat) :=
  match targets with
  | [] => mret (rows, counts)
  | p :: rest =>
      row ← main_loop_body h p tol try_fps dry_run inplace prefer_mkv;
      main_loop h rest tol try_fps dry_run inplace prefer_mkv
                (rows ++ [row]) (count_verdict counts (veredito row))
  end.

(** The targets of [main] (line 285): the input itself when it is a file,
    otherwise the files of the walk whose lower-cased extension is a video
    extension. [walk] is what [root.rglob("*")] yields that is a file. *)
Definition targets_of (root : Path) (root_is_file : bool) (walk : list Path)
  : list Path :=
  if root_is_file then [root]
  else filter (λ p, lower (suffix p) ∈ VIDEO_EXTS) walk.

(** A text of ASCII characters, on which [lower] is [str.lower()]. *)
Fixpoint is_ascii (s : string) : bool :=
  match s with
  | EmptyString => true
  | String a s' => (nat_of_ascii a <? 128)%nat && is_ascii s'
  end.

(** The rows that carry a verdict. *)
Definition rows_with (v : Verdict) (rows : list Row) : list Row :=
  filter (λ r, veredito r = v) rows.

(* ===================================================================== *)
(** ** More vocabulary *)
(* ===================================================================== *)

(** The chain live repair runs on a verdict, and its outcome when every
    step fails. *)
Definition repair_chain (v : Verdict) (path : Path)
    (inplace prefer_mkv : bool) (try_fps : list Z) : list Step :=
  match v with
  | WRAP => map (wrap_step WRAP path inplace prefer_mkv) try_fps
  | _ => fix_chain v path inplace prefer_mkv try_fps
  end.

Definition chain_failed (v : Verdict) : Outcome :=
  match v with
  | WRAP => wrap_failed WRAP
  | _ => reencode_failed v
  end.

(** A step of a side-by-side chain: its result stays where it was
    written. *)
Definition side_step (s : Step) : Prop :=
  ∃ v label, step_promote s = mret (v, label, str (step_dst s), None).

(** A string without a given character. *)
Fixpoint lacks (c : ascii) (s : string) : bool :=
  match s with
  | EmptyString => true
  | String a s' => negb (Ascii.eqb a c) && lacks c s'
  end.

(** What [main] reads in an outcome: [if "failed" in action] tells whether
    it prints the error, and the row has [err or ""]. An outcome is
    consistent when the action says "failed" exactly when there is an error
    text, and an error goes with no output path. *)
Definition outcome_consistent (o : Outcome) : Prop :=
  let '(_, action, outpath, err) := o in
  (contains "failed" action = true ↔ default "" err ≠ "")
  ∧ (default "" err ≠ "" → outpath = "").

Definition row_consistent (r : Row) : Prop :=
  (contains "failed" (acao r) = true ↔ erro r ≠ "")
  ∧ (erro r ≠ "" → saida r = "")
  ∧ (veredito r = OK → acao r = "none" ∧ saida r = "").

(** The actions that belong to a verdict: nothing for OK, the wrap and its
    failure for WRAP, the three repairs and their failure for FIX. *)
Definition action_family (v : Verdict) (action : string) : bool :=
  match v with
  | OK => String.eqb action "none"
  | WRAP => String.prefix "wrap" action
  | FIX => String.prefix "remux_mkv" action
           || String.prefix "mp4_faststart_timescale" action
           || String.prefix "reencode" action
  end.

(** A float that is not a number: it differs from itself. *)
Definition is_nan (x : float) : bool := negb (PrimFloat.eqb x x).

(** A file whose metadata and packets agree on ten seconds, with no bad
    combination. *)
Definition doc_mp4 : ProbeDoc :=
  mkDoc (Some (mkFormat (Some "10.0") (Some "mov,mp4,m4a,3gp,3g2,mj2") (Some "0.0")))
        (Some [mkStream (Some "video") (Some "h264") (Some "10.0")])
        false.

(** [float] of the sample host, which also reads [nan]. *)
Definition sample_float_nan (s : string) : option float :=
  if String.eqb s "nan" then Some PrimFloat.nan else sample_float s.

(** The sample host with that [float]. *)
Definition sample_host_nan (doc : option ProbeDoc) (lines : option (list string))
    (mux : list string → gmap string string → Z * option string) : Host :=
  mkHost (λ _ _, mkProc 0 "doc") (λ _ _, lines) mux (λ _, doc)
         sample_float_nan (λ _ _, "?").

(** A file whose container duration reads [nan]. *)
Definition doc_nan : ProbeDoc :=
  mkDoc (Some (mkFormat (Some "nan") (Some "avi") None))
        (Some [mkStream (Some "video") (Some "mpeg4") None])
        false.

(* ===================================================================== *)
(** * Properties *)
(* ===================================================================== *)

(** ** Strings and paths *)

Lemma append_nil (b : string) : "" +:+ b = b.
Proof. reflexivity. Qed.

Lemma append_cons (x : ascii) (a b : string) :
  String x a +:+ b = String x (a +:+ b).
Proof. reflexivity. Qed.

Lemma append_empty_r (s : string) : s +:+ "" = s.
Proof.
  induction s as [|c s IH]; rewrite ?append_nil, ?append_cons; [done|].
  by rewrite IH.
Qed.

Lemma append_inv_head (s a b : string) : s +:+ a = s +:+ b → a = b.
Proof.
  induction s as [|c s IH]; rewrite ?append_nil, ?append_cons; intros H; [done|].
  injection H. auto.
Qed.

Lemma append_assoc (a b c : string) : (a +:+ b) +:+ c = a +:+ (b +:+ c).
Proof.
  induction a as [|x a IH]; rewrite ?append_nil, ?append_cons; [done|].
  f_equal. exact IH.
Qed.

Lemma append_length (a b : string) :
  String.length (a +:+ b) = (String.length a + String.length b)%nat.
Proof.
  induction a as [|x a IH]; rewrite ?append_nil, ?append_cons; simpl; [done|].
  f_equal. exact IH.
Qed.

Lemma substring_whole (s : string) : String.substring 0 (String.length s) s = s.
Proof. induction s as [|a s IH]; simpl; [done|]. f_equal. exact IH. Qed.

Lemma substring_split (s : string) (i : nat) :
  (i ≤ String.length s)%nat →
  String.substring 0 i s +:+ String.substring i (String.length s - i) s = s.
Proof.
  revert i. induction s as [|a s IH]; intros [|i] Hi; simpl in *; try lia;
    rewrite ?append_nil, ?append_cons.
  - done.
  - by rewrite substring_whole.
  - rewrite IH; [done | lia].
Qed.

Lemma rfind_spec (c : ascii) (s : string) (i : nat) :
  rfind c s = Some i →
  (i < String.length s)%nat ∧
  ∃ t, String.substring i (String.length s - i) s = String c t.
Proof.
  revert i. induction s as [|a s IH]; intros i; simpl; [done|].
  destruct (rfind c s) as [j|] eqn:Hj.
  - intros [= <-]. destruct (IH j eq_refl) as [Hlt [t Ht]].
    split; [lia|]. exists t. exact Ht.
  - destruct (Ascii.eqb a c) eqn:Hac; [|done].
    intros [= <-]. apply Ascii.eqb_eq in Hac as ->.
    split; [lia|]. exists s. simpl. by rewrite substring_whole.
Qed.

Lemma suffix_index_spec (n : string) (i : nat) :
  suffix_index n = Some i →
  (i < String.length n)%nat ∧
  ∃ t, String.substring i (String.length n - i) n = String "." t.
Proof.
  unfold suffix_index. destruct (rfind "." n) as [j|] eqn:Hj; [|done].
  destruct (_ && _); [|done]. intros [= <-]. by apply rfind_spec.
Qed.

(** A name is its stem followed by its suffix. *)
Lemma stem_suffix (p : Path) : stem p +:+ suffix p = name p.
Proof.
  unfold stem, suffix. destruct (suffix_index (name p)) as [i|] eqn:Hi.
  - apply suffix_index_spec in Hi as [Hlt _]. apply substring_split. lia.
  - apply append_empty_r.
Qed.

(** A suffix is empty or starts with a dot. *)
Lemma suffix_shape (p : Path) : suffix p = "" ∨ ∃ t, suffix p = String "." t.
Proof.
  unfold suffix. destruct (suffix_index (name p)) as [i|] eqn:Hi; [|by left].
  right. apply suffix_index_spec in Hi as [_ Ht]. exact Ht.
Qed.

Lemma str_eq_name (d n1 n2 : string) :
  str (mkPath d n1) = str (mkPath d n2) → n1 = n2.
Proof. unfold str. simpl. intros H. by apply append_inv_head in H. Qed.

(** [sub in s] holds exactly when [s] is some text, [sub], some text. *)
Lemma prefix_spec (a s : string) :
  String.prefix a s = true ↔ ∃ post, s = a +:+ post.
Proof.
  revert s. induction a as [|x a IH]; intros [|y s]; cbn [String.prefix];
    rewrite ?append_nil, ?append_cons.
  - split; [|done]. intros _. by exists "".
  - split; [|done]. intros _. by exists (String y s).
  - split; [done|]. by intros [post ?].
  - destruct (Ascii.ascii_dec x y) as [->|Hne].
    + rewrite IH. split; intros [post H]; exists post.
      * by rewrite H.
      * by injection H.
    + split; [done|]. intros [post H]. injection H. intros _ ?. by subst.
Qed.

Lemma contains_spec (sub s : string) :
  contains sub s = true ↔ ∃ pre post, s = pre +:+ sub +:+ post.
Proof.
  induction s as [|y s IH].
  - change (contains sub "") with (String.prefix sub "" || false).
    rewrite orb_false_r, prefix_spec. split.
    + intros [post H]. by exists "", post.
    + intros [[|c pre] [post H]]; rewrite ?append_nil, ?append_cons in H;
        [by exists post | done].
  - change (contains sub (String y s))
      with (String.prefix sub (String y s) || contains sub s).
    rewrite orb_true_iff, IH, prefix_spec. split.
    + intros [[post H]|[pre [post H]]].
      * by exists "", post.
      * exists (String y pre), post. by rewrite append_cons, H.
    + intros [[|c pre] [post H]]; rewrite ?append_nil, ?append_cons in H.
      * left. by exists post.
      * right. injection H as -> H. by exists pre, post.
Qed.

(** ** Floats *)

Lemma SFcompare_Lt_swap (a b : spec_float) :
  SFcompare a b = Some Lt → SFcompare b a = Some Gt.
Proof.
  destruct a as [sa|sa| |sa ma ea], b as [sb|sb| |sb mb eb]; simpl;
    try discriminate; try (destruct sa; discriminate);
    try (destruct sb; discriminate);
    try (destruct sa, sb; (discriminate || reflexivity)).
  assert (Hm : PosDef.Pos.compare_cont Eq mb ma
               = CompOpp (PosDef.Pos.compare_cont Eq ma mb))
    by apply Pos.compare_antisym.
  destruct sa, sb; try (discriminate || reflexivity);
    rewrite (Z.compare_antisym ea eb), Hm;
    destruct (ea ?= eb); simpl; try (discriminate || reflexivity);
    destruct (PosDef.Pos.compare_cont Eq ma mb); simpl;
    (discriminate || reflexivity).
Qed.

(** [x < y] excludes [y <= x]. *)
Lemma ltb_leb_false (x y : float) :
  PrimFloat.ltb x y = true → PrimFloat.leb y x = false.
Proof.
  rewrite FloatAxioms.ltb_spec, FloatAxioms.leb_spec. unfold SFltb, SFleb.
  destruct (SFcompare (Prim2SF x) (Prim2SF y)) as [[]|] eqn:H; try discriminate.
  intros _. by rewrite (SFcompare_Lt_swap _ _ H).
Qed.

(** A float that is not [<= 0.001] is not zero. *)
Lemma not_small_nonzero (m : float) :
  PrimFloat.leb m 0.001%float = false → PrimFloat.eqb m 0%float = false.
Proof.
  rewrite FloatAxioms.leb_spec, FloatAxioms.eqb_spec.
  destruct (Prim2SF m) as [s|s| |s mm e]; intros H.
  - destruct s; vm_compute in H; discriminate.
  - by destruct s.
  - done.
  - by destruct s.
Qed.

(** The divisor of the divergence is never zero. *)
Lemma divergence_defined (x m : float) :
  PrimFloat.leb m 0.001%float = false →
  py_div x (py_max m 1e-6%float) = Ok (PrimFloat.div x (py_max m 1e-6%float)).
Proof.
  intros H. unfold py_div, py_max.
  destruct (PrimFloat.ltb m 1e-6%float).
  - reflexivity.
  - by rewrite (not_small_nonzero m H).
Qed.

Lemma usable_meta_Some (md : option float) (m : float) :
  usable_meta md = Some m ↔ md = Some m ∧ PrimFloat.leb m 0.001%float = false.
Proof.
  unfold usable_meta. destruct md as [x|].
  - destruct (PrimFloat.leb x 0.001%float) eqn:E; split.
    + discriminate.
    + intros [[= ->] H]. congruence.
    + intros [= ->]. by split.
    + by intros [[= ->] _].
  - split; [discriminate|]. by intros [? _].
Qed.

Lemma usable_meta_None (md : option float) :
  usable_meta md = None ↔
  md = None ∨ ∃ m, md = Some m ∧ PrimFloat.leb m 0.001%float = true.
Proof.
  unfold usable_meta. destruct md as [x|].
  - destruct (PrimFloat.leb x 0.001%float) eqn:E; split.
    + intros _. right. by exists x.
    + done.
    + discriminate.
    + intros [?|[m [[= ->] H]]]; [done | congruence].
  - split; [by left | done].
Qed.

Lemma usable_timeline_Some (fpts lpts : option float) (f l : float) :
  usable_timeline fpts lpts = Some (f, l) ↔
  fpts = Some f ∧ lpts = Some l ∧ PrimFloat.leb l f = false.
Proof.
  unfold usable_timeline. destruct fpts as [x|], lpts as [y|];
    try (split; [discriminate | by intros (? & ? & ?)]).
  destruct (PrimFloat.leb y x) eqn:E; split.
  - discriminate.
  - intros ([= ->] & [= ->] & H). congruence.
  - by intros [= -> ->].
  - by intros ([= ->] & [= ->] & _).
Qed.

Lemma usable_timeline_None (fpts lpts : option float) :
  usable_timeline fpts lpts = None ↔
  fpts = None ∨ lpts = None ∨
  ∃ f l, fpts = Some f ∧ lpts = Some l ∧ PrimFloat.leb l f = true.
Proof.
  unfold usable_timeline. destruct fpts as [x|], lpts as [y|];
    try (split; [intros _; tauto | done]).
  destruct (PrimFloat.leb y x) eqn:E; split.
  - intros _. right. right. by exists x, y.
  - done.
  - discriminate.
  - intros [?|[?|(f & l & [= ->] & [= ->] & H)]]; [done | done | congruence].
Qed.

(** A timeline whose two ends are one timestamp is unusable, unless that
    timestamp is not a number. *)
Lemma usable_timeline_same (v : float) :
  PrimFloat.eqb v v = true → usable_timeline (Some v) (Some v) = None.
Proof.
  unfold usable_timeline. rewrite FloatAxioms.eqb_spec, FloatAxioms.leb_spec.
  unfold SFeqb, SFleb.
  by destruct (SFcompare (Prim2SF v) (Prim2SF v)) as [[]|].
Qed.

(** And only then: a timestamp that is not a number is not [<=] itself, so
    the timeline it makes with itself passes for usable. *)
Lemma usable_timeline_same_iff (v : float) :
  usable_timeline (Some v) (Some v) = None ↔ PrimFloat.eqb v v = true.
Proof.
  unfold usable_timeline. rewrite FloatAxioms.eqb_spec, FloatAxioms.leb_spec.
  unfold SFeqb, SFleb.
  destruct (SFcompare (Prim2SF v) (Prim2SF v)) as [[]|] eqn:Hc; try done.
  apply SFcompare_Lt_swap in Hc as Hc'. congruence.
Qed.

(** ** The monad *)

Lemma bind_ok {A B : Type} (m : M A) (f : A → M B) (w w' : World) (a : A) :
  m w = (Ok a, w') → (m ≫= f) w = f a w'.
Proof. intros H. unfold mbind, M_bind. by rewrite H. Qed.

Lemma bind_raise {A B : Type} (m : M A) (f : A → M B) (w w' : World) (e : Exn) :
  m w = (Raise e, w') → (m ≫= f) w = (Raise e, w').
Proof. intros H. unfold mbind, M_bind. by rewrite H. Qed.

Lemma ret_eq {A : Type} (a : A) (w : World) : mret (M := M) a w = (Ok a, w).
Proof. reflexivity. Qed.

Lemma lift_eq {A : Type} (r : Res A) (w : World) : lift r w = (r, w).
Proof. reflexivity. Qed.

Section Probes.

Context (h : Host).

(** ** The probes read and never write *)

Lemma run_probe (cmd : list string) (w : World) :
  is_ffmpeg cmd = false →
  run h cmd w =
    (Ok (ffprobe_run h cmd (fs w)), mkWorld (fs w) (trace w ++ [EvProbe cmd])).
Proof. intros H. unfold run. by rewrite H. Qed.

Lemma run_repair (cmd : list string) (w : World) :
  is_ffmpeg cmd = true →
  run h cmd w =
    (Ok (mkProc (ffmpeg_run h cmd (fs w)).1 ""),
     mkWorld (written (List.last cmd "") (ffmpeg_run h cmd (fs w)).2 (fs w))
             (trace w ++ [EvRepair cmd (ffmpeg_run h cmd (fs w)).1
                                       (ffmpeg_run h cmd (fs w)).2])).
Proof.
  intros H. unfold run. rewrite H. by destruct (ffmpeg_run h cmd (fs w)).
Qed.

Lemma ffprobe_json_effect (path : Path) (w : World) :
  ∃ data, ffprobe_json h path w =
    (Ok data, mkWorld (fs w) (trace w ++ [EvProbe (ffprobe_json_cmd path)])).
Proof.
  unfold ffprobe_json.
  erewrite bind_ok; [|by apply run_probe].
  destruct (negb _); eexists; reflexivity.
Qed.

Lemma get_meta_effect (path : Path) (w : World) :
  ∃ r, get_meta h path w =
    (Ok r, mkWorld (fs w) (trace w ++ [EvProbe (ffprobe_json_cmd path)])).
Proof.
  destruct (ffprobe_json_effect path w) as [data Hd].
  unfold get_meta. erewrite bind_ok; [|exact Hd].
  destruct data as [data|]; [|eexists; reflexivity].
  destruct (doc_is_empty data); [eexists; reflexivity|].
  destruct (fold_left _ _ _). eexists; reflexivity.
Qed.

(** What the sampler returns, from the lines the packet lister printed. *)
Lemma get_packet_first_last_pts_eq (path : Path) (w : World) :
  get_packet_first_last_pts h path w =
    (Ok match ffprobe_popen h (packets_cmd path) (fs w) with
        | None => (None, None)
        | Some lines => fold_left (pts_step h) lines (None, None)
        end,
     mkWorld (fs w) (trace w ++ [EvProbe (packets_cmd path)])).
Proof.
  unfold get_packet_first_last_pts, popen, mbind, M_bind.
  by destruct (ffprobe_popen h (packets_cmd path) (fs w)).
Qed.

(** The verdict engine never raises: its divisor is never zero. *)
Lemma verdict_engine_total (tol : float) (md : option float)
    (c vc : option string) (f l : option float) :
  ∃ r, verdict_engine h tol md c vc f l = Ok r.
Proof.
  unfold verdict_engine.
  destruct (usable_meta md) as [m|] eqn:Hm.
  - destruct (usable_timeline f l) as [[f' l']|]; [|eexists; reflexivity].
    apply usable_meta_Some in Hm as [_ Hm].
    cbv zeta. rewrite (divergence_defined _ m Hm).
    destruct (_ || _); eexists; reflexivity.
  - destruct (usable_timeline f l) as [[f' l']|]; eexists; reflexivity.
Qed.

(** The verdict on a raw bitstream: nothing is asked of the host. *)
Lemma verdict_for_file_raw (path : Path) (tol : float) (w : World) :
  lower (suffix path) ∈ RAW_EXTS →
  verdict_for_file h path tol w =
    (Ok (WRAP,
         "Bitstream cru (" +:+ lower (suffix path) +:+ "); precisa contêiner + FPS.",
         {[ "ext" := VStr (lower (suffix path)) ]}),
     w).
Proof.
  intros Hraw. unfold verdict_for_file.
  by rewrite bool_decide_eq_true_2 by done.
Qed.

(** The verdict on a file that is not a raw bitstream, from the answers of
    the two probes. *)
Lemma verdict_for_file_probed (path : Path) (tol : float) (w w1 w2 : World)
    (md : option float) (c vc : option string) (stt : option float)
    (f l : option float) :
  lower (suffix path) ∉ RAW_EXTS →
  get_meta h path w = (Ok (md, c, vc, stt), w1) →
  get_packet_first_last_pts h path w1 = (Ok (f, l), w2) →
  verdict_for_file h path tol w = (verdict_engine h tol md c vc f l, w2).
Proof.
  intros Hraw Hm Hp. unfold verdict_for_file.
  rewrite bool_decide_eq_false_2 by done.
  erewrite bind_ok; [|exact Hm]. cbv beta iota.
  erewrite bind_ok; [|exact Hp]. reflexivity.
Qed.

(** The audit reads and never writes: it returns, the files are as before and
    the trace grew by probes only. *)
Lemma verdict_for_file_readonly (path : Path) (tol : float) (w : World) :
  ∃ r probes,
    verdict_for_file h path tol w = (Ok r, mkWorld (fs w) (trace w ++ probes))
    ∧ forallb is_probe probes = true.
Proof.
  destruct (decide (lower (suffix path) ∈ RAW_EXTS)) as [Hraw|Hraw].
  - rewrite verdict_for_file_raw by done.
    eexists _, []. rewrite app_nil_r. split; [|done]. by destruct w.
  - destruct (get_meta_effect path w) as [[[[md c] vc] stt] Hm].
    pose proof (get_packet_first_last_pts_eq path
      (mkWorld (fs w) (trace w ++ [EvProbe (ffprobe_json_cmd path)]))) as Hp.
    destruct (verdict_engine_total tol md c vc
      (match ffprobe_popen h (packets_cmd path) (fs w) with
       | None => (None, None)
       | Some lines => fold_left (pts_step h) lines (None, None)
       end).1
      (match ffprobe_popen h (packets_cmd path) (fs w) with
       | None => (None, None)
       | Some lines => fold_left (pts_step h) lines (None, None)
       end).2) as [r Hr].
    exists r, [EvProbe (ffprobe_json_cmd path); EvProbe (packets_cmd path)].
    split; [|done].
    erewrite verdict_for_file_probed; [|done|exact Hm|].
    2:{ rewrite Hp. simpl. by rewrite <- surjective_pairing. }
    rewrite Hr. simpl. by rewrite <- app_assoc.
Qed.

End Probes.

(* ===================================================================== *)
(** ** The packet timeline sampler *)
(* ===================================================================== *)

Section Sampler.

Context (h : Host).

Lemma pts_step_eq (a b : option float) (line : string) :
  pts_step h (a, b) line =
    match line_pts h line with
    | None => (a, b)
    | Some v => (match a with None => Some v | Some _ => a end, Some v)
    end.
Proof.
  unfold pts_step, line_pts. destruct (String.eqb (strip line) ""); [done|].
  by destruct (py_float h (strip line)).
Qed.

(** The loop keeps the first timestamp it parsed and the latest one. *)
Lemma fold_pts_step (lines : list string) (a b : option float) :
  fold_left (pts_step h) lines (a, b) =
    (match a with
     | Some _ => a
     | None => head (omap (line_pts h) lines)
     end,
     match last (omap (line_pts h) lines) with
     | Some v => Some v
     | None => b
     end).
Proof.
  revert a b. induction lines as [|line lines IH]; intros a b.
  - by destruct a.
  - cbn [fold_left]. rewrite pts_step_eq. cbn [omap list_omap].
    destruct (line_pts h line) as [v|].
    + rewrite IH. fold (omap (line_pts h) lines).
      rewrite last_cons. destruct a; simpl;
        by destruct (last (omap (line_pts h) lines)).
    + by rewrite IH.
Qed.

(** C10, as the code has it: the sampler returns, and its first timestamp
    is null exactly when its last one is; when exactly one line of the
    listing parses, both are that timestamp, and the timeline is then
    unusable for the verdict engine exactly when the timestamp is a number:
    a timestamp that is not a number is not [<=] itself, and passes the test
    [lpts <= fpts] of the engine. *)
Theorem sampler_first_null_iff_last_null (path : Path) (w : World) :
  ∃ first_pts last_pts w',
    get_packet_first_last_pts h path w = (Ok (first_pts, last_pts), w')
    ∧ (first_pts = None ↔ last_pts = None)
    ∧ (∀ lines v,
         ffprobe_popen h (packets_cmd path) (fs w) = Some lines →
         omap (line_pts h) lines = [v] →
         first_pts = Some v ∧ last_pts = Some v
         ∧ (usable_timeline first_pts last_pts = None
            ↔ PrimFloat.eqb v v = true)).
Proof.
  rewrite get_packet_first_last_pts_eq.
  destruct (ffprobe_popen h (packets_cmd path) (fs w)) as [lines|].
  - rewrite fold_pts_step. eexists _, _, _. split; [reflexivity|].
    split.
    + destruct (omap (line_pts h) lines) as [|v ts]; [done|].
      rewrite last_cons. simpl. by destruct (last ts).
    + intros ? v [= <-] ->. split; [done|]. split; [done|].
      apply usable_timeline_same_iff.
  - eexists _, _, _. split; [reflexivity|]. split; [done|]. done.
Qed.

End Sampler.

(** A listing with one timestamp among place holders: first and last are
    that timestamp, and the timeline is unusable. *)
Lemma sampler_single_timestamp :
  ∃ w',
    get_packet_first_last_pts
      (sample_host None (Some ["N/A"; " 12.5 "; ""]) mux_fails)
      (mkPath "d" "a.avi") sample_world
    = (Ok (Some 12.5%float, Some 12.5%float), w')
    ∧ usable_timeline (Some 12.5%float) (Some 12.5%float) = None.
Proof.
  destruct (sampler_first_null_iff_last_null
              (sample_host None (Some ["N/A"; " 12.5 "; ""]) mux_fails)
              (mkPath "d" "a.avi") sample_world)
    as (f & l & w' & Heq & _ & Hone).
  destruct (Hone ["N/A"; " 12.5 "; ""] 12.5%float eq_refl eq_refl)
    as (-> & -> & Hu).
  exists w'. split; [exact Heq|]. apply Hu. reflexivity.
Defined.

(** A listing whose one timestamp reads [nan], which [float] parses: first
    and last are that timestamp, and the timeline is usable. The claim that
    one parseable timestamp makes the timeline unusable downstream fails
    here: with no probed duration the verdict estimates a duration from the
    packets where it would say that there is no coherent timestamp. *)
Lemma nan_timestamp_is_a_usable_timeline :
  ∃ w1 extras w2,
    get_packet_first_last_pts
      (sample_host_nan None (Some ["nan"]) mux_fails)
      (mkPath "d" "a.avi") sample_world
    = (Ok (Some PrimFloat.nan, Some PrimFloat.nan), w1)
    ∧ omap (line_pts (sample_host_nan None (Some ["nan"]) mux_fails)) ["nan"]
      = [PrimFloat.nan]
    ∧ usable_timeline (Some PrimFloat.nan) (Some PrimFloat.nan)
      = Some (PrimFloat.nan, PrimFloat.nan)
    ∧ verdict_for_file (sample_host_nan None (Some ["nan"]) mux_fails)
        (mkPath "d" "a.avi") 0.2%float sample_world
      = (Ok (FIX, "Sem duração meta; pacotes sugerem ~?s.", extras), w2)
    ∧ is_Some (extras !! "pkt_duration").
Proof.
  eexists _, _, _. split; [vm_compute; reflexivity|].
  split; [vm_compute; reflexivity|]. split; [vm_compute; reflexivity|].
  split; [vm_compute; reflexivity|]. vm_compute. by eexists.
Qed.

(* ===================================================================== *)
(** ** The verdict engine *)
(* ===================================================================== *)

(** The bad combination, in words: the container holds "mpeg" and the video
    codec is h264 or hevc. *)
Lemma bad_combo_spec (container vcodec : option string) :
  bad_combo container vcodec = true ↔
  (∃ pre post, default "" container = pre +:+ "mpeg" +:+ post)
  ∧ (vcodec = Some "h264" ∨ vcodec = Some "hevc").
Proof.
  unfold bad_combo. rewrite andb_true_iff, contains_spec, bool_decide_eq_true.
  reflexivity.
Qed.

Lemma is_raw_true (path : Path) :
  is_raw path = true → lower (suffix path) ∈ RAW_EXTS.
Proof. apply bool_decide_eq_true_1. Qed.

Lemma is_raw_false (path : Path) :
  is_raw path = false → lower (suffix path) ∉ RAW_EXTS.
Proof. apply bool_decide_eq_false_1. Qed.

Section Engine.

Context (h : Host).

(** C2: a file whose lower-cased extension is a raw-bitstream extension gets
    WRAP whatever the host answers, and the world is left as it was: no
    probe ran and no packet was sampled. *)
Theorem raw_extension_wraps_unprobed (path : Path) (tol : float) (w : World) :
  lower (suffix path) ∈ RAW_EXTS →
  verdict_for_file h path tol w =
    (Ok (WRAP,
         "Bitstream cru (" +:+ lower (suffix path) +:+ "); precisa contêiner + FPS.",
         {[ "ext" := VStr (lower (suffix path)) ]}),
     w).
Proof.
  intros Hraw. unfold verdict_for_file.
  rewrite bool_decide_eq_true_2 by exact Hraw. reflexivity.
Qed.

(** C1: with a probed duration above 0.001 s and a usable packet timeline,
    the verdict is FIX exactly when the divergence exceeds the tolerance or
    the combination is bad, and OK otherwise; a bad combination forces FIX
    whatever the divergence. *)
Theorem verdict_fix_iff_diverges_or_bad_combo
    (path : Path) (t : float) (w w1 w2 : World)
    (metaDuration : float) (container vcodec : option string)
    (start_time : option float) (firstPts lastPts : float) :
  lower (suffix path) ∉ RAW_EXTS →
  get_meta h path w = (Ok (Some metaDuration, container, vcodec, start_time), w1) →
  get_packet_first_last_pts h path w1 = (Ok (Some firstPts, Some lastPts), w2) →
  PrimFloat.ltb 0.001%float metaDuration = true →
  PrimFloat.ltb firstPts lastPts = true →
  let packetDuration := py_max 0%float (PrimFloat.sub lastPts firstPts) in
  let divergence :=
    PrimFloat.div (PrimFloat.abs (PrimFloat.sub packetDuration metaDuration))
                  (py_max metaDuration 1e-6%float) in
  let badCombo := bad_combo container vcodec in
  ∃ verdict reason extras,
    verdict_for_file h path t w = (Ok (verdict, reason, extras), w2)
    ∧ verdict = (if PrimFloat.ltb t divergence || badCombo then FIX else OK)
    ∧ (verdict = FIX ↔ PrimFloat.ltb t divergence = true ∨ badCombo = true)
    ∧ (badCombo = true → verdict = FIX).
Proof.
  intros Hraw Hm Hp Hmeta Hpts pd dv bc.
  rewrite (verdict_for_file_probed h path t w w1 w2 _ _ _ _ _ _ Hraw Hm Hp).
  unfold verdict_engine, usable_meta, usable_timeline.
  rewrite (ltb_leb_false _ _ Hmeta), (ltb_leb_false _ _ Hpts). cbv zeta.
  rewrite (divergence_defined _ _ (ltb_leb_false _ _ Hmeta)).
  fold pd. fold dv. fold bc.
  destruct (PrimFloat.ltb t dv) eqn:Hd, bc eqn:Hb; simpl;
    eexists _, _, _; (split; [reflexivity|]); (split; [reflexivity|]);
    split; try done; try tauto.
  split; [done | by intros [?|?]].
Qed.

(** C8: with no probed duration, or one of at most 0.001 s, the verdict on a
    file that is not a raw bitstream is FIX; the reason says that no duration
    is usable when the timeline is unusable, and carries the estimate
    [lastPts - firstPts] otherwise. *)
Theorem verdict_fix_without_duration
    (path : Path) (tol : float) (w w1 w2 : World)
    (meta_dur : option float) (container vcodec : option string)
    (start_time : option float) (fpts lpts : option float) :
  lower (suffix path) ∉ RAW_EXTS →
  get_meta h path w = (Ok (meta_dur, container, vcodec, start_time), w1) →
  get_packet_first_last_pts h path w1 = (Ok (fpts, lpts), w2) →
  (meta_dur = None ∨
   ∃ m, meta_dur = Some m ∧ PrimFloat.leb m 0.001%float = true) →
  ∃ reason extras,
    verdict_for_file h path tol w = (Ok (FIX, reason, extras), w2)
    ∧ reason =
        match fpts, lpts with
        | Some f, Some l =>
            if PrimFloat.leb l f
            then "Sem duração meta e sem pts_time coerente."
            else "Sem duração meta; pacotes sugerem ~" +:+
                 format_f h 3 (PrimFloat.sub l f) +:+ "s."
        | _, _ => "Sem duração meta e sem pts_time coerente."
        end.
Proof.
  intros Hraw Hm Hp Hnone.
  rewrite (verdict_for_file_probed h path tol w w1 w2 _ _ _ _ _ _ Hraw Hm Hp).
  apply usable_meta_None in Hnone. unfold verdict_engine. rewrite Hnone.
  unfold usable_timeline.
  destruct fpts as [f|], lpts as [l|]; try (eexists _, _; split; reflexivity).
  destruct (PrimFloat.leb l f); eexists _, _; split; reflexivity.
Qed.

(** What the payload of the engine binds. *)
Lemma verdict_engine_payload (tol : float) (md : option float)
    (c vc : option string) (f l : option float) :
  ∃ verdict reason extras,
    verdict_engine h tol md c vc f l = Ok (verdict, reason, extras)
    ∧ extras !! "container" = Some (val_of_str c)
    ∧ extras !! "vcodec" = Some (val_of_str vc)
    ∧ extras !! "meta_duration" = VFloat <$> usable_meta md
    ∧ extras !! "pkt_duration" =
        (λ '(f, l),
           VFloat (match usable_meta md with
                   | Some _ => py_max 0%float (PrimFloat.sub l f)
                   | None => PrimFloat.sub l f
                   end)) <$> usable_timeline f l
    ∧ extras !! "ext" = None.
Proof.
  unfold verdict_engine.
  destruct (usable_meta md) as [m|] eqn:Em.
  - destruct (usable_timeline f l) as [[f' l']|].
    + apply usable_meta_Some in Em as [_ Em]. cbv zeta.
      rewrite (divergence_defined _ m Em).
      destruct (_ || _); eexists _, _, _;
        repeat (split; [reflexivity|]); reflexivity.
    + eexists _, _, _; repeat (split; [reflexivity|]); reflexivity.
  - destruct (usable_timeline f l) as [[f' l']|];
      eexists _, _, _; repeat (split; [reflexivity|]); reflexivity.
Qed.

(** C7, as the code has it: on a file that is not a raw bitstream every
    branch returns a payload that binds [container] and [vcodec] to the
    answers of the probe, [meta_duration] exactly when the probed duration is
    usable and [pkt_duration] exactly when the timeline is; on a raw
    bitstream the payload binds [ext] and nothing else. *)
Theorem payload_of_each_branch (path : Path) (tol : float) (w : World) :
  (lower (suffix path) ∈ RAW_EXTS →
   ∃ reason,
     verdict_for_file h path tol w =
       (Ok (WRAP, reason, {[ "ext" := VStr (lower (suffix path)) ]}), w))
  ∧ (lower (suffix path) ∉ RAW_EXTS →
     ∃ meta_dur container vcodec start_time w1 fpts lpts w2 verdict reason extras,
       get_meta h path w = (Ok (meta_dur, container, vcodec, start_time), w1)
       ∧ get_packet_first_last_pts h path w1 = (Ok (fpts, lpts), w2)
       ∧ verdict_for_file h path tol w = (Ok (verdict, reason, extras), w2)
       ∧ extras !! "container" = Some (val_of_str container)
       ∧ extras !! "vcodec" = Some (val_of_str vcodec)
       ∧ extras !! "meta_duration" = VFloat <$> usable_meta meta_dur
       ∧ extras !! "pkt_duration" =
           (λ '(f, l),
              VFloat (match usable_meta meta_dur with
                      | Some _ => py_max 0%float (PrimFloat.sub l f)
                      | None => PrimFloat.sub l f
                      end)) <$> usable_timeline fpts lpts
       ∧ extras !! "ext" = None).
Proof.
  split; intros Hraw.
  - eexists. by apply verdict_for_file_raw.
  - destruct (get_meta_effect h path w) as [[[[md c] vc] stt] Hm].
    pose proof (get_packet_first_last_pts_eq h path
      (mkWorld (fs w) (trace w ++ [EvProbe (ffprobe_json_cmd path)]))) as Hp.
    destruct (match ffprobe_popen h _ _ with
              | None => _ | Some lines => _ end) as [f l] in Hp.
    destruct (verdict_engine_payload tol md c vc f l)
      as (v & reason & extras & Hv & Hlook).
    eexists md, c, vc, stt, _, f, l, _, v, reason, extras.
    split; [exact Hm|]. split; [exact Hp|]. split; [|exact Hlook].
    rewrite (verdict_for_file_probed h path tol _ _ _ _ _ _ _ _ _ Hraw Hm Hp).
    by rewrite Hv.
Qed.

End Engine.

(** *** The engine on the sample host *)

(** A transport stream with h264 whose two durations agree is still FIX: the
    bad combination overrides the agreement. *)
Lemma bad_combo_overrides_agreement :
  ∃ reason extras w2,
    verdict_for_file (sample_host (Some doc_mpegts) (Some ["0.0"; "10.0"]) mux_fails)
      (mkPath "d" "a.ts") 0.2%float sample_world
    = (Ok (FIX, reason, extras), w2).
Proof.
  destruct (verdict_fix_iff_diverges_or_bad_combo
               (sample_host (Some doc_mpegts) (Some ["0.0"; "10.0"]) mux_fails)
               (mkPath "d" "a.ts") 0.2%float sample_world
               (after_meta (mkPath "d" "a.ts") sample_world)
               (after_probes (mkPath "d" "a.ts") sample_world)
               10%float (Some "mpegts") (Some "h264") (Some 0%float)
               0%float 10%float)
    as (v & reason & extras & Heq & _ & _ & Hbad).
  - apply is_raw_false. vm_compute. reflexivity.
  - vm_compute. reflexivity.
  - vm_compute. reflexivity.
  - vm_compute. reflexivity.
  - vm_compute. reflexivity.
  - rewrite (Hbad eq_refl) in Heq. exists reason, extras. eexists. exact Heq.
Defined.

(** A camera dump [cam.DAV] is wrapped, and nothing was probed. *)
Lemma raw_dump_wraps :
  ∃ reason extras,
    verdict_for_file (sample_host (Some doc_mpegts) (Some ["0.0"; "10.0"]) mux_fails)
      (mkPath "d" "cam.DAV") 0.2%float sample_world
    = (Ok (WRAP, reason, extras), sample_world).
Proof.
  eexists _, _.
  apply (raw_extension_wraps_unprobed
           (sample_host (Some doc_mpegts) (Some ["0.0"; "10.0"]) mux_fails)
           (mkPath "d" "cam.DAV") 0.2%float sample_world).
  apply is_raw_true. vm_compute. reflexivity.
Defined.

(** A file the probe knows nothing about, with a listing of place holders,
    is FIX for want of any duration. *)
Lemma no_duration_at_all :
  ∃ extras w2,
    verdict_for_file (sample_host None (Some ["N/A"; "N/A"]) mux_fails)
      (mkPath "d" "a.avi") 0.2%float sample_world
    = (Ok (FIX, "Sem duração meta e sem pts_time coerente.", extras), w2).
Proof.
  destruct (verdict_fix_without_duration
               (sample_host None (Some ["N/A"; "N/A"]) mux_fails)
               (mkPath "d" "a.avi") 0.2%float sample_world
               (after_meta (mkPath "d" "a.avi") sample_world)
               (after_probes (mkPath "d" "a.avi") sample_world)
               None None None None None None)
    as (reason & extras & Heq & Hreason).
  - apply is_raw_false. vm_compute. reflexivity.
  - vm_compute. reflexivity.
  - vm_compute. reflexivity.
  - by left.
  - rewrite Hreason in Heq. eexists _, _. exact Heq.
Defined.

(** The payload of the WRAP branch holds neither the container nor the
    codec: the claim that every branch returns them fails on [cam.h264]. *)
Lemma wrap_payload_lacks_container :
  ∃ reason extras w',
    verdict_for_file (sample_host (Some doc_mpegts) (Some ["0.0"; "10.0"]) mux_fails)
      (mkPath "d" "cam.h264") 0.2%float sample_world
    = (Ok (WRAP, reason, extras), w')
    ∧ extras !! "container" = None
    ∧ extras !! "vcodec" = None.
Proof. eexists _, _, _. split; [vm_compute; reflexivity|]. by vm_compute. Qed.

(** Both halves of the payload property, on the sample host. *)
Lemma payload_on_samples :
  (∃ reason,
     verdict_for_file (sample_host (Some doc_mpegts) (Some ["0.0"; "10.0"]) mux_fails)
       (mkPath "d" "cam.h264") 0.2%float sample_world
     = (Ok (WRAP, reason, {[ "ext" := VStr ".h264" ]}), sample_world))
  ∧ (∃ verdict reason extras w2,
       verdict_for_file (sample_host (Some doc_mpegts) (Some ["0.0"; "10.0"]) mux_fails)
         (mkPath "d" "a.ts") 0.2%float sample_world
       = (Ok (verdict, reason, extras), w2)
       ∧ extras !! "container" = Some (VStr "mpegts")
       ∧ extras !! "vcodec" = Some (VStr "h264")).
Proof.
  split.
  - apply (proj1 (payload_of_each_branch
                    (sample_host (Some doc_mpegts) (Some ["0.0"; "10.0"]) mux_fails)
                    (mkPath "d" "cam.h264") 0.2%float sample_world)).
    apply is_raw_true. vm_compute. reflexivity.
  - destruct (proj2 (payload_of_each_branch
                    (sample_host (Some doc_mpegts) (Some ["0.0"; "10.0"]) mux_fails)
                    (mkPath "d" "a.ts") 0.2%float sample_world))
      as (md & c & vc & stt & w1 & f & l & w2 & v & reason & extras
          & Hm & Hp & Hv & Hc & Hvc & _).
    + apply is_raw_false. vm_compute. reflexivity.
    + vm_compute in Hm. injection Hm as <- <- <- <- <-.
      exists v, reason, extras, w2. by repeat split.
Defined.

(* ===================================================================== *)
(** ** The metadata probe *)
(* ===================================================================== *)

Section Meta.

Context (h : Host).

(** The loop over the streams leaves a duration it already has alone, and
    otherwise stops at the first stream that reports a positive one. *)
Lemma fold_stream_step_duration (streams : list Stream)
    (vcodec : option string) (dur : option float) :
  (fold_left (stream_step h) streams (vcodec, dur)).2 =
    match dur with
    | Some d => Some d
    | None => head (stream_durations h streams)
    end.
Proof.
  revert vcodec dur. induction streams as [|st streams IH]; intros vcodec dur.
  - by destruct dur.
  - cbn [fold_left]. unfold stream_step at 2. rewrite IH.
    unfold stream_durations. cbn [omap list_omap].
    destruct dur as [d|]; [done|].
    destruct (st_duration st) as [sd|]; simpl; [|done].
    destruct (py_float h sd) as [sv|]; simpl; [|done].
    by destruct (PrimFloat.ltb 0%float sv).
Qed.

(** The duration [get_meta] resolves: the container's when it is there and
    parses, otherwise the first positive duration among the streams. *)
Theorem resolved_duration_is_container_or_first_stream (path : Path) (w w1 : World) (doc : ProbeDoc) :
  ffprobe_json h path w = (Ok (Some doc), w1) →
  doc_is_empty doc = false →
  ∃ container vcodec start_time,
    get_meta h path w =
      (Ok (match fmt_duration (default empty_format (doc_format doc))
                   ≫= py_float h with
           | Some d => Some d
           | None => head (stream_durations h (default [] (doc_streams doc)))
           end, container, vcodec, start_time), w1).
Proof.
  intros Hj Hne. unfold get_meta. erewrite bind_ok; [|exact Hj].
  cbv beta iota. rewrite Hne.
  pose proof (fold_stream_step_duration (default [] (doc_streams doc)) None
    (match fmt_duration (default empty_format (doc_format doc)) with
     | Some d => py_float h d
     | None => None
     end)) as Hd.
  destruct (fold_left _ _ _) as [vc d]. simpl in Hd. subst d.
  eexists _, vc, _. rewrite ret_eq. repeat f_equal.
Qed.

End Meta.

(** C5, at the input on which the code departs from it: with no container
    duration and streams of 5 s and of 10 s, [get_meta] resolves 5 s, the
    first positive stream duration, where the maximum is 10 s. The update
    [max(dur, sv)] sits under [if dur is None] and is never reached. *)
Theorem stream_fallback_keeps_first_duration :
  stream_durations (sample_host (Some doc_two_streams) None mux_fails)
    (default [] (doc_streams doc_two_streams)) = [5%float; 10%float]
  ∧ ∃ container vcodec start_time w',
      get_meta (sample_host (Some doc_two_streams) None mux_fails)
        (mkPath "d" "a.avi") sample_world
      = (Ok (Some 5%float, container, vcodec, start_time), w').
Proof.
  split; [reflexivity|]. eexists _, _, _, _. vm_compute. reflexivity.
Qed.

(* ===================================================================== *)
(** ** The repair strategies *)
(* ===================================================================== *)

Lemma bind_ext {A B : Type} (m : M A) (f g : A → M B) (w : World) :
  (∀ a w', f a w' = g a w') → (m ≫= f) w = (m ≫= g) w.
Proof.
  intros H. unfold mbind, M_bind. destruct (m w) as [[a|e] w']; [apply H|done].
Qed.

Lemma written_lookup (dst : string) (out : option string)
    (files : gmap string string) :
  written dst out files !! dst = out.
Proof.
  destruct out; simpl; [apply lookup_insert_eq | apply lookup_delete_eq].
Qed.

Lemma written_lookup_ne (dst p : string) (out : option string)
    (files : gmap string string) :
  dst ≠ p → written dst out files !! p = files !! p.
Proof.
  intros H. destruct out; simpl;
    [by apply lookup_insert_ne | by apply lookup_delete_ne].
Qed.

Section Strategies.

Context (h : Host).

(** One attempt: it returns, the world holds what [ffmpeg] left, and the
    answer is the success criterion read off the event. *)
Lemma attempt_eq (cmd : list string) (dst : Path) (w : World) :
  is_ffmpeg cmd = true →
  List.last cmd "" = str dst →
  attempt h cmd dst w =
    (Ok (event_ok (repair_event h cmd w)), attempted h cmd w).
Proof.
  intros Hf Hl. unfold attempt, ensure_parent.
  erewrite bind_ok; [|apply ret_eq].
  erewrite bind_ok; [|by apply run_repair].
  unfold attempted, repair_event, event_ok.
  destruct (ffmpeg_run h cmd (fs w)) as [rc out]. cbn [fst snd returncode].
  destruct (rc =? 0) eqn:Hrc; cbn [negb andb].
  2:{ rewrite ret_eq. by destruct out. }
  unfold exists_, st_size, mbind, M_bind. cbn [fs].
  rewrite <- Hl, written_lookup.
  destruct out as [c|]; cbn [negb]; [|by rewrite bool_decide_eq_false_2 by (by intros [? ?])].
  rewrite bool_decide_eq_true_2 by eauto. cbn [negb fs].
  rewrite written_lookup. reflexivity.
Qed.

Lemma event_ok_criterion (cmd : list string) (dst : Path) (w : World) :
  List.last cmd "" = str dst →
  event_ok (repair_event h cmd w) = true ↔
  success_criterion (ffmpeg_run h cmd (fs w)).1 (fs (attempted h cmd w)) dst.
Proof.
  intros Hl. unfold success_criterion, attempted, repair_event, event_ok.
  cbn [fs]. rewrite <- Hl, written_lookup.
  destruct (ffmpeg_run h cmd (fs w)) as [rc out]. cbn [fst snd].
  destruct out as [c|].
  - rewrite andb_true_iff, Z.eqb_eq, Z.ltb_lt. split.
    + intros [-> Hc]. split; [done|]. exists c. split; [done | lia].
    + intros [-> (c' & [= <-] & Hc)]. split; [done | lia].
  - split; [done|]. by intros [_ (c & ? & _)].
Qed.

Lemma reencode_cmd_wf (src dst : Path) (out_mkv : bool) (fps_in : option Z) :
  is_ffmpeg (reencode_cmd src dst out_mkv fps_in) = true
  ∧ List.last (reencode_cmd src dst out_mkv fps_in) "" = str dst.
Proof.
  unfold reencode_cmd. by destruct (fps_hint fps_in), out_mkv.
Qed.

(** C4: each of the four strategies returns, and reports success exactly
    when the process exited with status zero and its destination exists with
    a size greater than zero. *)
Theorem strategies_report_success_criterion
    (src dst : Path) (fps : Z) (out_mkv : bool) (fps_in : option Z) (w : World) :
  let reports (strategy : M bool) (cmd : list string) : Prop :=
    ∃ ok w',
      strategy w = (Ok ok, w')
      ∧ fs w' = written (str dst) (ffmpeg_run h cmd (fs w)).2 (fs w)
      ∧ trace w' = trace w ++ [EvRepair cmd (ffmpeg_run h cmd (fs w)).1
                                            (ffmpeg_run h cmd (fs w)).2]
      ∧ (ok = true ↔ success_criterion (ffmpeg_run h cmd (fs w)).1 (fs w') dst) in
  reports (wrap_raw h src dst fps) (wrap_cmd src dst fps)
  ∧ reports (remux_to_mkv h src dst) (remux_cmd src dst)
  ∧ reports (mp4_faststart_timescale h src dst) (faststart_cmd src dst)
  ∧ reports (reencode_cfr h src dst out_mkv fps_in)
            (reencode_cmd src dst out_mkv fps_in).
Proof.
  intros reports.
  assert (Hgen : ∀ cmd, is_ffmpeg cmd = true → List.last cmd "" = str dst →
                        reports (attempt h cmd dst) cmd).
  { intros cmd Hf Hl. exists (event_ok (repair_event h cmd w)), (attempted h cmd w).
    split; [by apply attempt_eq|]. split; [by unfold attempted; rewrite Hl|].
    split; [done|]. by apply event_ok_criterion. }
  split; [|split; [|split]].
  - by apply (Hgen (wrap_cmd src dst fps)).
  - by apply (Hgen (remux_cmd src dst)).
  - by apply (Hgen (faststart_cmd src dst)).
  - apply (Hgen (reencode_cmd src dst out_mkv fps_in)); apply reencode_cmd_wf.
Qed.

End Strategies.

(* ===================================================================== *)
(** ** The pipeline per file *)
(* ===================================================================== *)

Section Pipeline.

Context (h : Host).

(** The two lines that name the output of a strategy. *)
Lemma tmp_binds {B : Type} (path : Path) (inplace : bool) (a b : string)
    (k : Path → M B) (w : World) :
  name path ≠ "" →
  ((if inplace then mret path else lift (with_name path a)) ≫= λ dst,
   (if negb inplace then mret dst else lift (with_name path b)) ≫= k) w
  = k (sibling path (if inplace then b else a)) w.
Proof.
  intros Hn. unfold with_name. rewrite !decide_False by done.
  by destruct inplace.
Qed.

(** C9: on a file classified OK, and on every file under dry-run, the
    pipeline returns "none" (OK) or "planned" with an empty output path and
    no error; the turn of [main] reports "none"; the file system is as it
    was and the trace grew by probes only: no repair ran and no file was
    created, renamed or deleted. *)
Theorem ok_and_dry_run_leave_files_alone
    (path : Path) (try_fps : list Z) (dry_run inplace prefer_mkv : bool)
    (tol : float) (w w1 : World)
    (verdict : Verdict) (reason : string) (extras : gmap string PyVal) :
  verdict_for_file h path tol w = (Ok (verdict, reason, extras), w1) →
  verdict = OK ∨ dry_run = true →
  process_one h path try_fps dry_run inplace prefer_mkv tol w
    = (Ok (verdict, if decide (verdict = OK) then "none" else "planned", "", None),
       w1)
  ∧ main_loop_body h path tol try_fps dry_run inplace prefer_mkv w
    = (Ok (mkRow (str path) verdict reason "none" "" ""), w1)
  ∧ fs w1 = fs w
  ∧ ∃ probes, trace w1 = trace w ++ probes ∧ forallb is_probe probes = true.
Proof.
  intros Hv Hcase. split; [|split].
  - unfold process_one. erewrite bind_ok; [|exact Hv]. cbv beta iota zeta.
    destruct (decide (verdict = OK)); [done|].
    destruct Hcase as [?| ->]; done.
  - unfold main_loop_body. erewrite bind_ok; [|exact Hv]. cbv beta iota.
    destruct Hcase as [-> | ->]; [done|]. by rewrite andb_false_r.
  - destruct (verdict_for_file_readonly h path tol w) as (r & probes & Hr & Hp).
    rewrite Hv in Hr. injection Hr as _ ->. eauto.
Qed.

(** *** The loops are chains *)

Lemma reencode_loop_chain (verdict : Verdict) (path : Path)
    (inplace prefer_mkv : bool) (fpss : list (option Z)) (w : World) :
  name path ≠ "" →
  reencode_loop h verdict path inplace prefer_mkv (ext_out_of prefer_mkv) fpss w
  = run_chain h (reencode_failed verdict)
      (map (reencode_step verdict path inplace prefer_mkv) fpss) w.
Proof.
  intros Hn. revert w. induction fpss as [|fps_in rest IH]; intros w; [done|].
  cbn [reencode_loop map run_chain]. rewrite tmp_binds by done.
  apply bind_ext. intros [|] w'; [|apply IH].
  unfold reencode_step, step_promote, promote. by destruct inplace.
Qed.

Lemma wrap_loop_chain (verdict : Verdict) (path : Path)
    (inplace prefer_mkv : bool) (try_fps : list Z) (w : World) :
  name path ≠ "" →
  wrap_loop h verdict path inplace (ext_out_of prefer_mkv) try_fps w
  = run_chain h (wrap_failed verdict)
      (map (wrap_step verdict path inplace prefer_mkv) try_fps) w.
Proof.
  intros Hn. revert w. induction try_fps as [|fps rest IH]; intros w; [done|].
  cbn [wrap_loop map run_chain]. rewrite tmp_binds by done.
  apply bind_ext. intros [|] w'; [|apply IH].
  unfold wrap_step, step_promote, promote. by destruct inplace.
Qed.

(** Live repair on FIX is the FIX chain run after the audit. *)
Lemma process_one_fix_chain (path : Path) (try_fps : list Z)
    (inplace prefer_mkv : bool) (tol : float) (w w1 : World)
    (reason : string) (extras : gmap string PyVal) :
  name path ≠ "" →
  verdict_for_file h path tol w = (Ok (FIX, reason, extras), w1) →
  process_one h path try_fps false inplace prefer_mkv tol w
  = run_chain h (reencode_failed FIX)
      (fix_chain FIX path inplace prefer_mkv try_fps) w1.
Proof.
  intros Hn Hv. unfold process_one. erewrite bind_ok; [|exact Hv].
  cbv beta iota zeta. rewrite !decide_False by done.
  rewrite tmp_binds by done. unfold fix_chain. cbn [run_chain].
  apply bind_ext. intros [|] w'.
  { unfold step_promote, promote. by destruct inplace. }
  rewrite tmp_binds by done.
  apply bind_ext. intros [|] w''.
  { unfold step_promote, promote. by destruct inplace. }
  by apply (reencode_loop_chain FIX path inplace prefer_mkv (None :: map Some try_fps)).
Qed.

(** Live repair on WRAP is the WRAP chain. *)
Lemma process_one_wrap_chain (path : Path) (try_fps : list Z)
    (inplace prefer_mkv : bool) (tol : float) (w w1 : World)
    (reason : string) (extras : gmap string PyVal) :
  name path ≠ "" →
  verdict_for_file h path tol w = (Ok (WRAP, reason, extras), w1) →
  process_one h path try_fps false inplace prefer_mkv tol w
  = run_chain h (wrap_failed WRAP)
      (map (wrap_step WRAP path inplace prefer_mkv) try_fps) w1.
Proof.
  intros Hn Hv. unfold process_one. erewrite bind_ok; [|exact Hv].
  cbv beta iota zeta. rewrite decide_False by done.
  rewrite decide_True by done. by apply wrap_loop_chain.
Qed.

End Pipeline.

(** Under dry-run a file that needs fixing is planned, not touched. *)
Lemma dry_run_only_plans :
  process_one (sample_host None None mux_works) (mkPath "d" "a.avi")
    [25; 30] true true false 0.2%float sample_world
    = (Ok (FIX, if decide (FIX = OK) then "none" else "planned", "", None),
       after_probes (mkPath "d" "a.avi") sample_world)
  ∧ main_loop_body (sample_host None None mux_works) (mkPath "d" "a.avi")
      0.2%float [25; 30] true true false sample_world
    = (Ok (mkRow (str (mkPath "d" "a.avi")) FIX
                 "Sem duração meta e sem pts_time coerente." "none" "" ""),
       after_probes (mkPath "d" "a.avi") sample_world)
  ∧ fs (after_probes (mkPath "d" "a.avi") sample_world) = fs sample_world
  ∧ ∃ probes,
      trace (after_probes (mkPath "d" "a.avi") sample_world)
      = trace sample_world ++ probes
      ∧ forallb is_probe probes = true.
Proof.
  eapply (ok_and_dry_run_leave_files_alone (sample_host None None mux_works)
            (mkPath "d" "a.avi") [25; 30] true true false 0.2%float
            sample_world).
  - vm_compute. reflexivity.
  - by right.
Defined.

(* ===================================================================== *)
(** ** Chains: order, short circuit, exhaustion *)
(* ===================================================================== *)

(** *** Quiet computations *)

Lemma quiet_ret {A : Type} (a : A) : quiet (mret a).
Proof. intros w. exists []. by rewrite app_nil_r. Qed.

Lemma quiet_lift {A : Type} (r : Res A) : quiet (lift r).
Proof. intros w. exists []. by rewrite app_nil_r. Qed.

Lemma quiet_bind {A B : Type} (m : M A) (f : A → M B) :
  quiet m → (∀ a, quiet (f a)) → quiet (m ≫= f).
Proof.
  intros Hm Hf w. destruct (Hm w) as (e1 & H1 & F1).
  unfold mbind, M_bind. destruct (m w) as [[a|e] w1]; simpl in *.
  - destruct (Hf a w1) as (e2 & H2 & F2). exists (e1 ++ e2).
    rewrite H2, H1, app_assoc. split; [done|].
    rewrite forallb_app. by rewrite F1, F2.
  - by exists e1.
Qed.

Lemma quiet_try_pass (m : M unit) : quiet m → quiet (try_pass m).
Proof.
  intros Hm w. destruct (Hm w) as (e1 & H1 & F1). unfold try_pass.
  destruct (m w) as [[a|e] w1]; by exists e1.
Qed.

Lemma quiet_unlink (p : Path) : quiet (unlink p).
Proof.
  intros w. unfold unlink. destruct (fs w !! str p).
  - by exists [EvUnlink (str p)].
  - exists []. by rewrite app_nil_r.
Qed.

Lemma quiet_rename (src dst : Path) : quiet (rename src dst).
Proof.
  intros w. unfold rename. destruct (fs w !! str src).
  - by exists [EvRename (str src) (str dst)].
  - exists []. by rewrite app_nil_r.
Qed.

Lemma quiet_swap_inplace (path tmp : Path) (target : Res Path) :
  quiet (swap_inplace path tmp target).
Proof.
  unfold swap_inplace.
  apply quiet_bind; [apply quiet_lift|]. intros bak.
  apply quiet_bind; [apply quiet_try_pass, quiet_unlink|]. intros _.
  apply quiet_bind; [apply quiet_rename|]. intros _.
  apply quiet_bind; [apply quiet_lift|]. intros final.
  apply quiet_bind; [apply quiet_rename|]. intros _. apply quiet_ret.
Qed.

Lemma quiet_promote (verdict : Verdict) (path tmp : Path) (inplace : bool)
    (target : Res Path) (li l : string) :
  quiet (promote verdict path tmp inplace target li l).
Proof.
  unfold promote. destruct inplace; [|apply quiet_ret].
  apply quiet_bind; [apply quiet_swap_inplace|]. intros final. apply quiet_ret.
Qed.

Lemma promote_not_failed (verdict : Verdict) (path tmp : Path) (inplace : bool)
    (target : Res Path) (li l : string) (w : World) :
  outcome_failed (promote verdict path tmp inplace target li l w).1 = false.
Proof.
  unfold promote. destruct inplace; [|done].
  unfold mbind, M_bind. by destruct (swap_inplace path tmp target w) as [[f|e] w'].
Qed.

Section Chain.

Context (h : Host).

(** A chain either stops at its first success, every step before it having
    failed, or runs out with every step failed. *)
Lemma run_chain_cases (failed : Outcome) (plan : list Step) (w : World) :
  Forall step_wf plan →
  (∃ pre s post wk,
     plan = pre ++ s :: post
     ∧ all_failed h pre w wk
     ∧ event_ok (repair_event h (step_cmd s) wk) = true
     ∧ run_chain h failed plan w = step_promote s (attempted h (step_cmd s) wk))
  ∨ (∃ wk, all_failed h plan w wk ∧ run_chain h failed plan w = (Ok failed, wk)).
Proof.
  intros Hwf. revert w. induction Hwf as [|s rest [Hf Hl] _ IH]; intros w.
  - right. exists w. split; [constructor | done].
  - cbn [run_chain].
    erewrite bind_ok; [|by apply attempt_eq].
    destruct (event_ok (repair_event h (step_cmd s) w)) eqn:Hok.
    + left. exists [], s, rest, w. split; [done|]. split; [constructor|]. done.
    + destruct (IH (attempted h (step_cmd s) w))
        as [(pre & s' & post & wk & -> & Hpre & Hs & Hrun)|(wk & Hall & Hrun)].
      * left. exists (s :: pre), s', post, wk. split; [done|].
        split; [by constructor|]. done.
      * right. exists wk. split; [by constructor|]. done.
Qed.

Lemma all_failed_trace (ss : list Step) (w w' : World) :
  all_failed h ss w w' →
  ∃ evs,
    trace w' = trace w ++ evs
    ∧ map event_cmd evs = map step_cmd ss
    ∧ forallb is_repair evs = true
    ∧ Forall (λ e, event_ok e = false) evs.
Proof.
  induction 1 as [w|s rest w w' Hfail _ IH].
  - exists []. by rewrite app_nil_r.
  - destruct IH as (evs & Ht & Hc & Hr & Hk).
    exists (repair_event h (step_cmd s) w :: evs).
    split. { rewrite Ht. simpl. by rewrite <- app_assoc. }
    split; [simpl; by rewrite Hc|]. split; [done|]. by constructor.
Qed.

Lemma all_failed_fs (ss : list Step) (w w' : World) (p : string) :
  all_failed h ss w w' →
  Forall (λ s, List.last (step_cmd s) "" ≠ p) ss →
  fs w' !! p = fs w !! p.
Proof.
  induction 1 as [w|s rest w w' Hfail _ IH]; intros Hne; [done|].
  inversion Hne; subst. rewrite IH by done. simpl. by apply written_lookup_ne.
Qed.

(** The trace of a chain: the attempts follow the plan in order, only the
    last one can have succeeded, and an exhausted chain touched nothing but
    the outputs of its steps. *)
Lemma run_chain_order (failed : Outcome) (plan : list Step) (w : World) :
  Forall step_wf plan →
  Forall (λ s, quiet (step_promote s)
               ∧ ∀ w', outcome_failed (step_promote s w').1 = false) plan →
  ∃ r w2 attempts after,
    run_chain h failed plan w = (r, w2)
    ∧ trace w2 = trace w ++ attempts ++ after
    ∧ forallb is_repair attempts = true
    ∧ forallb (λ e, negb (is_repair e)) after = true
    ∧ map event_cmd attempts = take (length attempts) (map step_cmd plan)
    ∧ (∀ i e, attempts !! i = Some e → event_ok e = true →
              S i = length attempts)
    ∧ ((∃ e, last attempts = Some e ∧ event_ok e = true
             ∧ outcome_failed r = false)
       ∨ (Forall (λ e, event_ok e = false) attempts
          ∧ length attempts = length plan
          ∧ after = []
          ∧ r = Ok failed
          ∧ ∀ p, Forall (λ s, List.last (step_cmd s) "" ≠ p) plan →
                 fs w2 !! p = fs w !! p)).
Proof.
  intros Hwf Hq.
  destruct (run_chain_cases failed plan w Hwf)
    as [(pre & s & post & wk & -> & Hpre & Hs & Hrun)|(wk & Hall & Hrun)].
  - destruct (all_failed_trace _ _ _ Hpre) as (evs & Ht & Hc & Hr & Hk).
    apply Forall_app in Hq as [_ Hq]. apply Forall_cons in Hq as [[Hqs Hnf] _].
    destruct (Hqs (attempted h (step_cmd s) wk)) as (after & Ha & Hfa).
    specialize (Hnf (attempted h (step_cmd s) wk)).
    destruct (step_promote s (attempted h (step_cmd s) wk)) as [r w2] eqn:Hp.
    simpl in Ha, Hnf.
    exists r, w2, (evs ++ [repair_event h (step_cmd s) wk]), after.
    split; [done|]. split.
    { rewrite Ha. simpl. rewrite Ht. by rewrite <- !app_assoc. }
    split. { rewrite forallb_app, Hr. done. }
    split; [done|]. split.
    { assert (Hlen : length evs = length (map step_cmd pre))
        by (by rewrite <- Hc, length_map).
      rewrite map_app, Hc, map_app, length_app.
      by rewrite (take_app_add' _ _ _ _ Hlen). }
    split.
    { intros i e Hi He. rewrite length_app. simpl.
      destruct (decide (i < length evs)%nat) as [Hlt|Hge].
      - rewrite lookup_app_l in Hi by done.
        rewrite Forall_lookup in Hk. rewrite (Hk i e Hi) in He. done.
      - apply lookup_lt_Some in Hi. rewrite length_app in Hi. simpl in Hi. lia. }
    left. exists (repair_event h (step_cmd s) wk).
    split; [by rewrite last_snoc|]. done.
  - destruct (all_failed_trace _ _ _ Hall) as (evs & Ht & Hc & Hr & Hk).
    exists (Ok failed), wk, evs, [].
    split; [done|]. split; [by rewrite app_nil_r|]. split; [done|].
    split; [done|].
    assert (Hlen : length evs = length plan).
    { by rewrite <- (length_map event_cmd), Hc, length_map. }
    split. { rewrite <- Hc, <- (length_map event_cmd evs). by rewrite firstn_all. }
    split.
    { intros i e Hi He. rewrite Forall_lookup in Hk.
      rewrite (Hk i e Hi) in He. done. }
    right. split; [done|]. split; [done|]. split; [done|]. split; [done|].
    intros p Hp. by apply (all_failed_fs plan).
Qed.

End Chain.

(* ===================================================================== *)
(** ** The FIX chain *)
(* ===================================================================== *)

(** *** Names beside the original *)

Lemma suffix_not_underscore (path : Path) (t : string) :
  suffix path ≠ String "_" t.
Proof. destruct (suffix_shape path) as [-> | [u ->]]; done. Qed.

Lemma str_path_as_sibling (path : Path) :
  str path = str (sibling path (stem path +:+ suffix path)).
Proof. unfold sibling, str. simpl. by rewrite stem_suffix. Qed.

Lemma sibling_tail_ne (path : Path) (a b : string) :
  a ≠ b →
  str (sibling path (stem path +:+ a)) ≠ str (sibling path (stem path +:+ b)).
Proof.
  intros Hab Heq. apply str_eq_name in Heq. by apply append_inv_head in Heq.
Qed.

(** An output whose name is the stem and a tail that starts with an
    underscore is not the original. *)
Lemma underscore_sibling_ne_path (path : Path) (t : string) :
  str (sibling path (stem path +:+ String "_" t)) ≠ str path.
Proof.
  rewrite (str_path_as_sibling path). apply sibling_tail_ne.
  intros H. by apply (suffix_not_underscore path t).
Qed.

Lemma mkv_tmp_ne_path (path : Path) (inplace : bool) :
  str (mkv_tmp_of path inplace) ≠ str path.
Proof. unfold mkv_tmp_of. destruct inplace; apply underscore_sibling_ne_path. Qed.

Lemma mp4_tmp_ne_path (path : Path) (inplace : bool) :
  str (mp4_tmp_of path inplace) ≠ str path.
Proof. unfold mp4_tmp_of. destruct inplace; apply underscore_sibling_ne_path. Qed.

Lemma reenc_tmp_ne_path (path : Path) (inplace prefer_mkv : bool) :
  str (reenc_tmp_of path inplace prefer_mkv) ≠ str path.
Proof.
  unfold reenc_tmp_of. destruct inplace; apply underscore_sibling_ne_path.
Qed.

Lemma wrap_tmp_ne_path (path : Path) (inplace prefer_mkv : bool) (fps : Z) :
  str (wrap_tmp_of path inplace prefer_mkv fps) ≠ str path.
Proof.
  unfold wrap_tmp_of. destruct inplace; apply underscore_sibling_ne_path.
Qed.

(** *** The steps of the chain *)

Lemma fix_chain_cmds (verdict : Verdict) (path : Path)
    (inplace prefer_mkv : bool) (try_fps : list Z) :
  map step_cmd (fix_chain verdict path inplace prefer_mkv try_fps)
  = fix_cmds path inplace prefer_mkv try_fps.
Proof.
  unfold fix_chain, fix_cmds. cbn [map step_cmd]. do 3 f_equal.
  - unfold reencode_cmd, reencode_line, fps_hint. by destruct prefer_mkv.
  - rewrite !map_map. apply map_ext. intros fps. cbn [step_cmd reencode_step].
    unfold reencode_cmd, reencode_line, framerate_hint, fps_hint.
    by destruct (fps =? 0), prefer_mkv.
Qed.

(** The candidate 0 is attempted without a hint: its command line is that
    of the attempt without a frame rate. *)
Lemma zero_candidate_has_no_hint (src dst : Path) (out_mkv : bool) :
  reencode_cmd src dst out_mkv (Some 0) = reencode_cmd src dst out_mkv None.
Proof. reflexivity. Qed.

Lemma fix_chain_wf (verdict : Verdict) (path : Path)
    (inplace prefer_mkv : bool) (try_fps : list Z) :
  Forall step_wf (fix_chain verdict path inplace prefer_mkv try_fps).
Proof.
  unfold fix_chain. repeat apply Forall_cons_2; try done.
  - split; apply reencode_cmd_wf.
  - apply Forall_map, Forall_forall. intros fps _. split; apply reencode_cmd_wf.
Qed.

Lemma fix_chain_promotes (verdict : Verdict) (path : Path)
    (inplace prefer_mkv : bool) (try_fps : list Z) :
  Forall (λ s, quiet (step_promote s)
               ∧ ∀ w', outcome_failed (step_promote s w').1 = false)
         (fix_chain verdict path inplace prefer_mkv try_fps).
Proof.
  unfold fix_chain. repeat apply Forall_cons_2;
    try (split; [apply quiet_promote | intros w'; apply promote_not_failed]).
  apply Forall_map, Forall_forall. intros fps _.
  split; [apply quiet_promote | intros w'; apply promote_not_failed].
Qed.

Lemma fix_chain_spares_original (verdict : Verdict) (path : Path)
    (inplace prefer_mkv : bool) (try_fps : list Z) :
  Forall (λ s, List.last (step_cmd s) "" ≠ str path)
         (fix_chain verdict path inplace prefer_mkv try_fps).
Proof.
  unfold fix_chain. repeat apply Forall_cons_2.
  - apply mkv_tmp_ne_path.
  - apply mp4_tmp_ne_path.
  - cbn [step_cmd reencode_step].
    rewrite (proj2 (reencode_cmd_wf _ _ _ _)). apply reenc_tmp_ne_path.
  - apply Forall_map, Forall_forall. intros fps _. cbn [step_cmd reencode_step].
    rewrite (proj2 (reencode_cmd_wf _ _ _ _)). apply reenc_tmp_ne_path.
Qed.

Section Fix.

Context (h : Host).

(** C3: live repair on a FIX verdict runs [ffmpeg] on the command lines of
    the chain in order and on no other. The command lines are those of
    [fix_cmds], written out word by word: the remux, the
    faststart/timescale copy, the re-encode without a hint, and the
    re-encode once per candidate frame rate as supplied, each with
    [-framerate] and its candidate before the input (a candidate 0 is
    attempted too, without a hint). Only the last attempt can have met the
    success criterion, so the first success ends the chain; when every
    attempt fails the whole chain was run, the outcome is "reencode_failed",
    nothing was renamed or deleted, and the original file is as it was. *)
Theorem fix_chain_runs_in_order
    (path : Path) (try_fps : list Z) (inplace prefer_mkv : bool) (tol : float)
    (w w1 : World) (reason : string) (extras : gmap string PyVal) :
  name path ≠ "" →
  verdict_for_file h path tol w = (Ok (FIX, reason, extras), w1) →
  ∃ r w2 attempts after,
    process_one h path try_fps false inplace prefer_mkv tol w = (r, w2)
    ∧ trace w2 = trace w1 ++ attempts ++ after
    ∧ forallb is_repair attempts = true
    ∧ forallb (λ e, negb (is_repair e)) after = true
    ∧ map event_cmd attempts
      = take (length attempts) (fix_cmds path inplace prefer_mkv try_fps)
    ∧ (∀ i e, attempts !! i = Some e → event_ok e = true →
              S i = length attempts)
    ∧ ((∃ e, last attempts = Some e ∧ event_ok e = true
             ∧ outcome_failed r = false)
       ∨ (Forall (λ e, event_ok e = false) attempts
          ∧ length attempts = length (fix_cmds path inplace prefer_mkv try_fps)
          ∧ after = []
          ∧ r = Ok (FIX, "reencode_failed", "",
                    Some "Re-encode CFR falhou com todos os FPS.")
          ∧ fs w2 !! str path = fs w !! str path)).
Proof.
  intros Hn Hv.
  rewrite (process_one_fix_chain h path try_fps inplace prefer_mkv tol w w1
             reason extras Hn Hv).
  destruct (run_chain_order h (reencode_failed FIX)
              (fix_chain FIX path inplace prefer_mkv try_fps) w1
              (fix_chain_wf _ _ _ _ _) (fix_chain_promotes _ _ _ _ _))
    as (r & w2 & attempts & after & Hrun & Ht & Hr & Ha & Hc & Hlast & Hcase).
  exists r, w2, attempts, after. rewrite fix_chain_cmds in Hc.
  repeat (split; [done|]).
  destruct Hcase as [Hs|(Hall & Hlen & -> & -> & Hfs)]; [by left|].
  right. repeat (split; [done|]).
  split. { by rewrite <- (fix_chain_cmds FIX), length_map. }
  split; [done|]. split; [done|].
  rewrite (Hfs (str path) (fix_chain_spares_original _ _ _ _ _)).
  destruct (verdict_for_file_readonly h path tol w) as (r' & probes & Hro & _).
  rewrite Hv in Hro. by injection Hro as _ ->.
Qed.

End Fix.

(** On a host whose [ffmpeg] always fails, the five attempts of the chain
    with candidates 25 and 30 run in order and the original stays. *)
Lemma failing_host_exhausts_chain :
  ∃ r w2 attempts after,
    process_one (sample_host None None mux_fails) (mkPath "d" "a.avi")
      [25; 30] false false false 0.2%float sample_world = (r, w2)
    ∧ trace w2
      = trace (after_probes (mkPath "d" "a.avi") sample_world) ++ attempts ++ after
    ∧ forallb is_repair attempts = true
    ∧ forallb (λ e, negb (is_repair e)) after = true
    ∧ map event_cmd attempts
      = take (length attempts) (fix_cmds (mkPath "d" "a.avi") false false [25; 30])
    ∧ (∀ i e, attempts !! i = Some e → event_ok e = true →
              S i = length attempts)
    ∧ ((∃ e, last attempts = Some e ∧ event_ok e = true
             ∧ outcome_failed r = false)
       ∨ (Forall (λ e, event_ok e = false) attempts
          ∧ length attempts
            = length (fix_cmds (mkPath "d" "a.avi") false false [25; 30])
          ∧ after = []
          ∧ r = Ok (FIX, "reencode_failed", "",
                    Some "Re-encode CFR falhou com todos os FPS.")
          ∧ fs w2 !! str (mkPath "d" "a.avi")
            = fs sample_world !! str (mkPath "d" "a.avi"))).
Proof.
  eapply (fix_chain_runs_in_order (sample_host None None mux_fails)
            (mkPath "d" "a.avi") [25; 30] false false 0.2%float sample_world).
  - discriminate.
  - vm_compute. reflexivity.
Defined.

(* ===================================================================== *)
(** ** In-place replacement *)
(* ===================================================================== *)

(** *** The names involved *)

Lemma path_as_sibling (path : Path) :
  path = sibling path (stem path +:+ suffix path).
Proof. unfold sibling. rewrite stem_suffix. by destruct path. Qed.

Lemma backup_as_sibling (path : Path) :
  backup_of path = sibling path (stem path +:+ suffix path +:+ ".bak").
Proof.
  unfold backup_of. by rewrite <- append_assoc, stem_suffix.
Qed.

Lemma underscore_ne_bak_tail (path : Path) (t : string) :
  String "_" t ≠ suffix path +:+ ".bak".
Proof. destruct (suffix_shape path) as [-> | [u ->]]; done. Qed.

Lemma suffix_ne_bak_tail (path : Path) : suffix path ≠ suffix path +:+ ".bak".
Proof.
  intros H. apply (f_equal String.length) in H. rewrite append_length in H.
  simpl in H. lia.
Qed.

Lemma ext_ne_bak_tail (path : Path) (prefer_mkv : bool) :
  ext_out_of prefer_mkv ≠ suffix path +:+ ".bak".
Proof.
  destruct (suffix_shape path) as [-> | [u ->]]; [by destruct prefer_mkv|].
  intros H. apply (f_equal String.length) in H.
  rewrite append_cons in H. cbn [String.length] in H.
  rewrite append_length in H. destruct prefer_mkv; simpl in H; lia.
Qed.

Lemma backup_ne_path (path : Path) : str (backup_of path) ≠ str path.
Proof.
  rewrite backup_as_sibling, (str_path_as_sibling path).
  apply sibling_tail_ne. intros H. by apply (suffix_ne_bak_tail path).
Qed.

Lemma underscore_sibling_ne_backup (path : Path) (t : string) :
  str (sibling path (stem path +:+ String "_" t)) ≠ str (backup_of path).
Proof.
  rewrite backup_as_sibling. apply sibling_tail_ne, underscore_ne_bak_tail.
Qed.

Lemma final_ne_backup (path final : Path) :
  final_name_of path final → str final ≠ str (backup_of path).
Proof.
  rewrite backup_as_sibling. intros [-> | [b ->]].
  - rewrite (str_path_as_sibling path). apply sibling_tail_ne, suffix_ne_bak_tail.
  - apply sibling_tail_ne, ext_ne_bak_tail.
Qed.

Lemma final_ne_underscore_sibling (path final : Path) (t : string) :
  final_name_of path final →
  str final ≠ str (sibling path (stem path +:+ String "_" t)).
Proof.
  intros [-> | [b ->]].
  - intros H. by apply (underscore_sibling_ne_path path t).
  - apply sibling_tail_ne. by destruct b.
Qed.

Lemma with_suffix_bak (path : Path) :
  name path ≠ "" →
  with_suffix path (suffix path +:+ ".bak") = Ok (backup_of path).
Proof.
  intros Hn. unfold with_suffix. rewrite decide_False by done.
  rewrite backup_as_sibling.
  destruct (suffix_shape path) as [E | [u E]]; rewrite E; [done|].
  rewrite append_cons. cbn [valid_suffix]. by destruct u.
Qed.

Lemma with_suffix_ext (path : Path) (prefer_mkv : bool) :
  name path ≠ "" →
  with_suffix path (ext_out_of prefer_mkv)
  = Ok (sibling path (stem path +:+ ext_out_of prefer_mkv)).
Proof.
  intros Hn. unfold with_suffix. rewrite decide_False by done.
  by destruct prefer_mkv.
Qed.

(** *** The swap *)

Lemma try_unlink_eq (p : Path) (w : World) :
  try_pass (unlink p) w =
    (Ok tt, mkWorld (delete (str p) (fs w))
                    (trace w ++ match fs w !! str p with
                                | Some _ => [EvUnlink (str p)]
                                | None => []
                                end)).
Proof.
  unfold try_pass, unlink. destruct (fs w !! str p) eqn:E; [done|].
  rewrite delete_id by done. rewrite app_nil_r. by destruct w.
Qed.

(** The swap on a result [tmp] that exists: it needs the original, and then
    leaves the original under the backup name and the result under the
    final name. *)
Lemma swap_inplace_run (path tmp final : Path) (w : World) (c t : string) :
  name path ≠ "" →
  tmp = sibling path (stem path +:+ String "_" t) →
  fs w !! str tmp = Some c →
  swap_inplace path tmp (Ok final) w =
    match fs w !! str path with
    | Some orig =>
        (Ok final,
         mkWorld
           (<[str final := c]>
              (delete (str tmp)
                 (<[str (backup_of path) := orig]>
                    (delete (str path) (delete (str (backup_of path)) (fs w))))))
           ((trace w ++ match fs w !! str (backup_of path) with
                        | Some _ => [EvUnlink (str (backup_of path))]
                        | None => []
                        end)
            ++ [EvRename (str path) (str (backup_of path))]
            ++ [EvRename (str tmp) (str final)]))
    | None =>
        (Raise FileNotFoundError,
         mkWorld (delete (str (backup_of path)) (fs w))
                 (trace w ++ match fs w !! str (backup_of path) with
                             | Some _ => [EvUnlink (str (backup_of path))]
                             | None => []
                             end))
    end.
Proof.
  intros Hn -> Hc. unfold swap_inplace.
  erewrite bind_ok; [|by rewrite lift_eq, with_suffix_bak].
  erewrite bind_ok; [|apply try_unlink_eq].
  pose proof (backup_ne_path path) as Hbp.
  pose proof (underscore_sibling_ne_backup path t) as Htb.
  pose proof (underscore_sibling_ne_path path t) as Htp.
  destruct (fs w !! str path) as [orig|] eqn:Ho.
  - erewrite bind_ok;
      [|unfold rename; cbn [fs trace];
        rewrite lookup_delete_ne by done; rewrite Ho; reflexivity].
    erewrite bind_ok; [|apply lift_eq].
    erewrite bind_ok;
      [|unfold rename; cbn [fs trace];
        rewrite lookup_insert_ne by done;
        rewrite !lookup_delete_ne by done; rewrite Hc; reflexivity].
    rewrite ret_eq. by rewrite <- !app_assoc.
  - erewrite bind_raise; [reflexivity|].
    unfold rename. cbn [fs trace].
    rewrite lookup_delete_ne by done. by rewrite Ho.
Qed.

Lemma fix_chain_inplace (verdict : Verdict) (path : Path) (prefer_mkv : bool)
    (try_fps : list Z) :
  Forall (inplace_step verdict path)
         (fix_chain verdict path true prefer_mkv try_fps).
Proof.
  unfold fix_chain. repeat apply Forall_cons_2.
  - exists "fixed_tmp.mkv", (with_suffix path ".mkv"), "remux_mkv inplace", "remux_mkv".
    split; [done|]. split; [|done]. right. by exists true.
  - exists "fixed_tmp.mp4", (Ok path), "mp4_faststart_timescale inplace",
      "mp4_faststart_timescale".
    split; [done|]. split; [|done]. by left.
  - eexists ("reenc_tmp" +:+ ext_out_of prefer_mkv), _, _, _.
    split; [done|]. split; [|done]. right. by exists prefer_mkv.
  - apply Forall_map, Forall_forall. intros fps _.
    eexists ("reenc_tmp" +:+ ext_out_of prefer_mkv), _, _, _.
    split; [done|]. split; [|done]. right. by exists prefer_mkv.
Qed.

Lemma wrap_chain_inplace (verdict : Verdict) (path : Path) (prefer_mkv : bool)
    (try_fps : list Z) :
  Forall (inplace_step verdict path)
         (map (wrap_step verdict path true prefer_mkv) try_fps).
Proof.
  apply Forall_map, Forall_forall. intros fps _.
  eexists ("wrapped_tmp" +:+ ext_out_of prefer_mkv), _, _, _.
  split; [done|]. split; [|done]. right. by exists prefer_mkv.
Qed.

Lemma wrap_chain_wf (verdict : Verdict) (path : Path)
    (inplace prefer_mkv : bool) (try_fps : list Z) :
  Forall step_wf (map (wrap_step verdict path inplace prefer_mkv) try_fps).
Proof. apply Forall_map, Forall_forall. by intros fps _. Qed.

Lemma inplace_step_spares_original (verdict : Verdict) (path : Path) (s : Step) :
  step_wf s → inplace_step verdict path s →
  List.last (step_cmd s) "" ≠ str path.
Proof.
  intros [_ Hl] (t & _ & _ & _ & Hd & _). rewrite Hl, Hd.
  apply underscore_sibling_ne_path.
Qed.

Lemma event_ok_inv (cmd : list string) (rc : Z) (out : option string) :
  event_ok (EvRepair cmd rc out) = true →
  rc = 0 ∧ ∃ c, out = Some c ∧ (0 < String.length c)%nat.
Proof.
  destruct out as [c|]; [|done]. cbn [event_ok].
  rewrite andb_true_iff, Z.eqb_eq, Z.ltb_lt. intros [-> Hc].
  split; [done|]. exists c. split; [done | lia].
Qed.

Section Inplace.

Context (h : Host).

(** What a successful step of an in-place chain leaves behind. *)
Lemma promoted_inplace (v : Verdict) (path : Path) (s : Step) (wk w2 : World)
    (verdict : Verdict) (action outpath : string) :
  name path ≠ "" →
  step_wf s →
  inplace_step v path s →
  event_ok (repair_event h (step_cmd s) wk) = true →
  step_promote s (attempted h (step_cmd s) wk)
    = (Ok (verdict, action, outpath, None), w2) →
  ∃ orig repaired final unl,
    fs wk !! str path = Some orig
    ∧ final_name_of path final
    ∧ outpath = str final
    ∧ (0 < String.length repaired)%nat
    ∧ fs w2 !! str (backup_of path) = Some orig
    ∧ fs w2 !! str final = Some repaired
    ∧ fs w2 !! str (step_dst s) = None
    ∧ (str final ≠ str path → fs w2 !! str path = None)
    ∧ (unl = [] ∨ unl = [EvUnlink (str (backup_of path))])
    ∧ trace w2 = trace wk ++ [EvRepair (step_cmd s) 0 (Some repaired)] ++ unl
                 ++ [EvRename (str path) (str (backup_of path));
                     EvRename (str (step_dst s)) (str final)].
Proof.
  intros Hn [Hf Hl] (t & target & li & l & Hd & Htarget & Hp) Hok Hrun.
  apply event_ok_inv in Hok as [Hrc (c & Hout & Hc)].
  assert (Htmp : fs (attempted h (step_cmd s) wk) !! str (step_dst s) = Some c).
  { unfold attempted. cbn [fs]. by rewrite Hl, written_lookup. }
  assert (Hfinal : ∃ final, target = Ok final ∧ final_name_of path final).
  { destruct Htarget as [-> | [b ->]].
    - exists path. split; [done | by left].
    - rewrite with_suffix_ext by done. eexists. split; [done|]. right. by exists b. }
  destruct Hfinal as (final & -> & Hfn).
  rewrite Hp in Hrun. unfold promote in Hrun.
  unfold mbind, M_bind in Hrun.
  rewrite (swap_inplace_run path (step_dst s) final _ c t Hn Hd Htmp) in Hrun.
  pose proof (backup_ne_path path) as Hbp.
  pose proof (underscore_sibling_ne_backup path t) as Htb.
  pose proof (underscore_sibling_ne_path path t) as Htp.
  pose proof (final_ne_backup path final Hfn) as Hfb.
  pose proof (final_ne_underscore_sibling path final t Hfn) as Hft.
  rewrite <- Hd in Htb, Htp, Hft.
  assert (Hpath : fs (attempted h (step_cmd s) wk) !! str path = fs wk !! str path).
  { unfold attempted. cbn [fs]. rewrite Hl. by apply written_lookup_ne. }
  assert (Hbak : fs (attempted h (step_cmd s) wk) !! str (backup_of path)
                 = fs wk !! str (backup_of path)).
  { unfold attempted. cbn [fs]. rewrite Hl. by apply written_lookup_ne. }
  rewrite Hpath, Hbak in Hrun.
  destruct (fs wk !! str path) as [orig|] eqn:Ho; [|done].
  rewrite ret_eq in Hrun. injection Hrun as <- <- <- <-.
  exists orig, c, final,
    (match fs wk !! str (backup_of path) with
     | Some _ => [EvUnlink (str (backup_of path))]
     | None => []
     end).
  split; [done|]. split; [done|]. split; [done|]. split; [done|].
  cbn [fs trace].
  split. { rewrite lookup_insert_ne by done. rewrite lookup_delete_ne by done.
           by rewrite lookup_insert_eq. }
  split; [by rewrite lookup_insert_eq|].
  split. { rewrite lookup_insert_ne by done. by rewrite lookup_delete_eq. }
  split. { intros Hfp. rewrite lookup_insert_ne by done.
           rewrite lookup_delete_ne by done.
           rewrite lookup_insert_ne by done. by rewrite lookup_delete_eq. }
  split. { destruct (fs wk !! str (backup_of path)); [by right | by left]. }
  unfold repair_event. rewrite Hrc, Hout. by rewrite <- !app_assoc.
Qed.

End Inplace.

Section InplaceRepair.

Context (h : Host).

(** A chain of in-place steps that reports no error has swapped the result
    of its last attempt in. *)
Lemma inplace_chain_success (failed : Outcome) (plan : list Step) (v : Verdict)
    (path : Path) (w1 w2 : World) (verdict : Verdict) (action outpath : string) :
  name path ≠ "" →
  Forall step_wf plan →
  Forall (inplace_step v path) plan →
  outcome_failed (Ok failed) = true →
  run_chain h failed plan w1 = (Ok (verdict, action, outpath, None), w2) →
  ∃ orig repaired tmp final cmd before unl,
    fs w1 !! str path = Some orig
    ∧ final_name_of path final
    ∧ outpath = str final
    ∧ (0 < String.length repaired)%nat
    ∧ fs w2 !! str (backup_of path) = Some orig
    ∧ fs w2 !! str final = Some repaired
    ∧ fs w2 !! str tmp = None
    ∧ (str final ≠ str path → fs w2 !! str path = None)
    ∧ List.last cmd "" = str tmp
    ∧ (unl = [] ∨ unl = [EvUnlink (str (backup_of path))])
    ∧ trace w2 = before ++ [EvRepair cmd 0 (Some repaired)] ++ unl
                 ++ [EvRename (str path) (str (backup_of path));
                     EvRename (str tmp) (str final)].
Proof.
  intros Hn Hwf Hin Hfailed Hrun.
  destruct (run_chain_cases h failed plan w1 Hwf)
    as [(pre & s & post & wk & -> & Hpre & Hs & Hrun')|(wk & Hall & Hrun')];
    rewrite Hrun' in Hrun.
  - apply Forall_app in Hwf as [Hwf_pre Hwf_s].
    apply Forall_cons in Hwf_s as [Hwf_s _].
    apply Forall_app in Hin as [Hin_pre Hin_s].
    apply Forall_cons in Hin_s as [Hin_s _].
    destruct (promoted_inplace h v path s wk w2 verdict action outpath
                Hn Hwf_s Hin_s Hs Hrun)
      as (orig & repaired & final & unl & Ho & Hfn & Hout & Hlen & Hb & Hf
          & Ht & Hp & Hunl & Htr).
    destruct (all_failed_trace h _ _ _ Hpre) as (evs & Hevs & _).
    exists orig, repaired, (step_dst s), final, (step_cmd s),
      (trace w1 ++ evs), unl.
    split.
    { rewrite <- Ho. symmetry. apply (all_failed_fs h pre); [done|].
      apply Forall_forall. intros s' Hs'.
      rewrite Forall_forall in Hwf_pre, Hin_pre.
      by apply (inplace_step_spares_original v); auto. }
    repeat (split; [done|]). split; [apply Hwf_s|]. split; [done|].
    by rewrite <- Hevs.
  - injection Hrun as Hf _. rewrite Hf in Hfailed. done.
Qed.


End InplaceRepair.



(* ===================================================================== *)
(** ** Further properties *)
(* ===================================================================== *)

Section More.

Context (h : Host).

(** The loop over the streams keeps the codec of the last video stream. *)
Lemma fold_stream_step_codec (streams : list Stream)
    (vcodec : option string) (dur : option float) :
  (fold_left (stream_step h) streams (vcodec, dur)).1 =
    match last (video_streams streams) with
    | Some st => codec_name st
    | None => vcodec
    end.
Proof.
  revert vcodec dur. induction streams as [|st streams IH]; intros vcodec dur.
  - done.
  - cbn [fold_left]. unfold stream_step at 2.
    unfold video_streams. rewrite filter_cons. fold (video_streams streams).
    destruct (decide (codec_type st = Some "video")) as [Hv|Hv].
    + rewrite IH, last_cons. by destruct (last (video_streams streams)).
    + by rewrite IH.
Qed.

(** The codec [get_meta] resolves is that of the last stream flagged as
    video, and null when there is none. *)
Theorem resolved_codec_is_last_video_stream
    (path : Path) (w w1 : World) (doc : ProbeDoc) :
  ffprobe_json h path w = (Ok (Some doc), w1) →
  doc_is_empty doc = false →
  ∃ dur container start_time,
    get_meta h path w =
      (Ok (dur, container,
           last (video_streams (default [] (doc_streams doc))) ≫= codec_name,
           start_time), w1).
Proof.
  intros Hj Hne. unfold get_meta. erewrite bind_ok; [|exact Hj].
  cbv beta iota. rewrite Hne.
  pose proof (fold_stream_step_codec (default [] (doc_streams doc)) None
    (match fmt_duration (default empty_format (doc_format doc)) with
     | Some d => py_float h d
     | None => None
     end)) as Hc.
  destruct (fold_left _ _ _) as [vc d]. simpl in Hc. subst vc.
  eexists d, _, _. rewrite ret_eq. repeat f_equal.
Qed.

End More.

(* ===================================================================== *)
(** ** The WRAP chain and the side-by-side mode *)
(* ===================================================================== *)

Lemma wrap_chain_cmds (verdict : Verdict) (path : Path)
    (inplace prefer_mkv : bool) (try_fps : list Z) :
  map step_cmd (map (wrap_step verdict path inplace prefer_mkv) try_fps)
  = wrap_cmds path inplace prefer_mkv try_fps.
Proof. by rewrite map_map. Qed.

Lemma wrap_chain_promotes (verdict : Verdict) (path : Path)
    (inplace prefer_mkv : bool) (try_fps : list Z) :
  Forall (λ s, quiet (step_promote s)
               ∧ ∀ w', outcome_failed (step_promote s w').1 = false)
         (map (wrap_step verdict path inplace prefer_mkv) try_fps).
Proof.
  apply Forall_map, Forall_forall. intros fps _.
  split; [apply quiet_promote | intros w'; apply promote_not_failed].
Qed.

Lemma wrap_chain_spares_original (verdict : Verdict) (path : Path)
    (inplace prefer_mkv : bool) (try_fps : list Z) :
  Forall (λ s, List.last (step_cmd s) "" ≠ str path)
         (map (wrap_step verdict path inplace prefer_mkv) try_fps).
Proof.
  apply Forall_map, Forall_forall. intros fps _. apply wrap_tmp_ne_path.
Qed.

Lemma forallb_weaken {A : Type} (f g : A → bool) (l : list A) :
  (∀ x, f x = true → g x = true) → forallb f l = true → forallb g l = true.
Proof.
  intros Hfg. rewrite !forallb_forall. intros Hf x Hx. by apply Hfg, Hf.
Qed.

Section Wrap.

Context (h : Host).

(** Live repair on a WRAP verdict runs [ffmpeg] once per candidate frame
    rate, in the order supplied, up to the first success; when every
    candidate fails the outcome is "wrap_failed", nothing was promoted and
    the raw file is as it was. *)
Theorem wrap_chain_runs_in_order
    (path : Path) (try_fps : list Z) (inplace prefer_mkv : bool) (tol : float)
    (w w1 : World) (reason : string) (extras : gmap string PyVal) :
  name path ≠ "" →
  verdict_for_file h path tol w = (Ok (WRAP, reason, extras), w1) →
  ∃ r w2 attempts after,
    process_one h path try_fps false inplace prefer_mkv tol w = (r, w2)
    ∧ trace w2 = trace w1 ++ attempts ++ after
    ∧ forallb is_repair attempts = true
    ∧ forallb (λ e, negb (is_repair e)) after = true
    ∧ map event_cmd attempts
      = take (length attempts) (wrap_cmds path inplace prefer_mkv try_fps)
    ∧ (∀ i e, attempts !! i = Some e → event_ok e = true →
              S i = length attempts)
    ∧ ((∃ e, last attempts = Some e ∧ event_ok e = true
             ∧ outcome_failed r = false)
       ∨ (Forall (λ e, event_ok e = false) attempts
          ∧ length attempts = length try_fps
          ∧ after = []
          ∧ r = Ok (WRAP, "wrap_failed", "",
                    Some "Falha ao embrulhar RAW com FPS tentados.")
          ∧ fs w2 !! str path = fs w !! str path)).
Proof.
  intros Hn Hv.
  rewrite (process_one_wrap_chain h path try_fps inplace prefer_mkv tol w w1
             reason extras Hn Hv).
  destruct (run_chain_order h (wrap_failed WRAP)
              (map (wrap_step WRAP path inplace prefer_mkv) try_fps) w1
              (wrap_chain_wf _ _ _ _ _) (wrap_chain_promotes _ _ _ _ _))
    as (r & w2 & attempts & after & Hrun & Ht & Hr & Ha & Hc & Hlast & Hcase).
  exists r, w2, attempts, after. rewrite wrap_chain_cmds in Hc.
  repeat (split; [done|]).
  destruct Hcase as [Hs|(Hall & Hlen & -> & -> & Hfs)]; [by left|].
  right. repeat (split; [done|]).
  split. { by rewrite length_map in Hlen. }
  split; [done|]. split; [done|].
  rewrite (Hfs (str path) (wrap_chain_spares_original _ _ _ _ _)).
  destruct (verdict_for_file_readonly h path tol w) as (r' & probes & Hro & _).
  rewrite Hv in Hro. by injection Hro as _ ->.
Qed.

(** A chain whose steps promote by returning an outcome: it returns, it ran
    repairs only, and it wrote nowhere but at the outputs of its steps. *)
Lemma side_chain (failed : Outcome) (plan : list Step) (w : World) (p : string) :
  Forall step_wf plan →
  Forall (λ s, List.last (step_cmd s) "" ≠ p) plan →
  Forall (λ s, ∃ o, step_promote s = mret o) plan →
  ∃ o w2 evs,
    run_chain h failed plan w = (Ok o, w2)
    ∧ trace w2 = trace w ++ evs
    ∧ forallb is_repair evs = true
    ∧ fs w2 !! p = fs w !! p.
Proof.
  intros Hwf Hne Hside.
  destruct (run_chain_cases h failed plan w Hwf)
    as [(pre & s & post & wk & -> & Hpre & Hs & Hrun)|(wk & Hall & Hrun)];
    rewrite Hrun.
  - apply Forall_app in Hne as [Hne_pre Hne_s].
    apply Forall_cons in Hne_s as [Hne_s _].
    apply Forall_app in Hside as [_ Hside_s].
    apply Forall_cons in Hside_s as [[o Ho] _].
    destruct (all_failed_trace h _ _ _ Hpre) as (evs & Ht & _ & Hr & _).
    rewrite Ho. exists o, (attempted h (step_cmd s) wk),
      (evs ++ [repair_event h (step_cmd s) wk]).
    split; [done|]. cbn [attempted trace fs].
    split; [by rewrite Ht, <- app_assoc|].
    split; [by rewrite forallb_app, Hr|].
    rewrite written_lookup_ne by done. by apply (all_failed_fs h pre).
  - destruct (all_failed_trace h _ _ _ Hall) as (evs & Ht & _ & Hr & _).
    exists failed, wk, evs. split; [done|]. split; [done|]. split; [done|].
    by apply (all_failed_fs h plan).
Qed.

(** Side by side, the pipeline of the model returns an outcome, renames and
    deletes nothing, and leaves the original file as it was. *)
Lemma side_by_side_run
    (path : Path) (try_fps : list Z) (dry_run prefer_mkv : bool) (tol : float)
    (w : World) :
  name path ≠ "" →
  ∃ outcome w2 evs,
    process_one h path try_fps dry_run false prefer_mkv tol w = (Ok outcome, w2)
    ∧ trace w2 = trace w ++ evs
    ∧ forallb is_tool_run evs = true
    ∧ fs w2 !! str path = fs w !! str path.
Proof.
  intros Hn.
  destruct (verdict_for_file_readonly h path tol w)
    as ([[v reason] extras] & probes & Hv & Hp).
  assert (Hprobes : forallb is_tool_run probes = true).
  { revert Hp. apply forallb_weaken. intros e He. unfold is_tool_run.
    by rewrite He. }
  assert (Hidle : v = OK ∨ dry_run = true →
    ∃ o, process_one h path try_fps dry_run false prefer_mkv tol w
         = (Ok o, mkWorld (fs w) (trace w ++ probes))).
  { intros Hcase. unfold process_one. erewrite bind_ok; [|exact Hv].
    cbv beta iota zeta. destruct (decide (v = OK)); [by eexists|].
    destruct Hcase as [?| ->]; [done | by eexists]. }
  destruct dry_run.
  { destruct Hidle as [o Ho]; [by right|]. by exists o, (mkWorld (fs w) (trace w ++ probes)), probes. }
  destruct v.
  - destruct Hidle as [o Ho]; [by left|]. by exists o, (mkWorld (fs w) (trace w ++ probes)), probes.
  - rewrite (process_one_wrap_chain h path try_fps false prefer_mkv tol w _
               reason extras Hn Hv).
    destruct (side_chain (wrap_failed WRAP)
                (map (wrap_step WRAP path false prefer_mkv) try_fps)
                (mkWorld (fs w) (trace w ++ probes)) (str path)
                (wrap_chain_wf _ _ _ _ _) (wrap_chain_spares_original _ _ _ _ _))
      as (o & w2 & evs & Hrun & Ht & Hr & Hfs).
    { apply Forall_map, Forall_forall. intros fps _. by eexists. }
    exists o, w2, (probes ++ evs). split; [done|].
    split; [rewrite Ht; cbn [trace]; by rewrite <- app_assoc|]. split; [|done].
    rewrite forallb_app, Hprobes. revert Hr. apply forallb_weaken.
    intros e He. unfold is_tool_run. rewrite He. by destruct (is_probe e).
  - rewrite (process_one_fix_chain h path try_fps false prefer_mkv tol w _
               reason extras Hn Hv).
    destruct (side_chain (reencode_failed FIX)
                (fix_chain FIX path false prefer_mkv try_fps)
                (mkWorld (fs w) (trace w ++ probes)) (str path)
                (fix_chain_wf _ _ _ _ _) (fix_chain_spares_original _ _ _ _ _))
      as (o & w2 & evs & Hrun & Ht & Hr & Hfs).
    { unfold fix_chain. repeat apply Forall_cons_2; try by eexists.
      apply Forall_map, Forall_forall. intros fps _. by eexists. }
    exists o, w2, (probes ++ evs). split; [done|].
    split; [rewrite Ht; cbn [trace]; by rewrite <- app_assoc|]. split; [|done].
    rewrite forallb_app, Hprobes. revert Hr. apply forallb_weaken.
    intros e He. unfold is_tool_run. rewrite He. by destruct (is_probe e).
Qed.

(** A side-by-side run that returns has renamed and deleted nothing, only run
    the tools, and left the original file as it was. *)
Theorem side_by_side_spares_original
    (path : Path) (try_fps : list Z) (dry_run prefer_mkv : bool) (tol : float)
    (w w2 : World) (outcome : Outcome) :
  name path ≠ "" →
  process_one h path try_fps dry_run false prefer_mkv tol w = (Ok outcome, w2) →
  ∃ evs,
    trace w2 = trace w ++ evs
    ∧ forallb is_tool_run evs = true
    ∧ fs w2 !! str path = fs w !! str path.
Proof.
  intros Hn Hrun.
  destruct (side_by_side_run path try_fps dry_run prefer_mkv tol w Hn)
    as (o & w2' & evs & Hrun' & Ht & Hr & Hfs).
  rewrite Hrun in Hrun'. injection Hrun' as _ <-. by exists evs.
Qed.

End Wrap.

(** With candidates 25 and 30 and a muxer that fails on 25 and works on 30,
    the outcome is "wrap(30)" after two attempts. *)
Lemma wrap_second_candidate_wins :
  ∃ w2,
    process_one (sample_host None None mux_rejects_25) (mkPath "d" "cam.h264")
      [25; 30] false false false 0.2%float sample_world
    = (Ok (WRAP, "wrap(30)", "d/cam_wrapped30.mp4", None), w2)
    ∧ map event_cmd (trace w2)
      = wrap_cmds (mkPath "d" "cam.h264") false false [25; 30].
Proof. eexists. split; [vm_compute; reflexivity|]. by vm_compute. Qed.

(** *** The further properties on the sample host *)

Lemma two_streams_resolve_first_duration :
  ∃ container vcodec start_time,
    get_meta (sample_host (Some doc_two_streams) None mux_fails)
      (mkPath "d" "a.avi") sample_world
    = (Ok (match fmt_duration (default empty_format (doc_format doc_two_streams))
                 ≫= py_float (sample_host (Some doc_two_streams) None mux_fails)
           with
           | Some d => Some d
           | None =>
               head (stream_durations
                       (sample_host (Some doc_two_streams) None mux_fails)
                       (default [] (doc_streams doc_two_streams)))
           end, container, vcodec, start_time),
       after_meta (mkPath "d" "a.avi") sample_world).
Proof.
  apply (resolved_duration_is_container_or_first_stream (sample_host (Some doc_two_streams) None mux_fails)
           (mkPath "d" "a.avi") sample_world
           (after_meta (mkPath "d" "a.avi") sample_world) doc_two_streams).
  - vm_compute. reflexivity.
  - reflexivity.
Defined.

Lemma two_videos_resolve_last_codec :
  ∃ dur container start_time,
    get_meta (sample_host (Some doc_two_videos) None mux_fails)
      (mkPath "d" "a.mkv") sample_world
    = (Ok (dur, container,
           last (video_streams (default [] (doc_streams doc_two_videos)))
             ≫= codec_name,
           start_time),
       after_meta (mkPath "d" "a.mkv") sample_world).
Proof.
  apply (resolved_codec_is_last_video_stream
           (sample_host (Some doc_two_videos) None mux_fails)
           (mkPath "d" "a.mkv") sample_world
           (after_meta (mkPath "d" "a.mkv") sample_world) doc_two_videos).
  - vm_compute. reflexivity.
  - reflexivity.
Defined.

Lemma wrap_chain_on_sample :
  ∃ r w2 attempts after,
    process_one (sample_host None None mux_rejects_25) (mkPath "d" "cam.h264")
      [25; 30] false false false 0.2%float sample_world = (r, w2)
    ∧ trace w2 = trace sample_world ++ attempts ++ after
    ∧ forallb is_repair attempts = true
    ∧ forallb (λ e, negb (is_repair e)) after = true
    ∧ map event_cmd attempts
      = take (length attempts)
             (wrap_cmds (mkPath "d" "cam.h264") false false [25; 30])
    ∧ (∀ i e, attempts !! i = Some e → event_ok e = true →
              S i = length attempts)
    ∧ ((∃ e, last attempts = Some e ∧ event_ok e = true
             ∧ outcome_failed r = false)
       ∨ (Forall (λ e, event_ok e = false) attempts
          ∧ length attempts = length [25; 30]
          ∧ after = []
          ∧ r = Ok (WRAP, "wrap_failed", "",
                    Some "Falha ao embrulhar RAW com FPS tentados.")
          ∧ fs w2 !! str (mkPath "d" "cam.h264")
            = fs sample_world !! str (mkPath "d" "cam.h264"))).
Proof.
  eapply (wrap_chain_runs_in_order (sample_host None None mux_rejects_25)
            (mkPath "d" "cam.h264") [25; 30] false false 0.2%float
            sample_world sample_world).
  - discriminate.
  - vm_compute. reflexivity.
Defined.

Lemma side_by_side_on_sample :
  ∃ evs,
    trace (process_one (sample_host None None mux_works) (mkPath "d" "a.avi")
             [25; 30] false false false 0.2%float sample_world).2
    = trace sample_world ++ evs
    ∧ forallb is_tool_run evs = true
    ∧ fs (process_one (sample_host None None mux_works) (mkPath "d" "a.avi")
            [25; 30] false false false 0.2%float sample_world).2
        !! str (mkPath "d" "a.avi")
      = fs sample_world !! str (mkPath "d" "a.avi").
Proof.
  eapply (side_by_side_spares_original (sample_host None None mux_works)
            (mkPath "d" "a.avi") [25; 30] false false 0.2%float sample_world).
  - discriminate.
  - vm_compute. reflexivity.
Defined.

(* ===================================================================== *)
(** ** Comparisons of floats that are numbers *)
(* ===================================================================== *)

(** Comparing the other way round gives the opposite answer. *)
Lemma SFcompare_swap (a b : spec_float) :
  SFcompare b a = option_map CompOpp (SFcompare a b).
Proof.
  destruct a as [sa|sa| |sa ma ea], b as [sb|sb| |sb mb eb]; simpl;
    try reflexivity; try (by destruct sa); try (by destruct sb);
    try (by destruct sa, sb).
  assert (Hm : PosDef.Pos.compare_cont Eq mb ma
               = CompOpp (PosDef.Pos.compare_cont Eq ma mb))
    by apply Pos.compare_antisym.
  destruct sa, sb; try reflexivity;
    rewrite (Z.compare_antisym ea eb), Hm;
    destruct (ea ?= eb); simpl; try reflexivity;
    by destruct (PosDef.Pos.compare_cont Eq ma mb).
Qed.

(** Only a NaN is incomparable. *)
Lemma SFcompare_None (a b : spec_float) :
  SFcompare a b = None → a = S754_nan ∨ b = S754_nan.
Proof.
  destruct a as [sa|sa| |sa ma ea], b as [sb|sb| |sb mb eb]; simpl;
    try (intros _; tauto); try (by destruct sa); try (by destruct sb);
    try (by destruct sa, sb).
Qed.

Lemma number_spec (x : float) : is_nan x = false → Prim2SF x ≠ S754_nan.
Proof.
  unfold is_nan. rewrite FloatAxioms.eqb_spec. intros H E.
  rewrite E in H. discriminate.
Qed.

(** Between numbers, [a <= b] fails exactly when [b < a] holds. *)
Lemma number_not_leb (a b : float) :
  is_nan a = false → is_nan b = false →
  PrimFloat.leb a b = false → PrimFloat.ltb b a = true.
Proof.
  intros Ha%number_spec Hb%number_spec.
  rewrite FloatAxioms.leb_spec, FloatAxioms.ltb_spec. unfold SFleb, SFltb.
  rewrite (SFcompare_swap (Prim2SF a) (Prim2SF b)).
  destruct (SFcompare (Prim2SF a) (Prim2SF b)) as [[]|] eqn:E; try done.
  by destruct (SFcompare_None _ _ E).
Qed.

(** Between numbers, [a < b] fails exactly when [b <= a] holds. *)
Lemma number_not_ltb (a b : float) :
  is_nan a = false → is_nan b = false →
  PrimFloat.ltb a b = false → PrimFloat.leb b a = true.
Proof.
  intros Ha%number_spec Hb%number_spec.
  rewrite FloatAxioms.leb_spec, FloatAxioms.ltb_spec. unfold SFleb, SFltb.
  rewrite (SFcompare_swap (Prim2SF a) (Prim2SF b)).
  destruct (SFcompare (Prim2SF a) (Prim2SF b)) as [[]|] eqn:E; try done.
  by destruct (SFcompare_None _ _ E).
Qed.

(* ===================================================================== *)
(** ** More on the verdict engine *)
(* ===================================================================== *)

Section EngineMore.

Context (h : Host).

Lemma verdict_engine_not_wrap (tol : float) (md : option float)
    (c vc : option string) (f l : option float)
    (v : Verdict) (reason : string) (extras : gmap string PyVal) :
  verdict_engine h tol md c vc f l = Ok (v, reason, extras) → v ≠ WRAP.
Proof.
  unfold verdict_engine.
  destruct (usable_meta md) as [m|], (usable_timeline f l) as [[f' l']|];
    try (intros [= <- _ _]; done).
  cbv zeta. destruct (py_div _ _); [|done].
  destruct (_ || _); intros [= <- _ _]; done.
Qed.

(** The answers of the two probes on a file that is not a raw bitstream,
    and the verdict they give. *)
Lemma verdict_for_file_nonraw (path : Path) (tol : float) (w : World) :
  lower (suffix path) ∉ RAW_EXTS →
  ∃ md c vc stt f l,
    get_meta h path w = (Ok (md, c, vc, stt), after_meta path w)
    ∧ get_packet_first_last_pts h path (after_meta path w)
      = (Ok (f, l), after_probes path w)
    ∧ verdict_for_file h path tol w
      = (verdict_engine h tol md c vc f l, after_probes path w).
Proof.
  intros Hraw.
  destruct (get_meta_effect h path w) as [[[[md c] vc] stt] Hm].
  pose proof (get_packet_first_last_pts_eq h path (after_meta path w)) as Hp.
  destruct (match ffprobe_popen h _ _ with
            | None => _ | Some lines => _ end) as [f l] in Hp.
  assert (Hw : mkWorld (fs (after_meta path w))
                 (trace (after_meta path w) ++ [EvProbe (packets_cmd path)])
               = after_probes path w).
  { unfold after_meta, after_probes. cbn [fs trace]. by rewrite <- app_assoc. }
  rewrite Hw in Hp.
  exists md, c, vc, stt, f, l. split; [exact Hm|]. split; [exact Hp|].
  by apply (verdict_for_file_probed h path tol w (after_meta path w)
              (after_probes path w) md c vc stt f l).
Qed.

(** An audit that returns has read and not written: every file is as it
    was, and all that happened outside is the two probes, the document then
    the packet listing, or nothing at all on a raw bitstream. *)
Theorem audit_only_probes
    (path : Path) (tol : float) (w w' : World)
    (r : Verdict * string * gmap string PyVal) :
  verdict_for_file h path tol w = (Ok r, w') →
  fs w' = fs w
  ∧ ∃ probes,
      trace w' = trace w ++ probes
      ∧ forallb is_probe probes = true
      ∧ map event_cmd probes
        = (if bool_decide (lower (suffix path) ∈ RAW_EXTS) then []
           else [ffprobe_json_cmd path; packets_cmd path]).
Proof.
  intros Hv. destruct (decide (lower (suffix path) ∈ RAW_EXTS)) as [Hraw|Hraw].
  - rewrite verdict_for_file_raw in Hv by done. injection Hv as _ <-.
    split; [done|]. exists []. rewrite app_nil_r.
    by rewrite bool_decide_eq_true_2.
  - destruct (verdict_for_file_nonraw path tol w Hraw)
      as (md & c & vc & stt & f & l & _ & _ & Heq).
    rewrite Heq in Hv. injection Hv as _ <-. split; [done|].
    exists [EvProbe (ffprobe_json_cmd path); EvProbe (packets_cmd path)].
    by rewrite bool_decide_eq_false_2.
Qed.

(** WRAP is the verdict of the raw bitstreams and of nothing else. *)
Theorem wrap_exactly_for_raw_extensions
    (path : Path) (tol : float) (w w' : World)
    (v : Verdict) (reason : string) (extras : gmap string PyVal) :
  verdict_for_file h path tol w = (Ok (v, reason, extras), w') →
  (v = WRAP ↔ lower (suffix path) ∈ RAW_EXTS).
Proof.
  intros Hv. destruct (decide (lower (suffix path) ∈ RAW_EXTS)) as [Hraw|Hraw].
  - rewrite verdict_for_file_raw in Hv by done. injection Hv as <- _ _ _. done.
  - destruct (verdict_for_file_nonraw path tol w Hraw)
      as (md & c & vc & stt & f & l & _ & _ & Heq).
    rewrite Heq in Hv. injection Hv as Hv _.
    apply verdict_engine_not_wrap in Hv. split; [done|]. done.
Qed.

(** With a probed duration that is not [<= 0.001], and a packet timeline
    with a timestamp missing or with [lpts <= fpts], the verdict is FIX, the
    reason says that the packets carry no valid timestamps, and the payload
    holds the probed duration and no packet duration. The conditions are the
    comparisons of the code: a last timestamp that is not a number is not
    [<=] the first, and goes on to the divergence test. *)
Theorem verdict_fix_untrusted_packets
    (path : Path) (tol : float) (w w1 w2 : World)
    (m : float) (container vcodec : option string)
    (start_time : option float) (fpts lpts : option float) :
  lower (suffix path) ∉ RAW_EXTS →
  get_meta h path w = (Ok (Some m, container, vcodec, start_time), w1) →
  get_packet_first_last_pts h path w1 = (Ok (fpts, lpts), w2) →
  PrimFloat.leb m 0.001%float = false →
  (fpts = None ∨ lpts = None ∨
   ∃ f l, fpts = Some f ∧ lpts = Some l ∧ PrimFloat.leb l f = true) →
  ∃ extras,
    verdict_for_file h path tol w
    = (Ok (FIX,
           "Meta tem duração, mas pacotes sem pts_time válido (player costuma travar tempo).",
           extras), w2)
    ∧ extras !! "meta_duration" = Some (VFloat m)
    ∧ extras !! "pkt_duration" = None.
Proof.
  intros Hraw Hm Hp Hmeta Hnone. apply usable_timeline_None in Hnone.
  rewrite (verdict_for_file_probed h path tol w w1 w2 _ _ _ _ _ _ Hraw Hm Hp).
  unfold verdict_engine, usable_meta. rewrite Hmeta, Hnone.
  eexists. split; [reflexivity|]. split; reflexivity.
Qed.

(** OK is sound: a file gets OK only if it is no raw bitstream and every
    test of the engine passed, as the code writes them: the probed duration
    is not [<= 0.001], both timestamps are there and the last is not [<=]
    the first, the divergence is not [>] the tolerance, and the combination
    is not bad. A value that is not a number passes these tests; between
    numbers they say that the duration is above 0.001, that the last
    timestamp is after the first, and that the divergence is at most the
    tolerance. *)
Theorem ok_only_when_durations_agree
    (path : Path) (tol : float) (w w' : World)
    (reason : string) (extras : gmap string PyVal) :
  verdict_for_file h path tol w = (Ok (OK, reason, extras), w') →
  (lower (suffix path) ∉ RAW_EXTS)
  ∧ ∃ m container vcodec start_time f l,
      get_meta h path w
        = (Ok (Some m, container, vcodec, start_time), after_meta path w)
      ∧ get_packet_first_last_pts h path (after_meta path w)
        = (Ok (Some f, Some l), after_probes path w)
      ∧ PrimFloat.leb m 0.001%float = false
      ∧ PrimFloat.leb l f = false
      ∧ PrimFloat.ltb tol
          (PrimFloat.div
             (PrimFloat.abs
                (PrimFloat.sub (py_max 0%float (PrimFloat.sub l f)) m))
             (py_max m 1e-6%float)) = false
      ∧ bad_combo container vcodec = false
      ∧ (is_nan m = false → PrimFloat.ltb 0.001%float m = true)
      ∧ (is_nan f = false → is_nan l = false → PrimFloat.ltb f l = true)
      ∧ (is_nan tol = false →
         is_nan (PrimFloat.div
                   (PrimFloat.abs
                      (PrimFloat.sub (py_max 0%float (PrimFloat.sub l f)) m))
                   (py_max m 1e-6%float)) = false →
         PrimFloat.leb
           (PrimFloat.div
              (PrimFloat.abs
                 (PrimFloat.sub (py_max 0%float (PrimFloat.sub l f)) m))
              (py_max m 1e-6%float)) tol = true).
Proof.
  intros Hv.
  destruct (decide (lower (suffix path) ∈ RAW_EXTS)) as [Hraw|Hraw].
  { rewrite verdict_for_file_raw in Hv by done. by injection Hv. }
  split; [done|].
  destruct (verdict_for_file_nonraw path tol w Hraw)
    as (md & c & vc & stt & f & l & Hm & Hp & Heq).
  rewrite Heq in Hv. injection Hv as Hv _.
  unfold verdict_engine in Hv.
  destruct (usable_meta md) as [m|] eqn:Em.
  2:{ destruct (usable_timeline f l) as [[f' l']|]; by injection Hv. }
  destruct (usable_timeline f l) as [[f' l']|] eqn:Et; [|by injection Hv].
  apply usable_meta_Some in Em as [-> Em].
  apply usable_timeline_Some in Et as (-> & -> & Et).
  cbv zeta in Hv. rewrite (divergence_defined _ m Em) in Hv.
  destruct (PrimFloat.ltb tol _) eqn:Hd; [by injection Hv|].
  destruct (bad_combo c vc) eqn:Hb; [by injection Hv|].
  exists m, c, vc, stt, f', l'. repeat (split; [done|]).
  split; [|split].
  - intros Hn. by apply number_not_leb.
  - intros Hf Hl. by apply number_not_leb.
  - intros Ht Hdv. by apply number_not_ltb.
Qed.

Lemma ffprobe_json_eq (path : Path) (w : World) :
  ffprobe_json h path w =
    (Ok (let p := ffprobe_run h (ffprobe_json_cmd path) (fs w) in
         if negb (returncode p =? 0) then None
         else json_loads h (if String.eqb (stdout p) "" then "{}" else stdout p)),
     after_meta path w).
Proof.
  unfold ffprobe_json. erewrite bind_ok; [|by apply run_probe].
  cbv zeta. by destruct (negb _).
Qed.

(** A file [ffprobe] cannot read: once [ffprobe] has run and its output was
    decoded, [get_meta] gives the null probe exactly on a non-zero exit
    status, on an output [json.loads] raises on, and on the empty
    dictionary; the verdict is then FIX with a null container and codec
    unless the file is a raw bitstream: it is never OK. A dictionary that
    has keys is not the null probe, whatever its keys: its container is a
    text. *)
Theorem unreadable_file_is_fix
    (path : Path) (tol : float) (w w1 : World) (p : CompletedProcess) :
  lower (suffix path) ∉ RAW_EXTS →
  run h (ffprobe_json_cmd path) w = (Ok p, w1) →
  (get_meta h path w = (Ok (None, None, None, None), w1)
   ↔ (returncode p ≠ 0
      ∨ json_loads h (if String.eqb (stdout p) "" then "{}" else stdout p) = None
      ∨ ∃ d, json_loads h (if String.eqb (stdout p) "" then "{}" else stdout p)
             = Some d ∧ doc_is_empty d = true))
  ∧ (get_meta h path w = (Ok (None, None, None, None), w1) →
     ∃ reason extras w2,
       verdict_for_file h path tol w = (Ok (FIX, reason, extras), w2)
       ∧ extras !! "container" = Some VNone
       ∧ extras !! "vcodec" = Some VNone).
Proof.
  intros Hraw Hrun.
  rewrite run_probe in Hrun by reflexivity. injection Hrun as <- <-.
  split.
  - unfold get_meta. erewrite bind_ok; [|apply ffprobe_json_eq]. cbv zeta.
    destruct (returncode _ =? 0) eqn:Hrc; cbn [negb].
    2:{ apply Z.eqb_neq in Hrc. split; [by left | done]. }
    apply Z.eqb_eq in Hrc.
    destruct (json_loads h _) as [d|] eqn:Hd.
    2:{ split; [by right; left | done]. }
    destruct (doc_is_empty d) eqn:He.
    { split; [|done]. intros _. right. right. by exists d. }
    destruct (fold_left _ _ _) as [vc dur]. rewrite ret_eq. split; [done|].
    intros [?|[?|(d' & [= <-] & He')]]; congruence.
  - intros Hm.
    destruct (verdict_for_file_nonraw path tol w Hraw)
      as (md & c & vc & stt & f & l & Hm' & Hp & Heq).
    rewrite Hm in Hm'. injection Hm' as <- <- <- <-.
    rewrite Heq. unfold verdict_engine. cbn [usable_meta].
    destruct (usable_timeline f l) as [[f' l']|];
      eexists _, _, _; (split; [reflexivity|]); split; reflexivity.
Qed.

(** The sampler keeps the first timestamp that parses and the latest one,
    whatever their order, and skips the lines that do not parse; when the
    lister cannot be started both are null. *)
Theorem sampler_first_and_latest (path : Path) (w : World) :
  get_packet_first_last_pts h path w =
    (Ok match ffprobe_popen h (packets_cmd path) (fs w) with
        | None => (None, None)
        | Some lines =>
            (head (omap (line_pts h) lines), last (omap (line_pts h) lines))
        end,
     mkWorld (fs w) (trace w ++ [EvProbe (packets_cmd path)])).
Proof.
  rewrite get_packet_first_last_pts_eq.
  destruct (ffprobe_popen h (packets_cmd path) (fs w)) as [lines|]; [|done].
  rewrite fold_pts_step. by destruct (last (omap (line_pts h) lines)).
Qed.

End EngineMore.

(* ===================================================================== *)
(** ** The tolerance and the order of the floats *)
(* ===================================================================== *)

Lemma compare_cont_eq (p q : positive) :
  PosDef.Pos.compare_cont Eq p q = (p ?= q)%positive.
Proof. reflexivity. Qed.

Ltac compare_cases :=
  repeat match goal with
  | H : context [(?x ?= ?y)%Z] |- _ => destruct (Z.compare_spec x y); subst
  | |- context [(?x ?= ?y)%Z] => destruct (Z.compare_spec x y); subst
  | H : context [(?x ?= ?y)%positive] |- _ =>
      destruct (Pos.compare_spec x y); subst
  | |- context [(?x ?= ?y)%positive] => destruct (Pos.compare_spec x y); subst
  end.

(** The comparison of the specification is transitive. *)
Lemma SFcompare_le_lt_trans (a b c : spec_float) :
  (SFcompare a b = Some Lt ∨ SFcompare a b = Some Eq) →
  SFcompare b c = Some Lt → SFcompare a c = Some Lt.
Proof.
  destruct a as [sa|sa| |sa ma ea], b as [sb|sb| |sb mb eb],
    c as [sc|sc| |sc mc ec]; simpl; intros [H1|H1] H2; try discriminate;
    repeat match goal with s : bool |- _ => destruct s end;
    simpl in *; try discriminate; try reflexivity;
    rewrite ?compare_cont_eq in *; compare_cases; simpl in *;
    try discriminate; try reflexivity; try lia.
Qed.

(** [t <= t'] and [t' < d] give [t < d]. *)
Lemma leb_ltb_trans (t t' d : float) :
  PrimFloat.leb t t' = true → PrimFloat.ltb t' d = true →
  PrimFloat.ltb t d = true.
Proof.
  rewrite FloatAxioms.leb_spec, !FloatAxioms.ltb_spec. unfold SFleb, SFltb.
  intros H1 H2.
  destruct (SFcompare (Prim2SF t') (Prim2SF d)) as [[]|] eqn:E2; try discriminate.
  destruct (SFcompare (Prim2SF t) (Prim2SF t')) as [[]|] eqn:E1; try discriminate.
  - by rewrite (SFcompare_le_lt_trans _ _ _ (or_intror E1) E2).
  - by rewrite (SFcompare_le_lt_trans _ _ _ (or_introl E1) E2).
Qed.

(** A float that differs from itself is the NaN of the specification. *)
Lemma is_nan_spec (x : float) : is_nan x = true → Prim2SF x = S754_nan.
Proof.
  unfold is_nan. rewrite FloatAxioms.eqb_spec. unfold SFeqb.
  destruct (Prim2SF x) as [s|s| |s m e]; simpl; try done.
  - by destruct s.
  - destruct s; rewrite Z.compare_refl, compare_cont_eq, Pos.compare_refl; done.
Qed.

Lemma nan_not_leb (x y : float) : is_nan x = true → PrimFloat.leb x y = false.
Proof.
  intros H. rewrite FloatAxioms.leb_spec. unfold SFleb.
  by rewrite (is_nan_spec x H).
Qed.

Lemma nan_not_ltb_l (x y : float) : is_nan x = true → PrimFloat.ltb x y = false.
Proof.
  intros H. rewrite FloatAxioms.ltb_spec. unfold SFltb.
  by rewrite (is_nan_spec x H).
Qed.

(** The divergence from a duration that is not a number exceeds no
    tolerance. *)
Lemma nan_divergence_not_above (t pd m y : float) :
  is_nan m = true →
  PrimFloat.ltb t (PrimFloat.div (PrimFloat.abs (PrimFloat.sub pd m)) y) = false.
Proof.
  intros H. rewrite FloatAxioms.ltb_spec, FloatAxioms.div_spec,
    FloatAxioms.abs_spec, FloatAxioms.sub_spec.
  rewrite (is_nan_spec m H). unfold SFltb, SF64div, SF64sub.
  assert (Hs : SFsub prec emax (Prim2SF pd) S754_nan = S754_nan)
    by (by destruct (Prim2SF pd)).
  rewrite Hs. simpl. by destruct (Prim2SF t).
Qed.

Section Tolerance.

Context (h : Host).

(** The engine answers OK in one way only. *)
Lemma verdict_engine_OK (tol : float) (md : option float)
    (c vc : option string) (f l : option float)
    (reason : string) (extras : gmap string PyVal) :
  verdict_engine h tol md c vc f l = Ok (OK, reason, extras) ↔
  ∃ m f' l',
    md = Some m ∧ f = Some f' ∧ l = Some l'
    ∧ PrimFloat.leb m 0.001%float = false
    ∧ PrimFloat.leb l' f' = false
    ∧ PrimFloat.ltb tol
        (PrimFloat.div
           (PrimFloat.abs
              (PrimFloat.sub (py_max 0%float (PrimFloat.sub l' f')) m))
           (py_max m 1e-6%float)) = false
    ∧ bad_combo c vc = false
    ∧ reason = "Metadados e pts_time coerentes."
    ∧ extras = {[ "container" := val_of_str c;
                  "vcodec" := val_of_str vc;
                  "meta_duration" := VFloat m;
                  "pkt_duration" :=
                    VFloat (py_max 0%float (PrimFloat.sub l' f')) ]}.
Proof.
  unfold verdict_engine. split.
  - destruct (usable_meta md) as [m|] eqn:Em.
    2:{ destruct (usable_timeline f l) as [[f' l']|]; by intros [=]. }
    destruct (usable_timeline f l) as [[f' l']|] eqn:Et; [|by intros [=]].
    apply usable_meta_Some in Em as [-> Em].
    apply usable_timeline_Some in Et as (-> & -> & Et).
    cbv zeta. rewrite (divergence_defined _ m Em).
    destruct (PrimFloat.ltb tol _) eqn:Hd; [by intros [=]|].
    destruct (bad_combo c vc) eqn:Hb; [by intros [=]|].
    cbn [orb]. intros [= <- <-]. by exists m, f', l'.
  - intros (m & f' & l' & -> & -> & -> & Em & Et & Hd & Hb & -> & ->).
    unfold usable_meta, usable_timeline. rewrite Em, Et. cbv zeta.
    rewrite (divergence_defined _ m Em), Hd, Hb. reflexivity.
Qed.

(** A wider tolerance keeps an OK: a file that is OK at the tolerance [t]
    is OK, with the same reason and payload, at every tolerance [t'] with
    [t <= t']. *)
Theorem wider_tolerance_keeps_ok
    (path : Path) (t t' : float) (w w' : World)
    (reason : string) (extras : gmap string PyVal) :
  verdict_for_file h path t w = (Ok (OK, reason, extras), w') →
  PrimFloat.leb t t' = true →
  verdict_for_file h path t' w = (Ok (OK, reason, extras), w').
Proof.
  intros Hv Hle.
  destruct (decide (lower (suffix path) ∈ RAW_EXTS)) as [Hraw|Hraw].
  { rewrite verdict_for_file_raw in Hv by done. by injection Hv. }
  destruct (verdict_for_file_nonraw h path t w Hraw)
    as (md & c & vc & stt & f & l & Hm & Hp & Heq).
  rewrite Heq in Hv. injection Hv as Hv <-.
  rewrite (verdict_for_file_probed h path t' w _ _ _ _ _ _ _ _ Hraw Hm Hp).
  f_equal. apply verdict_engine_OK. apply verdict_engine_OK in Hv.
  destruct Hv as (m & f' & l' & -> & -> & -> & Em & Et & Hd & Hb & -> & ->).
  exists m, f', l'. repeat (split; [done|]). split; [|done].
  destruct (PrimFloat.ltb t' _) eqn:Hd'; [|done].
  by rewrite (leb_ltb_trans _ _ _ Hle Hd') in Hd.
Qed.

(** A probed duration that is not a number counts as usable and its
    divergence exceeds no tolerance: with a usable timeline and no bad
    combination the file is OK at every tolerance. *)
Theorem nan_duration_is_ok
    (path : Path) (tol : float) (w w1 w2 : World)
    (m : float) (container vcodec : option string)
    (start_time : option float) (f l : float) :
  lower (suffix path) ∉ RAW_EXTS →
  get_meta h path w = (Ok (Some m, container, vcodec, start_time), w1) →
  get_packet_first_last_pts h path w1 = (Ok (Some f, Some l), w2) →
  is_nan m = true →
  PrimFloat.leb l f = false →
  bad_combo container vcodec = false →
  ∃ extras,
    verdict_for_file h path tol w
    = (Ok (OK, "Metadados e pts_time coerentes.", extras), w2).
Proof.
  intros Hraw Hm Hp Hnan Ht Hb.
  rewrite (verdict_for_file_probed h path tol w w1 w2 _ _ _ _ _ _ Hraw Hm Hp).
  eexists. f_equal. apply verdict_engine_OK.
  exists m, f, l. repeat (split; [done|]).
  split; [by apply nan_not_leb|]. split; [done|].
  split; [by apply nan_divergence_not_above|]. done.
Qed.

End Tolerance.

(* ===================================================================== *)
(** ** More on the pipeline per file *)
(* ===================================================================== *)

Lemma repair_chain_wf (v : Verdict) (path : Path) (inplace prefer_mkv : bool)
    (try_fps : list Z) :
  Forall step_wf (repair_chain v path inplace prefer_mkv try_fps).
Proof. destruct v; [apply fix_chain_wf | apply wrap_chain_wf | apply fix_chain_wf]. Qed.

Lemma repair_chain_spares_original (v : Verdict) (path : Path)
    (inplace prefer_mkv : bool) (try_fps : list Z) :
  Forall (λ s, List.last (step_cmd s) "" ≠ str path)
         (repair_chain v path inplace prefer_mkv try_fps).
Proof.
  destruct v; [apply fix_chain_spares_original
              | apply wrap_chain_spares_original
              | apply fix_chain_spares_original].
Qed.

Lemma repair_chain_inplace (v : Verdict) (path : Path) (prefer_mkv : bool)
    (try_fps : list Z) :
  Forall (inplace_step v path) (repair_chain v path true prefer_mkv try_fps).
Proof.
  destruct v; [apply fix_chain_inplace | apply wrap_chain_inplace
              | apply fix_chain_inplace].
Qed.

Lemma repair_chain_side (v : Verdict) (path : Path) (prefer_mkv : bool)
    (try_fps : list Z) :
  Forall side_step (repair_chain v path false prefer_mkv try_fps).
Proof.
  assert (Hfix : ∀ v', Forall side_step (fix_chain v' path false prefer_mkv try_fps)).
  { intros v'. unfold fix_chain. repeat apply Forall_cons_2;
      try (by eexists _, _).
    apply Forall_map, Forall_forall. intros fps _. by eexists _, _. }
  destruct v; [apply Hfix| |apply Hfix].
  apply Forall_map, Forall_forall. intros fps _. by eexists _, _.
Qed.

Lemma chain_failed_failed (v : Verdict) :
  outcome_failed (Ok (chain_failed v)) = true.
Proof. by destruct v. Qed.

Section PipelineMore.

Context (h : Host).

(** The pipeline, from the verdict of the audit: nothing on OK, a plan
    under dry-run, and otherwise the chain of the verdict. *)
Lemma process_one_eq (path : Path) (try_fps : list Z)
    (dry_run inplace prefer_mkv : bool) (tol : float) (w w1 : World)
    (v : Verdict) (reason : string) (extras : gmap string PyVal) :
  name path ≠ "" →
  verdict_for_file h path tol w = (Ok (v, reason, extras), w1) →
  process_one h path try_fps dry_run inplace prefer_mkv tol w
  = if decide (v = OK) then (Ok (v, "none", "", None), w1)
    else if dry_run then (Ok (v, "planned", "", None), w1)
    else run_chain h (chain_failed v)
           (repair_chain v path inplace prefer_mkv try_fps) w1.
Proof.
  intros Hn Hv. destruct (decide (v = OK)) as [->|Hok].
  { unfold process_one. erewrite bind_ok; [|exact Hv]. done. }
  destruct dry_run.
  { unfold process_one. erewrite bind_ok; [|exact Hv]. cbv beta iota zeta.
    by rewrite decide_False by done. }
  destruct v; [done| |].
  - by apply process_one_wrap_chain with reason extras.
  - by apply process_one_fix_chain with reason extras.
Qed.

(** A step of an in-place chain that succeeded, with the original in
    place, promotes without an exception. *)
Lemma promote_inplace_returns (v : Verdict) (path : Path) (s : Step)
    (wk : World) (orig : string) :
  name path ≠ "" →
  step_wf s →
  inplace_step v path s →
  event_ok (repair_event h (step_cmd s) wk) = true →
  fs wk !! str path = Some orig →
  ∃ action outpath w2,
    step_promote s (attempted h (step_cmd s) wk)
    = (Ok (v, action, outpath, None), w2).
Proof.
  intros Hn [Hf Hl] (t & target & li & l & Hd & Htarget & Hp) Hok Ho.
  apply event_ok_inv in Hok as [Hrc (c & Hout & Hc)].
  assert (Htmp : fs (attempted h (step_cmd s) wk) !! str (step_dst s) = Some c).
  { unfold attempted. cbn [fs]. by rewrite Hl, written_lookup. }
  assert (Hfinal : ∃ final, target = Ok final).
  { destruct Htarget as [-> | [b ->]]; [by eexists|].
    rewrite with_suffix_ext by done. by eexists. }
  destruct Hfinal as (final & ->).
  rewrite Hp. unfold promote, mbind, M_bind.
  rewrite (swap_inplace_run path (step_dst s) final _ c t Hn Hd Htmp).
  assert (Hpath : fs (attempted h (step_cmd s) wk) !! str path = Some orig).
  { unfold attempted. cbn [fs]. rewrite Hl, written_lookup_ne; [done|].
    rewrite Hd. apply underscore_sibling_ne_path. }
  rewrite Hpath. by eexists _, _, _.
Qed.

(** In the model the pipeline returns an outcome on a file that exists,
    and the content the file had is still there afterwards. *)
Lemma process_one_keeps_original
    (path : Path) (try_fps : list Z) (dry_run inplace prefer_mkv : bool)
    (tol : float) (w : World) (orig : string) :
  name path ≠ "" →
  fs w !! str path = Some orig →
  ∃ outcome w2,
    process_one h path try_fps dry_run inplace prefer_mkv tol w
    = (Ok outcome, w2)
    ∧ (fs w2 !! str path = Some orig
       ∨ fs w2 !! str (backup_of path) = Some orig).
Proof.
  intros Hn Ho.
  destruct (verdict_for_file_readonly h path tol w)
    as ([[v reason] extras] & probes & Hv & _).
  rewrite (process_one_eq path try_fps dry_run inplace prefer_mkv tol w _
             v reason extras Hn Hv).
  destruct (decide (v = OK)); [by eexists _, _; split; [|left]|].
  destruct dry_run; [by eexists _, _; split; [|left]|].
  set (w1 := mkWorld (fs w) (trace w ++ probes)).
  destruct (run_chain_cases h (chain_failed v)
              (repair_chain v path inplace prefer_mkv try_fps) w1
              (repair_chain_wf _ _ _ _ _))
    as [(pre & s & post & wk & Hplan & Hpre & Hs & Hrun)|(wk & Hall & Hrun)];
    rewrite Hrun.
  - pose proof (repair_chain_wf v path inplace prefer_mkv try_fps) as Hwf.
    pose proof (repair_chain_spares_original v path inplace prefer_mkv try_fps)
      as Hsp.
    rewrite Hplan in Hwf, Hsp.
    apply Forall_app in Hwf as [_ Hwf]. apply Forall_cons in Hwf as [Hwf _].
    apply Forall_app in Hsp as [Hsp_pre Hsp]. apply Forall_cons in Hsp as [Hsp _].
    assert (Hwk : fs wk !! str path = Some orig).
    { by rewrite (all_failed_fs h pre w1 wk (str path) Hpre Hsp_pre). }
    destruct inplace.
    + pose proof (repair_chain_inplace v path prefer_mkv try_fps) as Hin.
      rewrite Hplan in Hin.
      apply Forall_app in Hin as [_ Hin]. apply Forall_cons in Hin as [Hin _].
      destruct (promote_inplace_returns v path s wk orig Hn Hwf Hin Hs Hwk)
        as (action & outpath & w2 & Hp).
      destruct (promoted_inplace h v path s wk w2 v action outpath
                  Hn Hwf Hin Hs Hp)
        as (orig' & repaired & final & unl & Ho' & _ & _ & _ & Hb & _).
      rewrite Hp. eexists _, _. split; [done|]. right. congruence.
    + pose proof (repair_chain_side v path prefer_mkv try_fps) as Hside.
      rewrite Hplan in Hside.
      apply Forall_app in Hside as [_ Hside].
      apply Forall_cons in Hside as [(v' & label & Hp) _].
      rewrite Hp. eexists _, _. split; [done|]. left.
      unfold attempted. cbn [fs]. by rewrite written_lookup_ne.
  - eexists _, _. split; [done|]. left.
    by rewrite (all_failed_fs h _ w1 wk (str path) Hall
                  (repair_chain_spares_original _ _ _ _ _)).
Qed.

(** A run of the pipeline that returns, in whatever mode, has not lost the
    original: the content the file had is still there, under its own name
    or, after an in-place promotion, under the backup name. *)
Theorem repair_never_loses_original
    (path : Path) (try_fps : list Z) (dry_run inplace prefer_mkv : bool)
    (tol : float) (w w2 : World) (orig : string) (outcome : Outcome) :
  name path ≠ "" →
  fs w !! str path = Some orig →
  process_one h path try_fps dry_run inplace prefer_mkv tol w
    = (Ok outcome, w2) →
  fs w2 !! str path = Some orig
  ∨ fs w2 !! str (backup_of path) = Some orig.
Proof.
  intros Hn Ho Hrun.
  destruct (process_one_keeps_original path try_fps dry_run inplace prefer_mkv
              tol w orig Hn Ho) as (o & w2' & Hrun' & Hkept).
  rewrite Hrun in Hrun'. by injection Hrun' as _ <-.
Qed.

(** An outcome that reports no error and names an output names a file that
    exists and is not empty. *)
Theorem reported_output_exists
    (path : Path) (try_fps : list Z) (dry_run inplace prefer_mkv : bool)
    (tol : float) (w w2 : World) (v : Verdict) (action outpath : string) :
  name path ≠ "" →
  process_one h path try_fps dry_run inplace prefer_mkv tol w
    = (Ok (v, action, outpath, None), w2) →
  outpath ≠ "" →
  ∃ c, fs w2 !! outpath = Some c ∧ (0 < String.length c)%nat.
Proof.
  intros Hn Hrun Hout.
  destruct (verdict_for_file_readonly h path tol w)
    as ([[v' reason] extras] & probes & Hv & _).
  rewrite (process_one_eq path try_fps dry_run inplace prefer_mkv tol w _
             v' reason extras Hn Hv) in Hrun.
  destruct (decide (v' = OK)); [by injection Hrun as _ _ <- _|].
  destruct dry_run; [by injection Hrun as _ _ <- _|].
  destruct inplace.
  - destruct (inplace_chain_success h (chain_failed v') _ v' path _ w2
                v action outpath Hn (repair_chain_wf _ _ _ _ _)
                (repair_chain_inplace _ _ _ _) (chain_failed_failed v') Hrun)
      as (orig & repaired & tmp & final & cmd & before & unl & _ & _ & ->
          & Hlen & _ & Hf & _).
    by exists repaired.
  - destruct (run_chain_cases h (chain_failed v')
                (repair_chain v' path false prefer_mkv try_fps)
                (mkWorld (fs w) (trace w ++ probes))
                (repair_chain_wf _ _ _ _ _))
      as [(pre & s & post & wk & Hplan & Hpre & Hs & Hrun')|(wk & Hall & Hrun')];
      rewrite Hrun' in Hrun.
    + pose proof (repair_chain_wf v' path false prefer_mkv try_fps) as Hwf.
      pose proof (repair_chain_side v' path prefer_mkv try_fps) as Hside.
      rewrite Hplan in Hwf, Hside.
      apply Forall_app in Hwf as [_ Hwf].
      apply Forall_cons in Hwf as [[_ Hl] _].
      apply Forall_app in Hside as [_ Hside].
      apply Forall_cons in Hside as [(v'' & label & Hp) _].
      rewrite Hp, ret_eq in Hrun. injection Hrun as _ _ <- <-.
      apply event_ok_inv in Hs as [_ (c & Hc & Hlen)].
      exists c. split; [|done]. unfold attempted. cbn [fs].
      by rewrite <- Hl, written_lookup.
    + injection Hrun as Hf _. by destruct v'.
Qed.

End PipelineMore.

(* ===================================================================== *)
(** ** The loop of [main] *)
(* ===================================================================== *)

Lemma verdict_name_inj (v v' : Verdict) :
  verdict_name v = verdict_name v' → v = v'.
Proof. by destruct v, v'. Qed.

Lemma count_verdict_lookup (counts : gmap string nat) (v v' : Verdict) :
  default 0%nat (count_verdict counts v !! verdict_name v')
  = (default 0%nat (counts !! verdict_name v')
     + if decide (v = v') then 1 else 0)%nat.
Proof.
  unfold count_verdict. destruct (decide (v = v')) as [->|Hne].
  - by rewrite lookup_insert_eq.
  - rewrite lookup_insert_ne; [simpl; lia|].
    intros H. by apply verdict_name_inj in H.
Qed.

Lemma count_verdict_is_Some (counts : gmap string nat) (v v' : Verdict) :
  is_Some (counts !! verdict_name v') →
  is_Some (count_verdict counts v !! verdict_name v').
Proof.
  intros Hs. unfold count_verdict.
  destruct (decide (verdict_name v = verdict_name v')) as [->|Hne].
  - rewrite lookup_insert_eq. by eexists.
  - by rewrite lookup_insert_ne.
Qed.

Lemma rows_with_app (v : Verdict) (rows new : list Row) :
  rows_with v (rows ++ new) = rows_with v rows ++ rows_with v new.
Proof. unfold rows_with. apply filter_app. Qed.

Lemma rows_with_total (rows : list Row) :
  (length (rows_with OK rows) + length (rows_with WRAP rows)
   + length (rows_with FIX rows))%nat = length rows.
Proof.
  induction rows as [|r rows IH]; [done|].
  unfold rows_with in *. rewrite !filter_cons.
  destruct (veredito r); repeat case_decide; try done; simpl; lia.
Qed.

Section MainLoop.

Context (h : Host).

(** One turn of the loop: the row of the target, with the verdict of the
    audit. *)
Lemma main_loop_body_row (p : Path) (tol : float) (try_fps : list Z)
    (dry_run inplace prefer_mkv : bool) (w w' : World) (row : Row) :
  main_loop_body h p tol try_fps dry_run inplace prefer_mkv w = (Ok row, w') →
  arquivo row = str p
  ∧ (veredito row = WRAP ↔ lower (suffix p) ∈ RAW_EXTS).
Proof.
  intros Hrun.
  destruct (verdict_for_file_readonly h p tol w)
    as ([[v reason] extras] & probes & Hv & _).
  assert (Hwrap : v = WRAP ↔ lower (suffix p) ∈ RAW_EXTS).
  { destruct (decide (lower (suffix p) ∈ RAW_EXTS)) as [Hraw|Hraw].
    - rewrite verdict_for_file_raw in Hv by done. by injection Hv as <- _ _ _.
    - destruct (verdict_for_file_nonraw h p tol w Hraw)
        as (md & c & vc & stt & f & l & _ & _ & Heq).
      rewrite Heq in Hv. injection Hv as Hv _.
      apply verdict_engine_not_wrap in Hv. by split. }
  unfold main_loop_body in Hrun. erewrite bind_ok in Hrun; [|exact Hv].
  cbv beta iota in Hrun.
  destruct (_ && _).
  - unfold mbind, M_bind in Hrun.
    destruct (process_one h p try_fps dry_run inplace prefer_mkv tol _)
      as [[[[[v2 action] outpath] err]|e] w2]; [|done].
    rewrite ret_eq in Hrun. by injection Hrun as <- _.
  - rewrite ret_eq in Hrun. by injection Hrun as <- _.
Qed.

Lemma main_loop_acc (targets : list Path) (tol : float) (try_fps : list Z)
    (dry_run inplace prefer_mkv : bool) (rows : list Row)
    (counts : gmap string nat) (w w' : World)
    (rows' : list Row) (counts' : gmap string nat) :
  main_loop h targets tol try_fps dry_run inplace prefer_mkv rows counts w
    = (Ok (rows', counts'), w') →
  ∃ new,
    rows' = rows ++ new
    ∧ map arquivo new = map str targets
    ∧ Forall2 (λ r p, veredito r = WRAP ↔ lower (suffix p) ∈ RAW_EXTS)
              new targets
    ∧ (∀ v, default 0%nat (counts' !! verdict_name v)
            = (default 0%nat (counts !! verdict_name v)
               + length (rows_with v new))%nat)
    ∧ (∀ v, is_Some (counts !! verdict_name v) →
            is_Some (counts' !! verdict_name v)).
Proof.
  revert rows counts w. induction targets as [|p rest IH]; intros rows counts w.
  - cbn [main_loop]. rewrite ret_eq. intros [= <- <- <-].
    exists []. rewrite app_nil_r. repeat split; try done.
  - cbn [main_loop]. unfold mbind, M_bind.
    destruct (main_loop_body h p tol try_fps dry_run inplace prefer_mkv w)
      as [[row|e] w1] eqn:Hbody; [|done].
    intros Hrest. apply IH in Hrest
      as (new & -> & Hfiles & Hwrap & Hcounts & Hsome).
    apply main_loop_body_row in Hbody as [Hfile Hw].
    exists (row :: new). split; [by rewrite <- app_assoc|].
    split; [simpl; by rewrite Hfile, Hfiles|].
    split; [by constructor|]. split.
    + intros v. rewrite Hcounts, count_verdict_lookup.
      unfold rows_with. rewrite filter_cons.
      destruct (decide (veredito row = v)); simpl; lia.
    + intros v Hv. by apply Hsome, count_verdict_is_Some.
Qed.

(** When the loop of [main] ends, there is one row per target, in the order
    of the targets; each counter is the number of rows with its verdict, so
    the three counters add up to the number of targets; and the rows with
    WRAP are those of the raw bitstreams. *)
Theorem main_loop_rows_and_counts
    (targets : list Path) (tol : float) (try_fps : list Z)
    (dry_run inplace prefer_mkv : bool) (w w' : World)
    (rows : list Row) (counts : gmap string nat) :
  main_loop h targets tol try_fps dry_run inplace prefer_mkv [] counts_init w
    = (Ok (rows, counts), w') →
  map arquivo rows = map str targets
  ∧ (∀ v, counts !! verdict_name v = Some (length (rows_with v rows)))
  ∧ (length (rows_with OK rows) + length (rows_with WRAP rows)
     + length (rows_with FIX rows))%nat = length targets
  ∧ Forall2 (λ r p, veredito r = WRAP ↔ lower (suffix p) ∈ RAW_EXTS)
            rows targets.
Proof.
  intros Hrun. apply main_loop_acc in Hrun
    as (new & -> & Hfiles & Hwrap & Hcounts & Hsome).
  rewrite app_nil_l. split; [done|]. split.
  - intros v. specialize (Hcounts v).
    destruct (Hsome v) as [n Hn]; [by destruct v; eexists|].
    rewrite Hn in Hcounts |- *. simpl in Hcounts.
    f_equal. rewrite Hcounts. by destruct v.
  - split; [|done]. rewrite rows_with_total.
    by rewrite <- (length_map arquivo), Hfiles, length_map.
Qed.

(** One turn of the loop under dry-run. *)
Lemma main_loop_body_dry (p : Path) (tol : float) (try_fps : list Z)
    (inplace prefer_mkv : bool) (w : World) :
  ∃ v reason probes,
    main_loop_body h p tol try_fps true inplace prefer_mkv w
    = (Ok (mkRow (str p) v reason "none" "" ""),
       mkWorld (fs w) (trace w ++ probes))
    ∧ forallb is_probe probes = true.
Proof.
  destruct (verdict_for_file_readonly h p tol w)
    as ([[v reason] extras] & probes & Hv & Hp).
  exists v, reason, probes. split; [|done].
  unfold main_loop_body. erewrite bind_ok; [|exact Hv]. cbv beta iota.
  by rewrite andb_false_r.
Qed.

Lemma main_loop_dry_acc (targets : list Path) (tol : float) (try_fps : list Z)
    (inplace prefer_mkv : bool) (rows : list Row) (counts : gmap string nat)
    (w : World) :
  ∃ new counts' probes,
    main_loop h targets tol try_fps true inplace prefer_mkv rows counts w
    = (Ok (rows ++ new, counts'), mkWorld (fs w) (trace w ++ probes))
    ∧ forallb is_probe probes = true
    ∧ Forall (λ r, acao r = "none" ∧ saida r = "" ∧ erro r = "") new.
Proof.
  revert rows counts w. induction targets as [|p rest IH]; intros rows counts w.
  - exists [], counts, []. rewrite !app_nil_r. split; [by destruct w|]. done.
  - destruct (main_loop_body_dry p tol try_fps inplace prefer_mkv w)
      as (v & reason & probes & Hbody & Hp).
    cbn [main_loop]. erewrite bind_ok; [|exact Hbody].
    destruct (IH (rows ++ [mkRow (str p) v reason "none" "" ""])
                 (count_verdict counts (veredito (mkRow (str p) v reason "none" "" "")))
                 (mkWorld (fs w) (trace w ++ probes)))
      as (new & counts' & probes' & Hrest & Hp' & Hnew).
    exists (mkRow (str p) v reason "none" "" "" :: new), counts',
      (probes ++ probes').
    rewrite Hrest. cbn [fs trace]. rewrite <- !app_assoc.
    split; [done|]. split; [by rewrite forallb_app, Hp, Hp'|].
    by constructor.
Qed.

(** A dry run that ends has changed no file and run nothing but probes, and
    every row of its report has the action "none", no output and no
    error. *)
Theorem dry_run_loop_changes_nothing
    (targets : list Path) (tol : float) (try_fps : list Z)
    (inplace prefer_mkv : bool) (w w' : World)
    (rows : list Row) (counts : gmap string nat) :
  main_loop h targets tol try_fps true inplace prefer_mkv [] counts_init w
    = (Ok (rows, counts), w') →
  fs w' = fs w
  ∧ (∃ probes, trace w' = trace w ++ probes ∧ forallb is_probe probes = true)
  ∧ Forall (λ r, acao r = "none" ∧ saida r = "" ∧ erro r = "") rows.
Proof.
  intros Hrun.
  destruct (main_loop_dry_acc targets tol try_fps inplace prefer_mkv []
              counts_init w)
    as (new & counts' & probes & Hrun' & Hp & Hnew).
  rewrite Hrun in Hrun'. injection Hrun' as -> _ ->.
  split; [done|]. split; [by exists probes|]. done.
Qed.

End MainLoop.

(* ===================================================================== *)
(** ** Extensions are compared without case *)
(* ===================================================================== *)

Lemma lower_ascii_dot (a : ascii) :
  Ascii.eqb (lower_ascii a) "." = Ascii.eqb a ".".
Proof. by destruct a as [[] [] [] [] [] [] [] []]. Qed.

Lemma lower_length (s : string) : String.length (lower s) = String.length s.
Proof. induction s as [|a s IH]; [done|]. cbn. by rewrite IH. Qed.

Lemma rfind_lower (s : string) : rfind "." (lower s) = rfind "." s.
Proof.
  induction s as [|a s IH]; [done|].
  cbn [lower rfind]. by rewrite IH, lower_ascii_dot.
Qed.

Lemma substring_lower (s : string) (i n : nat) :
  String.substring i n (lower s) = lower (String.substring i n s).
Proof.
  revert i n. induction s as [|a s IH]; intros i n.
  - by destruct i, n.
  - destruct i as [|i].
    + destruct n as [|n]; [done|]. cbn [lower String.substring].
      by rewrite IH.
    + cbn [lower String.substring]. apply IH.
Qed.

Lemma suffix_lower (d d' n : string) :
  suffix (mkPath d' (lower n)) = lower (suffix (mkPath d n)).
Proof.
  unfold suffix, suffix_index. cbn [name].
  rewrite rfind_lower, lower_length.
  destruct (rfind "." n) as [i|]; [|done].
  destruct (_ && _); [|done]. apply substring_lower.
Qed.

Lemma lower_suffix_same (p q : Path) :
  lower (name p) = lower (name q) →
  lower (suffix q) = lower (suffix p).
Proof.
  destruct p as [dp np], q as [dq nq]. cbn [name]. intros Hn.
  by rewrite <- (suffix_lower dq "" nq), <- (suffix_lower dp "" np), Hn.
Qed.

Section Case.

Context (h : Host).

(** The extension is compared in lower case, and only the file name counts:
    two files whose names differ by the case of their letters, in whatever
    directories, have the same lower-cased extension, and when it is one of
    a raw bitstream both get WRAP, with the same reason and payload, without
    a probe. *)
Theorem raw_detection_ignores_case
    (p q : Path) (tol : float) (w : World) :
  lower (name p) = lower (name q) →
  lower (suffix p) ∈ RAW_EXTS →
  lower (suffix q) = lower (suffix p)
  ∧ verdict_for_file h q tol w = verdict_for_file h p tol w
  ∧ verdict_for_file h q tol w
    = (Ok (WRAP,
           "Bitstream cru (" +:+ lower (suffix p) +:+ "); precisa contêiner + FPS.",
           {[ "ext" := VStr (lower (suffix p)) ]}),
       w).
Proof.
  intros Hn Hraw. pose proof (lower_suffix_same p q Hn) as Hs.
  split; [done|].
  rewrite (verdict_for_file_raw h p) by done.
  rewrite (verdict_for_file_raw h q) by (by rewrite Hs).
  by rewrite Hs.
Qed.

End Case.

(* ===================================================================== *)
(** ** The rows of the report *)
(* ===================================================================== *)

Lemma bind_inv {A B : Type} (m : M A) (k : A → M B) (w w' : World) (b : B) :
  (m ≫= k) w = (Ok b, w') →
  ∃ a w1, m w = (Ok a, w1) ∧ k a w1 = (Ok b, w').
Proof.
  unfold mbind, M_bind. destruct (m w) as [[a|e] w1]; [|done].
  intros H. by exists a, w1.
Qed.

Lemma lacks_app (c : ascii) (a b : string) :
  lacks c (a +:+ b) = lacks c a && lacks c b.
Proof.
  induction a as [|x a IH]; [done|].
  rewrite append_cons. cbn [lacks]. rewrite IH. by destruct (negb _).
Qed.

Lemma lacks_failed (s : string) :
  lacks "f" s = true → contains "failed" s = false.
Proof.
  induction s as [|a s IH]; [done|].
  cbn [lacks contains]. intros [Ha Hs]%andb_true_iff.
  rewrite IH, orb_false_r by done.
  cbn [String.prefix]. destruct (ascii_dec "f" a) as [<-|]; done.
Qed.

Lemma lacks_uint (d : Decimal.uint) : lacks "f" (NilEmpty.string_of_uint d) = true.
Proof. induction d; done. Qed.

Lemma lacks_str_int (n : Z) : lacks "f" (str_int n) = true.
Proof.
  unfold str_int, NilZero.string_of_int, NilZero.string_of_uint.
  destruct (Z.to_int n) as [d|d].
  - destruct d; try done; apply (lacks_uint (_ _)).
  - cbn [lacks]. destruct d; try done; apply (lacks_uint (_ _)).
Qed.

Lemma lacks_fps_label (fps_in : option Z) : lacks "f" (fps_label fps_in) = true.
Proof.
  unfold fps_label. destruct (fps_hint fps_in); [apply lacks_str_int | done].
Qed.

(** The labels of the successful actions never hold "failed". *)
Lemma wrap_label_clean (fps : Z) (post : string) :
  lacks "f" post = true →
  contains "failed" ("wrap(" +:+ str_int fps +:+ post) = false.
Proof.
  intros Hp. apply lacks_failed.
  by rewrite !lacks_app, lacks_str_int, Hp.
Qed.

Lemma reencode_label_clean (fps_in : option Z) (post : string) :
  lacks "f" post = true →
  contains "failed" ("reencode_cfr(" +:+ fps_label fps_in +:+ post) = false.
Proof.
  intros Hp.
  change (contains "failed" ("reencode_cfr(" +:+ fps_label fps_in +:+ post))
    with (contains "failed" (fps_label fps_in +:+ post)).
  apply lacks_failed. by rewrite lacks_app, lacks_fps_label, Hp.
Qed.

Lemma outcome_consistent_done (v : Verdict) (action outpath : string) :
  contains "failed" action = false →
  outcome_consistent (v, action, outpath, None).
Proof. intros Ha. unfold outcome_consistent. rewrite Ha. by split. Qed.

Section Report.

Context (h : Host).

Lemma wrap_loop_consistent (verdict : Verdict) (path : Path) (inplace : bool)
    (ext_out : string) (try_fps : list Z) (w w' : World) (o : Outcome) :
  wrap_loop h verdict path inplace ext_out try_fps w = (Ok o, w') →
  outcome_consistent o.
Proof.
  revert w. induction try_fps as [|fps rest IH]; intros w.
  - cbn [wrap_loop]. rewrite ret_eq. intros [= <- _]. by split.
  - cbn [wrap_loop]. intros H.
    apply bind_inv in H as (dst & w1 & _ & H).
    apply bind_inv in H as (tmp & w2 & _ & H).
    apply bind_inv in H as ([] & w3 & _ & H); [|by eapply IH].
    destruct inplace.
    + apply bind_inv in H as (final & w4 & _ & H).
      rewrite ret_eq in H. injection H as <- _.
      by apply outcome_consistent_done, wrap_label_clean.
    + rewrite ret_eq in H. injection H as <- _.
      by apply outcome_consistent_done, wrap_label_clean.
Qed.

Lemma reencode_loop_consistent (verdict : Verdict) (path : Path)
    (inplace prefer_mkv : bool) (ext_out : string) (fpss : list (option Z))
    (w w' : World) (o : Outcome) :
  reencode_loop h verdict path inplace prefer_mkv ext_out fpss w = (Ok o, w') →
  outcome_consistent o.
Proof.
  revert w. induction fpss as [|fps_in rest IH]; intros w.
  - cbn [reencode_loop]. rewrite ret_eq. intros [= <- _]. by split.
  - cbn [reencode_loop]. intros H.
    apply bind_inv in H as (dst & w1 & _ & H).
    apply bind_inv in H as (tmp & w2 & _ & H).
    apply bind_inv in H as ([] & w3 & _ & H); [|by eapply IH].
    destruct inplace.
    + apply bind_inv in H as (final & w4 & _ & H).
      rewrite ret_eq in H. injection H as <- _.
      by apply outcome_consistent_done, reencode_label_clean.
    + rewrite ret_eq in H. injection H as <- _.
      by apply outcome_consistent_done, reencode_label_clean.
Qed.

Lemma process_one_consistent (path : Path) (try_fps : list Z)
    (dry_run inplace prefer_mkv : bool) (tol : float) (w w' : World)
    (o : Outcome) :
  process_one h path try_fps dry_run inplace prefer_mkv tol w = (Ok o, w') →
  outcome_consistent o.
Proof.
  unfold process_one. intros H.
  apply bind_inv in H as ([[v reason] extras] & w1 & _ & H).
  cbv beta iota zeta in H.
  destruct (decide (v = OK)).
  { rewrite ret_eq in H. injection H as <- _. by apply outcome_consistent_done. }
  destruct dry_run.
  { rewrite ret_eq in H. injection H as <- _. by apply outcome_consistent_done. }
  destruct (decide (v = WRAP)); [by eapply wrap_loop_consistent|].
  apply bind_inv in H as (mkv_dst & w2 & _ & H).
  apply bind_inv in H as (mkv_tmp & w3 & _ & H).
  apply bind_inv in H as ([] & w4 & _ & H).
  { destruct inplace.
    - apply bind_inv in H as (final & w5 & _ & H).
      rewrite ret_eq in H. injection H as <- _.
      by apply outcome_consistent_done.
    - rewrite ret_eq in H. injection H as <- _.
      by apply outcome_consistent_done. }
  apply bind_inv in H as (mp4_dst & w5 & _ & H).
  apply bind_inv in H as (mp4_tmp & w6 & _ & H).
  apply bind_inv in H as ([] & w7 & _ & H).
  { destruct inplace.
    - apply bind_inv in H as (final & w8 & _ & H).
      rewrite ret_eq in H. injection H as <- _.
      by apply outcome_consistent_done.
    - rewrite ret_eq in H. injection H as <- _.
      by apply outcome_consistent_done. }
  by eapply reencode_loop_consistent.
Qed.

Lemma main_loop_body_consistent (p : Path) (tol : float) (try_fps : list Z)
    (dry_run inplace prefer_mkv : bool) (w w' : World) (row : Row) :
  main_loop_body h p tol try_fps dry_run inplace prefer_mkv w = (Ok row, w') →
  row_consistent row.
Proof.
  unfold main_loop_body. intros H.
  apply bind_inv in H as ([[v reason] extras] & w1 & _ & H).
  cbv beta iota in H.
  destruct (bool_decide (v = WRAP ∨ v = FIX)) eqn:Hv; cbn [andb] in H.
  - destruct (negb dry_run).
    + apply bind_inv in H as ([[[v2 action] outpath] err] & w2 & Hp & H).
      rewrite ret_eq in H. injection H as <- _.
      apply process_one_consistent in Hp as [Hf He].
      unfold row_consistent. cbn [acao erro saida veredito].
      split; [done|]. split; [done|].
      apply bool_decide_eq_true_1 in Hv. intros ->. by destruct Hv.
    + rewrite ret_eq in H. injection H as <- _. by repeat split.
  - rewrite ret_eq in H. injection H as <- _. by repeat split.
Qed.

(** What holds of the row of every turn holds of every row of the
    report. *)
Lemma main_loop_Forall (P : Row → Prop) (targets : list Path) (tol : float)
    (try_fps : list Z) (dry_run inplace prefer_mkv : bool) (rows : list Row)
    (counts : gmap string nat) (w w' : World)
    (rows' : list Row) (counts' : gmap string nat) :
  (∀ p w1 w2 row,
     main_loop_body h p tol try_fps dry_run inplace prefer_mkv w1 = (Ok row, w2) →
     P row) →
  main_loop h targets tol try_fps dry_run inplace prefer_mkv rows counts w
    = (Ok (rows', counts'), w') →
  Forall P rows → Forall P rows'.
Proof.
  intros Hbody. revert rows counts w.
  induction targets as [|p rest IH]; intros rows counts w.
  - cbn [main_loop]. rewrite ret_eq. by intros [= <- _ _].
  - cbn [main_loop]. intros H Hrows.
    apply bind_inv in H as (row & w1 & Hrow & H).
    apply IH in H; [done|].
    apply Forall_app. split; [done|].
    constructor; [|done]. by eapply Hbody.
Qed.

(** Every row of the report is consistent: its action says "failed" exactly
    when it has an error text, which is when [main] prints the error; a row
    with an error text has no output path; and a row with the verdict OK has
    the action "none" and no output path. *)
Theorem report_rows_are_consistent
    (targets : list Path) (tol : float) (try_fps : list Z)
    (dry_run inplace prefer_mkv : bool) (w w' : World)
    (rows : list Row) (counts : gmap string nat) :
  main_loop h targets tol try_fps dry_run inplace prefer_mkv [] counts_init w
    = (Ok (rows, counts), w') →
  Forall row_consistent rows.
Proof.
  intros H. eapply main_loop_Forall; [|exact H|done].
  intros p w1 w2 row. apply main_loop_body_consistent.
Qed.

End Report.

(* ===================================================================== *)
(** ** The targets of a directory *)
(* ===================================================================== *)

Lemma Forall2_filter_length {A B : Type} (P : A → Prop) (Q : B → Prop)
    `{!∀ a, Decision (P a)} `{!∀ b, Decision (Q b)}
    (l : list A) (k : list B) :
  Forall2 (λ a b, P a ↔ Q b) l k →
  length (filter P l) = length (filter Q k).
Proof.
  induction 1 as [|a b l k Hab _ IH]; [done|].
  rewrite !filter_cons.
  destruct (decide (P a)), (decide (Q b)); simpl; try lia; tauto.
Qed.

Lemma raw_targets_of_walk (root : Path) (walk : list Path) :
  filter (λ p, lower (suffix p) ∈ RAW_EXTS) (targets_of root false walk)
  = filter (λ p, lower (suffix p) ∈ RAW_EXTS) walk.
Proof.
  unfold targets_of. induction walk as [|p walk IH]; [done|].
  rewrite !filter_cons.
  destruct (decide (lower (suffix p) ∈ RAW_EXTS)) as [Hraw|Hraw].
  - rewrite decide_True by (by apply elem_of_union_r).
    rewrite filter_cons, decide_True by done. by rewrite IH.
  - destruct (decide (lower (suffix p) ∈ VIDEO_EXTS)); [|done].
    rewrite filter_cons, decide_False by done. done.
Qed.

Section Walk.

Context (h : Host).

(** On a directory whose file names are ASCII, where [lower] is
    [str.lower()] and [targets_of] is the list [main] builds, the rows of
    the report are the files of the walk with a video extension, in the
    order of the walk, and the WRAP counter is the number of raw bitstream
    files in the walk: every raw bitstream under the directory is a target,
    and nothing else gets WRAP. *)
Theorem directory_wrap_count_is_raw_files
    (root : Path) (walk : list Path) (tol : float) (try_fps : list Z)
    (dry_run inplace prefer_mkv : bool) (w w' : World)
    (rows : list Row) (counts : gmap string nat) :
  Forall (λ p, is_ascii (name p) = true) walk →
  main_loop h (targets_of root false walk) tol try_fps dry_run inplace
            prefer_mkv [] counts_init w
    = (Ok (rows, counts), w') →
  map arquivo rows
  = map str (filter (λ p, lower (suffix p) ∈ VIDEO_EXTS) walk)
  ∧ counts !! "WRAP"
    = Some (length (filter (λ p, lower (suffix p) ∈ RAW_EXTS) walk)).
Proof.
  intros _ Hrun. apply main_loop_acc in Hrun
    as (new & -> & Hfiles & Hwrap & Hcounts & Hsome).
  rewrite app_nil_l. split; [done|].
  specialize (Hcounts WRAP).
  destruct (Hsome WRAP) as [n Hn]; [by eexists|].
  cbn [verdict_name] in Hcounts, Hn. rewrite Hn in Hcounts |- *.
  simpl in Hcounts. f_equal. rewrite Hcounts.
  rewrite <- (raw_targets_of_walk root walk).
  by apply (Forall2_filter_length (λ r, veredito r = WRAP)
              (λ p, lower (suffix p) ∈ RAW_EXTS)).
Qed.

End Walk.

(* ===================================================================== *)
(** ** The audit is a function of the files; rows act on their verdict *)
(* ===================================================================== *)

Section Family.

Context (h : Host).

Lemma get_meta_frame (path : Path) (w w0 : World) :
  fs w = fs w0 → (get_meta h path w).1 = (get_meta h path w0).1.
Proof.
  intros Hfs. unfold get_meta.
  erewrite (bind_ok _ _ w); [|apply ffprobe_json_eq].
  erewrite (bind_ok _ _ w0); [|apply ffprobe_json_eq].
  rewrite Hfs. cbv zeta.
  destruct (if negb _ then _ else _) as [data|]; [|done].
  destruct (doc_is_empty data); [done|].
  by destruct (fold_left _ _ _).
Qed.

(** The audit asks the host about the files only: on two worlds with the
    same files it gives the same answer. *)
Lemma verdict_for_file_frame (path : Path) (tol : float) (w w0 : World) :
  fs w = fs w0 →
  (verdict_for_file h path tol w).1 = (verdict_for_file h path tol w0).1.
Proof.
  intros Hfs. destruct (decide (lower (suffix path) ∈ RAW_EXTS)) as [Hraw|Hraw].
  - by rewrite !verdict_for_file_raw by done.
  - destruct (verdict_for_file_nonraw h path tol w Hraw)
      as (md & c & vc & stt & f & l & Hm & Hp & ->).
    destruct (verdict_for_file_nonraw h path tol w0 Hraw)
      as (md0 & c0 & vc0 & stt0 & f0 & l0 & Hm0 & Hp0 & ->).
    cbn [fst].
    pose proof (get_meta_frame path w w0 Hfs) as Hmeta.
    rewrite Hm, Hm0 in Hmeta. cbn [fst] in Hmeta.
    rewrite get_packet_first_last_pts_eq in Hp, Hp0.
    cbn [after_meta fs] in Hp, Hp0. rewrite Hfs in Hp.
    injection Hp as Hp _. injection Hp0 as Hp0 _.
    rewrite Hp0 in Hp. by simplify_eq.
Qed.

Lemma wrap_loop_family (verdict : Verdict) (path : Path) (inplace : bool)
    (ext_out : string) (try_fps : list Z) (w w' : World)
    (v : Verdict) (action outpath : string) (err : option string) :
  wrap_loop h verdict path inplace ext_out try_fps w
    = (Ok (v, action, outpath, err), w') →
  v = verdict ∧ String.prefix "wrap" action = true.
Proof.
  revert w. induction try_fps as [|fps rest IH]; intros w.
  - cbn [wrap_loop]. rewrite ret_eq. by intros [= <- <- _ _].
  - cbn [wrap_loop]. intros H.
    apply bind_inv in H as (dst & w1 & _ & H).
    apply bind_inv in H as (tmp & w2 & _ & H).
    apply bind_inv in H as ([] & w3 & _ & H); [|by eapply IH].
    destruct inplace.
    + apply bind_inv in H as (final & w4 & _ & H).
      rewrite ret_eq in H. by injection H as <- <- _ _.
    + rewrite ret_eq in H. by injection H as <- <- _ _.
Qed.

Lemma reencode_loop_family (verdict : Verdict) (path : Path)
    (inplace prefer_mkv : bool) (ext_out : string) (fpss : list (option Z))
    (w w' : World)
    (v : Verdict) (action outpath : string) (err : option string) :
  reencode_loop h verdict path inplace prefer_mkv ext_out fpss w
    = (Ok (v, action, outpath, err), w') →
  v = verdict ∧ String.prefix "reencode" action = true.
Proof.
  revert w. induction fpss as [|fps_in rest IH]; intros w.
  - cbn [reencode_loop]. rewrite ret_eq. by intros [= <- <- _ _].
  - cbn [reencode_loop]. intros H.
    apply bind_inv in H as (dst & w1 & _ & H).
    apply bind_inv in H as (tmp & w2 & _ & H).
    apply bind_inv in H as ([] & w3 & _ & H); [|by eapply IH].
    destruct inplace.
    + apply bind_inv in H as (final & w4 & _ & H).
      rewrite ret_eq in H. by injection H as <- <- _ _.
    + rewrite ret_eq in H. by injection H as <- <- _ _.
Qed.

(** Live repair returns the verdict of its own audit with an action of the
    family of that verdict. *)
Lemma process_one_family (path : Path) (try_fps : list Z)
    (inplace prefer_mkv : bool) (tol : float) (w w' : World)
    (v : Verdict) (action outpath : string) (err : option string) :
  process_one h path try_fps false inplace prefer_mkv tol w
    = (Ok (v, action, outpath, err), w') →
  action_family v action = true
  ∧ ∃ reason extras w1,
      verdict_for_file h path tol w = (Ok (v, reason, extras), w1).
Proof.
  unfold process_one. intros H.
  apply bind_inv in H as ([[v0 reason] extras] & w1 & Hv & H).
  cbv beta iota zeta in H.
  assert (v = v0 ∧ action_family v0 action = true) as [-> Hf];
    [|split; [done|by exists reason, extras, w1]].
  destruct (decide (v0 = OK)) as [->|Hok].
  { rewrite ret_eq in H. by injection H as <- <- _ _. }
  destruct (decide (v0 = WRAP)) as [->|Hwrap].
  { by apply wrap_loop_family in H. }
  destruct v0; [done|done|].
  apply bind_inv in H as (mkv_dst & w2 & _ & H).
  apply bind_inv in H as (mkv_tmp & w3 & _ & H).
  apply bind_inv in H as ([] & w4 & _ & H).
  { destruct inplace.
    - apply bind_inv in H as (final & w5 & _ & H).
      rewrite ret_eq in H. by injection H as <- <- _ _.
    - rewrite ret_eq in H. by injection H as <- <- _ _. }
  apply bind_inv in H as (mp4_dst & w5 & _ & H).
  apply bind_inv in H as (mp4_tmp & w6 & _ & H).
  apply bind_inv in H as ([] & w7 & _ & H).
  { destruct inplace.
    - apply bind_inv in H as (final & w8 & _ & H).
      rewrite ret_eq in H. by injection H as <- <- _ _.
    - rewrite ret_eq in H. by injection H as <- <- _ _. }
  apply reencode_loop_family in H as [-> Hp].
  split; [done|]. cbn [action_family]. rewrite Hp. by rewrite !orb_true_r.
Qed.

Lemma main_loop_body_family (p : Path) (tol : float) (try_fps : list Z)
    (inplace prefer_mkv : bool) (w w' : World) (row : Row) :
  main_loop_body h p tol try_fps false inplace prefer_mkv w = (Ok row, w') →
  action_family (veredito row) (acao row) = true.
Proof.
  unfold main_loop_body. intros H.
  destruct (verdict_for_file_readonly h p tol w) as (r & probes & Hr & _).
  apply bind_inv in H as ([[v reason] extras] & w1 & Hv & H).
  cbv beta iota in H.
  destruct (bool_decide (v = WRAP ∨ v = FIX)) eqn:Hc; cbn [andb negb] in H.
  - apply bind_inv in H as ([[[v2 action] outpath] err] & w2 & Hp & H).
    rewrite ret_eq in H. injection H as <- _. cbn [veredito acao].
    apply process_one_family in Hp as (Hf & reason2 & extras2 & w1' & Hv2).
    assert (Hfs : fs w1 = fs w).
    { rewrite Hv in Hr. by injection Hr as _ ->. }
    pose proof (verdict_for_file_frame p tol w1 w Hfs) as Hsame.
    rewrite Hv2, Hv in Hsame. cbn [fst] in Hsame. by simplify_eq.
  - rewrite ret_eq in H. injection H as <- _. cbn [veredito acao].
    apply bool_decide_eq_false_1 in Hc. destruct v; [done| |]; tauto.
Qed.

(** [main] audits a file, and [process_one] audits it again before it
    repairs. The two audits agree, so in a live run the action of every row
    belongs to the verdict of that row: "none" for OK, a wrap or
    "wrap_failed" for WRAP, a remux, a faststart copy, a re-encode or
    "reencode_failed" for FIX. *)
Theorem rows_act_on_their_verdict
    (targets : list Path) (tol : float) (try_fps : list Z)
    (inplace prefer_mkv : bool) (w w' : World)
    (rows : list Row) (counts : gmap string nat) :
  main_loop h targets tol try_fps false inplace prefer_mkv [] counts_init w
    = (Ok (rows, counts), w') →
  Forall (λ r, action_family (veredito r) (acao r) = true) rows.
Proof.
  intros H. eapply (main_loop_Forall h); [|exact H|done].
  intros p w1 w2 row. apply main_loop_body_family.
Qed.

End Family.

(* ===================================================================== *)
(** ** Backups are not targets *)
(* ===================================================================== *)

Lemma rfind_app (c : ascii) (a b : string) :
  rfind c (a +:+ b)
  = match rfind c b with
    | Some i => Some (String.length a + i)%nat
    | None => rfind c a
    end.
Proof.
  induction a as [|x a IH]; [rewrite append_nil; by destruct (rfind c b)|].
  rewrite append_cons. cbn [rfind String.length]. rewrite IH.
  by destruct (rfind c b).
Qed.

Lemma substring_app_tail (a b : string) :
  String.substring (String.length a) (String.length b) (a +:+ b) = b.
Proof.
  induction a as [|x a IH]; [rewrite append_nil; apply substring_whole|].
  by rewrite append_cons.
Qed.

Lemma suffix_backup (path : Path) :
  name path ≠ "" → suffix (backup_of path) = ".bak".
Proof.
  intros Hn. unfold backup_of, sibling, suffix, suffix_index. cbn [name].
  rewrite rfind_app. cbn [rfind Ascii.eqb Bool.eqb].
  rewrite append_length. cbn [String.length].
  assert (0 < String.length (name path))%nat as Hlen.
  { destruct (name path); [done | simpl; lia]. }
  replace ((0 <? String.length (name path) + 0)
           && (String.length (name path) + 0 <? String.length (name path) + 4 - 1))%nat
    with true.
  2:{ symmetry. apply andb_true_iff. split; apply Nat.ltb_lt; lia. }
  replace (String.length (name path) + 4 - (String.length (name path) + 0))%nat
    with (String.length ".bak") by (simpl; lia).
  rewrite Nat.add_0_r. apply substring_app_tail.
Qed.

(** The backup an in-place repair leaves has the extension ".bak": a later
    run over the directory does not take it as a target. *)
Theorem backups_are_not_targets (path root : Path) (walk : list Path) :
  name path ≠ "" →
  lower (suffix (backup_of path)) = ".bak"
  ∧ backup_of path ∉ targets_of root false walk.
Proof.
  intros Hn. rewrite suffix_backup by done. split; [done|].
  unfold targets_of. intros [H _]%list_elem_of_filter.
  rewrite suffix_backup in H by done.
  revert H. unfold VIDEO_EXTS, RAW_EXTS.
  rewrite !elem_of_union, !elem_of_singleton. intuition discriminate.
Qed.

(* ===================================================================== *)
(** ** The further properties on sample inputs *)
(* ===================================================================== *)

(** The audit of a file that is no raw bitstream runs the two probes and
    leaves the files alone. *)
Lemma audit_of_sample_only_probes :
  fs (verdict_for_file (sample_host (Some doc_mp4) (Some ["0.0"; "10.0"]) mux_fails)
        (mkPath "d" "a.mp4") 0.2%float sample_world).2
  = fs sample_world
  ∧ ∃ probes,
      trace (verdict_for_file
               (sample_host (Some doc_mp4) (Some ["0.0"; "10.0"]) mux_fails)
               (mkPath "d" "a.mp4") 0.2%float sample_world).2
      = trace sample_world ++ probes
      ∧ forallb is_probe probes = true
      ∧ map event_cmd probes
        = (if bool_decide (lower (suffix (mkPath "d" "a.mp4")) ∈ RAW_EXTS)
           then []
           else [ffprobe_json_cmd (mkPath "d" "a.mp4");
                 packets_cmd (mkPath "d" "a.mp4")]).
Proof.
  eapply (audit_only_probes
            (sample_host (Some doc_mp4) (Some ["0.0"; "10.0"]) mux_fails)
            (mkPath "d" "a.mp4") 0.2%float sample_world).
  vm_compute. reflexivity.
Defined.

(** A dry run over a file to fix and a raw bitstream. *)
Lemma dry_run_on_two_targets :
  ∃ rows counts w',
    main_loop (sample_host None None mux_works)
      [mkPath "d" "a.avi"; mkPath "d" "cam.h264"] 0.2%float [25; 30]
      true true false [] counts_init sample_world
    = (Ok (rows, counts), w')
    ∧ map veredito rows = [FIX; WRAP]
    ∧ fs w' = fs sample_world
    ∧ (∃ probes,
         trace w' = trace sample_world ++ probes
         ∧ forallb is_probe probes = true)
    ∧ Forall (λ r, acao r = "none" ∧ saida r = "" ∧ erro r = "") rows.
Proof.
  eexists _, _, _. split; [vm_compute; reflexivity|].
  split; [vm_compute; reflexivity|].
  eapply (dry_run_loop_changes_nothing (sample_host None None mux_works)
            [mkPath "d" "a.avi"; mkPath "d" "cam.h264"] 0.2%float [25; 30]
            true false sample_world).
  vm_compute. reflexivity.
Defined.

(** [cam.h264] is a raw bitstream, and its verdict is WRAP. *)
Lemma raw_sample_gets_wrap :
  WRAP = WRAP ↔ lower (suffix (mkPath "d" "cam.h264")) ∈ RAW_EXTS.
Proof.
  eapply (wrap_exactly_for_raw_extensions (sample_host None None mux_fails)
            (mkPath "d" "cam.h264") 0.2%float sample_world).
  vm_compute. reflexivity.
Defined.

(** Ten seconds of metadata, and a packet lister that cannot be started. *)
Lemma metadata_without_packets_is_fix :
  ∃ m w2 extras,
    verdict_for_file (sample_host (Some doc_mp4) None mux_fails)
      (mkPath "d" "a.mp4") 0.2%float sample_world
    = (Ok (FIX,
           "Meta tem duração, mas pacotes sem pts_time válido (player costuma travar tempo).",
           extras), w2)
    ∧ extras !! "meta_duration" = Some (VFloat m)
    ∧ extras !! "pkt_duration" = None.
Proof.
  eexists _, _.
  eapply (verdict_fix_untrusted_packets (sample_host (Some doc_mp4) None mux_fails)
            (mkPath "d" "a.mp4") 0.2%float sample_world).
  - apply is_raw_false. vm_compute. reflexivity.
  - vm_compute. reflexivity.
  - vm_compute. reflexivity.
  - vm_compute. reflexivity.
  - by left.
Defined.

(** Ten seconds of metadata and ten seconds of packets: OK, and the
    conditions of OK hold. *)
Lemma agreeing_sample_is_ok :
  (lower (suffix (mkPath "d" "a.mp4")) ∉ RAW_EXTS)
  ∧ ∃ m container vcodec start_time f l,
      get_meta (sample_host (Some doc_mp4) (Some ["0.0"; "10.0"]) mux_fails)
        (mkPath "d" "a.mp4") sample_world
        = (Ok (Some m, container, vcodec, start_time),
           after_meta (mkPath "d" "a.mp4") sample_world)
      ∧ get_packet_first_last_pts
          (sample_host (Some doc_mp4) (Some ["0.0"; "10.0"]) mux_fails)
          (mkPath "d" "a.mp4") (after_meta (mkPath "d" "a.mp4") sample_world)
        = (Ok (Some f, Some l), after_probes (mkPath "d" "a.mp4") sample_world)
      ∧ PrimFloat.leb m 0.001%float = false
      ∧ PrimFloat.leb l f = false
      ∧ PrimFloat.ltb 0.2%float
          (PrimFloat.div
             (PrimFloat.abs
                (PrimFloat.sub (py_max 0%float (PrimFloat.sub l f)) m))
             (py_max m 1e-6%float)) = false
      ∧ bad_combo container vcodec = false
      ∧ (is_nan m = false → PrimFloat.ltb 0.001%float m = true)
      ∧ (is_nan f = false → is_nan l = false → PrimFloat.ltb f l = true)
      ∧ (is_nan 0.2%float = false →
         is_nan (PrimFloat.div
                   (PrimFloat.abs
                      (PrimFloat.sub (py_max 0%float (PrimFloat.sub l f)) m))
                   (py_max m 1e-6%float)) = false →
         PrimFloat.leb
           (PrimFloat.div
              (PrimFloat.abs
                 (PrimFloat.sub (py_max 0%float (PrimFloat.sub l f)) m))
              (py_max m 1e-6%float)) 0.2%float = true).
Proof.
  eapply (ok_only_when_durations_agree
            (sample_host (Some doc_mp4) (Some ["0.0"; "10.0"]) mux_fails)
            (mkPath "d" "a.mp4") 0.2%float sample_world).
  vm_compute. reflexivity.
Defined.

(** A file [ffprobe] answers nothing about. *)
Lemma unreadable_sample_is_fix :
  (get_meta (sample_host None None mux_fails) (mkPath "d" "a.avi") sample_world
   = (Ok (None, None, None, None), after_meta (mkPath "d" "a.avi") sample_world)
   ↔ (returncode (mkProc 0 "doc") ≠ 0
      ∨ json_loads (sample_host None None mux_fails)
          (if String.eqb (stdout (mkProc 0 "doc")) "" then "{}"
           else stdout (mkProc 0 "doc")) = None
      ∨ ∃ d, json_loads (sample_host None None mux_fails)
               (if String.eqb (stdout (mkProc 0 "doc")) "" then "{}"
                else stdout (mkProc 0 "doc")) = Some d
             ∧ doc_is_empty d = true))
  ∧ (get_meta (sample_host None None mux_fails) (mkPath "d" "a.avi") sample_world
     = (Ok (None, None, None, None), after_meta (mkPath "d" "a.avi") sample_world) →
     ∃ reason extras w2,
       verdict_for_file (sample_host None None mux_fails) (mkPath "d" "a.avi")
         0.2%float sample_world
       = (Ok (FIX, reason, extras), w2)
       ∧ extras !! "container" = Some VNone
       ∧ extras !! "vcodec" = Some VNone).
Proof.
  apply (unreadable_file_is_fix (sample_host None None mux_fails)
           (mkPath "d" "a.avi") 0.2%float sample_world
           (after_meta (mkPath "d" "a.avi") sample_world) (mkProc 0 "doc")).
  - apply is_raw_false. vm_compute. reflexivity.
  - vm_compute. reflexivity.
Defined.

(** A dictionary with [format] and [streams] bound to [null] has keys: it is
    not the null probe, and its container is the empty text. *)
Lemma document_of_nulls_is_not_the_null_probe :
  ∃ w1,
    get_meta (sample_host (Some (mkDoc None None true)) None mux_fails)
      (mkPath "d" "a.avi") sample_world
    = (Ok (None, Some "", None, None), w1).
Proof. eexists. vm_compute. reflexivity. Qed.

(** OK at the tolerance 0.2 is OK at the tolerance 0.5. *)
Lemma ok_at_a_wider_tolerance :
  ∃ reason extras w',
    verdict_for_file (sample_host (Some doc_mp4) (Some ["0.0"; "10.0"]) mux_fails)
      (mkPath "d" "a.mp4") 0.5%float sample_world
    = (Ok (OK, reason, extras), w').
Proof.
  eexists _, _, _.
  eapply (wider_tolerance_keeps_ok
            (sample_host (Some doc_mp4) (Some ["0.0"; "10.0"]) mux_fails)
            (mkPath "d" "a.mp4") 0.2%float 0.5%float sample_world).
  - vm_compute. reflexivity.
  - vm_compute. reflexivity.
Defined.

(** A container duration that reads [nan], with ten seconds of packets. *)
Lemma nan_sample_is_ok :
  ∃ w2 extras,
    verdict_for_file
      (sample_host_nan (Some doc_nan) (Some ["0.0"; "10.0"]) mux_fails)
      (mkPath "d" "a.avi") 0.2%float sample_world
    = (Ok (OK, "Metadados e pts_time coerentes.", extras), w2).
Proof.
  eexists _.
  eapply (nan_duration_is_ok
            (sample_host_nan (Some doc_nan) (Some ["0.0"; "10.0"]) mux_fails)
            (mkPath "d" "a.avi") 0.2%float sample_world).
  - apply is_raw_false. vm_compute. reflexivity.
  - vm_compute. reflexivity.
  - vm_compute. reflexivity.
  - vm_compute. reflexivity.
  - vm_compute. reflexivity.
  - vm_compute. reflexivity.
Defined.

(** An in-place repair of [d/a.avi] keeps its content, here in the
    backup. *)
Lemma original_survives_inplace_repair :
  fs (process_one (sample_host None None mux_works) (mkPath "d" "a.avi")
        [25; 30] false true false 0.2%float sample_world).2
    !! str (mkPath "d" "a.avi") = Some "ORIGINAL"
  ∨ fs (process_one (sample_host None None mux_works) (mkPath "d" "a.avi")
          [25; 30] false true false 0.2%float sample_world).2
      !! str (backup_of (mkPath "d" "a.avi")) = Some "ORIGINAL".
Proof.
  eapply (repair_never_loses_original (sample_host None None mux_works)
            (mkPath "d" "a.avi") [25; 30] false true false 0.2%float
            sample_world).
  - discriminate.
  - vm_compute. reflexivity.
  - vm_compute. reflexivity.
Defined.

(** The output a side-by-side repair of [d/a.avi] reports is there. *)
Lemma reported_output_on_sample :
  ∃ c,
    fs (process_one (sample_host None None mux_works) (mkPath "d" "a.avi")
          [25; 30] false false false 0.2%float sample_world).2
      !! "d/a_fixed.mkv" = Some c
    ∧ (0 < String.length c)%nat.
Proof.
  eapply (reported_output_exists (sample_host None None mux_works)
            (mkPath "d" "a.avi") [25; 30] false false false 0.2%float
            sample_world).
  - discriminate.
  - vm_compute. reflexivity.
  - discriminate.
Defined.

(** A raw bitstream and a sound file: one WRAP, one OK, no FIX. *)
Lemma two_targets_one_wrap_one_ok :
  ∃ rows counts w',
    main_loop (sample_host (Some doc_mp4) (Some ["0.0"; "10.0"]) mux_works)
      [mkPath "d" "cam.h264"; mkPath "d" "a.mp4"] 0.2%float [25; 30]
      false false false [] counts_init sample_world
    = (Ok (rows, counts), w')
    ∧ counts = {[ "OK" := 1%nat; "WRAP" := 1%nat; "FIX" := 0%nat ]}
    ∧ map arquivo rows
      = map str [mkPath "d" "cam.h264"; mkPath "d" "a.mp4"]
    ∧ (∀ v, counts !! verdict_name v = Some (length (rows_with v rows)))
    ∧ (length (rows_with OK rows) + length (rows_with WRAP rows)
       + length (rows_with FIX rows))%nat
      = length [mkPath "d" "cam.h264"; mkPath "d" "a.mp4"]
    ∧ Forall2 (λ r p, veredito r = WRAP ↔ lower (suffix p) ∈ RAW_EXTS)
              rows [mkPath "d" "cam.h264"; mkPath "d" "a.mp4"].
Proof.
  eexists _, _, _. split; [vm_compute; reflexivity|].
  split; [vm_compute; reflexivity|].
  eapply (main_loop_rows_and_counts
            (sample_host (Some doc_mp4) (Some ["0.0"; "10.0"]) mux_works)
            [mkPath "d" "cam.h264"; mkPath "d" "a.mp4"] 0.2%float [25; 30]
            false false false sample_world).
  vm_compute. reflexivity.
Defined.

(** The same name in another case and another directory. *)
Lemma upper_case_raw_is_wrap :
  lower (suffix (mkPath "e" "CAM.H264")) = lower (suffix (mkPath "d" "cam.h264"))
  ∧ verdict_for_file (sample_host None None mux_fails) (mkPath "e" "CAM.H264")
      0.2%float sample_world
    = verdict_for_file (sample_host None None mux_fails) (mkPath "d" "cam.h264")
        0.2%float sample_world
  ∧ verdict_for_file (sample_host None None mux_fails) (mkPath "e" "CAM.H264")
      0.2%float sample_world
    = (Ok (WRAP,
           "Bitstream cru (" +:+ lower (suffix (mkPath "d" "cam.h264"))
             +:+ "); precisa contêiner + FPS.",
           {[ "ext" := VStr (lower (suffix (mkPath "d" "cam.h264"))) ]}),
       sample_world).
Proof.
  apply (raw_detection_ignores_case (sample_host None None mux_fails)
           (mkPath "d" "cam.h264") (mkPath "e" "CAM.H264") 0.2%float
           sample_world).
  - vm_compute. reflexivity.
  - apply is_raw_true. vm_compute. reflexivity.
Defined.

(** Two repairs that fail: the rows say so in the action and in the error
    text, and have no output path. *)
Lemma failed_rows_are_consistent :
  ∃ rows counts w',
    main_loop (sample_host None None mux_fails)
      [mkPath "d" "a.avi"; mkPath "d" "cam.h264"] 0.2%float [25; 30]
      false false false [] counts_init sample_world
    = (Ok (rows, counts), w')
    ∧ map acao rows = ["reencode_failed"; "wrap_failed"]
    ∧ Forall row_consistent rows.
Proof.
  eexists _, _, _. split; [vm_compute; reflexivity|].
  split; [vm_compute; reflexivity|].
  eapply (report_rows_are_consistent (sample_host None None mux_fails)
            [mkPath "d" "a.avi"; mkPath "d" "cam.h264"] 0.2%float [25; 30]
            false false false sample_world).
  vm_compute. reflexivity.
Defined.

(** A directory with two raw bitstreams, one of them in upper case, a sound
    file and a text file. *)
Lemma directory_with_two_raw_files :
  ∃ rows counts w',
    main_loop (sample_host (Some doc_mp4) (Some ["0.0"; "10.0"]) mux_works)
      (targets_of (mkPath "" "d") false
         [mkPath "d" "cam.h264"; mkPath "d" "notes.txt"; mkPath "d" "a.mp4";
          mkPath "d" "B.HEVC"])
      0.2%float [25; 30] true false false [] counts_init sample_world
    = (Ok (rows, counts), w')
    ∧ map arquivo rows
      = map str (filter (λ p, lower (suffix p) ∈ VIDEO_EXTS)
                   [mkPath "d" "cam.h264"; mkPath "d" "notes.txt";
                    mkPath "d" "a.mp4"; mkPath "d" "B.HEVC"])
    ∧ counts !! "WRAP"
      = Some (length (filter (λ p, lower (suffix p) ∈ RAW_EXTS)
                        [mkPath "d" "cam.h264"; mkPath "d" "notes.txt";
                         mkPath "d" "a.mp4"; mkPath "d" "B.HEVC"])).
Proof.
  eexists _, _, _. split; [vm_compute; reflexivity|].
  eapply (directory_wrap_count_is_raw_files
            (sample_host (Some doc_mp4) (Some ["0.0"; "10.0"]) mux_works)
            (mkPath "" "d")
            [mkPath "d" "cam.h264"; mkPath "d" "notes.txt"; mkPath "d" "a.mp4";
             mkPath "d" "B.HEVC"]
            0.2%float [25; 30] true false false sample_world).
  - repeat constructor.
  - vm_compute. reflexivity.
Defined.

(** A live run over a file to fix and a raw bitstream: a remux on the FIX
    row, a wrap on the WRAP row. *)
Lemma live_rows_act_on_their_verdict :
  ∃ rows counts w',
    main_loop (sample_host None None mux_works)
      [mkPath "d" "a.avi"; mkPath "d" "cam.h264"] 0.2%float [25; 30]
      false false false [] counts_init sample_world
    = (Ok (rows, counts), w')
    ∧ map veredito rows = [FIX; WRAP]
    ∧ map acao rows = ["remux_mkv"; "wrap(25)"]
    ∧ Forall (λ r, action_family (veredito r) (acao r) = true) rows.
Proof.
  eexists _, _, _. split; [vm_compute; reflexivity|].
  split; [vm_compute; reflexivity|].
  split; [vm_compute; reflexivity|].
  eapply (rows_act_on_their_verdict (sample_host None None mux_works)
            [mkPath "d" "a.avi"; mkPath "d" "cam.h264"] 0.2%float [25; 30]
            false false sample_world).
  vm_compute. reflexivity.
Defined.

(** The backup of [d/a.avi] is [d/a.avi.bak], which a walk leaves out. *)
Lemma backup_of_sample_is_skipped :
  lower (suffix (backup_of (mkPath "d" "a.avi"))) = ".bak"
  ∧ backup_of (mkPath "d" "a.avi")
    ∉ targets_of (mkPath "" "d") false
        [mkPath "d" "a.avi.bak"; mkPath "d" "a.avi"].
Proof.
  apply (backups_are_not_targets (mkPath "d" "a.avi") (mkPath "" "d")
           [mkPath "d" "a.avi.bak"; mkPath "d" "a.avi"]).
  discriminate.
Defined.
